(** * Cover-letter text pipeline: resume extraction, job analysis, letter templates

    A shallow embedding of [src/lib/cover-letter-generator.ts], of the
    request handler that calls it
    ([src/app/api/cover-letter/generate/route.ts]) and of the client of the
    ML backend that the handler tries first ([src/lib/api-client.ts]).

    Modelling conventions.
    - A JavaScript string is a [string] of 8-bit characters.  The pipeline is
      modelled on ASCII text: case mapping touches [A-Z]/[a-z] only, white
      space is the ASCII white space (codes 9-13 and 32), and the one
      non-ASCII literal of the templates (the bullet) appears as its UTF-8
      bytes.
    - A JavaScript array is a [list]; [a[i]] is [nth_error a i], whose [None]
      is the value [undefined].
    - A number of years is a JavaScript Number: [parseInt] rounds the
      integer it reads to a double, and a template literal prints it as
      [Number::toString] does (in full below [2^53], by its shortest
      decimal above, in exponent form from [1e21] on).
    - Regular expressions are run by a backtracking matcher that follows the
      ECMAScript matching rules (priority of alternatives, greedy and lazy
      quantifiers, captures, [^], [$], [\b], the [i] flag).
    - [new Date()] and [console.log] are the only effects of the generator;
      they are modelled by an explicit [World] that the entry points thread
      through.
    - The handler reaches the session, the request body, the database and
      the backend; each is given by an explicit answer that may be a thrown
      value, and the handler runs in a state and exception monad over the
      [World] and the documents handed to the database. *)

From Stdlib Require Import Strings.String Strings.Ascii Lists.List Bool.Bool.
From Stdlib Require Import Arith.Arith NArith.NArith micromega.Lia.
From Stdlib Require Import Numbers.DecimalString Init.Decimal.
Import ListNotations.

Local Open Scope list_scope.
Local Open Scope string_scope.

(** ** JavaScript string primitives *)
Module Js.

Definition nl : string := String (ascii_of_nat 10) EmptyString.

Definition isUpperChar (c : ascii) : bool :=
  let n := N_of_ascii c in (65 <=? n)%N && (n <=? 90)%N.

Definition isLowerChar (c : ascii) : bool :=
  let n := N_of_ascii c in (97 <=? n)%N && (n <=? 122)%N.

Definition isDigitChar (c : ascii) : bool :=
  let n := N_of_ascii c in (48 <=? n)%N && (n <=? 57)%N.

Definition toLowerChar (c : ascii) : ascii :=
  if isUpperChar c then ascii_of_N (N_of_ascii c + 32) else c.

Definition toUpperChar (c : ascii) : ascii :=
  if isLowerChar c then ascii_of_N (N_of_ascii c - 32) else c.

(** White space of [\s] and of [trim]. *)
Definition isSpace (c : ascii) : bool :=
  let n := N_of_ascii c in ((9 <=? n)%N && (n <=? 13)%N) || (n =? 32)%N.

(** Line terminators, which [.] refuses. *)
Definition isLineTerminator (c : ascii) : bool :=
  let n := N_of_ascii c in (n =? 10)%N || (n =? 13)%N.

(** Word characters of [\b]: [A-Za-z0-9_]. *)
Definition isWordChar (c : ascii) : bool :=
  isUpperChar c || isLowerChar c || isDigitChar c || (N_of_ascii c =? 95)%N.

Fixpoint mapChars (f : ascii -> ascii) (s : string) : string :=
  match s with
  | EmptyString => EmptyString
  | String c s' => String (f c) (mapChars f s')
  end.

Definition toLowerCase : string -> string := mapChars toLowerChar.
Definition toUpperCase : string -> string := mapChars toUpperChar.

Definition isEmpty (s : string) : bool :=
  match s with EmptyString => true | String _ _ => false end.

(** Truthiness of a string value: non-empty. *)
Definition truthy (s : string) : bool := negb (isEmpty s).

(** [a || b] on strings. *)
Definition orElse (a b : string) : string := if truthy a then a else b.

Fixpoint trimStart (s : string) : string :=
  match s with
  | EmptyString => EmptyString
  | String c s' => if isSpace c then trimStart s' else s
  end.

Fixpoint trimEnd (s : string) : string :=
  match s with
  | EmptyString => EmptyString
  | String c s' =>
      let t := trimEnd s' in
      if isSpace c && isEmpty t then EmptyString else String c t
  end.

Definition trim (s : string) : string := trimEnd (trimStart s).

Fixpoint startsWith (s p : string) : bool :=
  match p, s with
  | EmptyString, _ => true
  | String _ _, EmptyString => false
  | String a p', String b s' => Ascii.eqb a b && startsWith s' p'
  end.

(** [s.includes(sub)]. *)
Fixpoint includes (s sub : string) : bool :=
  startsWith s sub ||
  match s with
  | EmptyString => false
  | String _ s' => includes s' sub
  end.

(** [s.split(sep)] for a one-character separator. *)
Fixpoint splitChar (sep : ascii) (s : string) : list string :=
  match s with
  | EmptyString => [EmptyString]
  | String c s' =>
      if Ascii.eqb c sep then EmptyString :: splitChar sep s'
      else match splitChar sep s' with
           | [] => [String c EmptyString]
           | h :: t => String c h :: t
           end
  end.

(** [a.join(sep)]. *)
Definition join (sep : string) (l : list string) : string := String.concat sep l.

(** [a.slice(0, n)]. *)
Definition slice0 {A : Type} (n : nat) (l : list A) : list A := firstn n l.

(** The first [n] characters of a string. *)
Fixpoint take (n : nat) (s : string) : string :=
  match n, s with
  | S n', String c s' => String c (take n' s')
  | _, _ => EmptyString
  end.

(** Decimal text of an integer, as a template literal prints one below
    [2^53] (the fields of a date). *)
Definition showN (n : N) : string := NilEmpty.string_of_uint (N.to_uint n).

(** The integer that the decimal digits at the start of [s] spell. *)
Fixpoint parseDigits (acc : N) (s : string) : N :=
  match s with
  | EmptyString => acc
  | String c s' =>
      if isDigitChar c then parseDigits (acc * 10 + (N_of_ascii c - 48)) s'
      else acc
  end.

(** A JavaScript Number, as far as [parseInt] gives one on decimal digits:
    a non-negative integer that a double holds, [Infinity] or [NaN]. *)
Inductive Number : Type :=
| NaN
| Infinity
| Finite (n : N).

(** The double nearest to a non-negative integer, ties to even: integers
    below [2^53] are kept, larger ones keep their 53 leading bits, and from
    [2^1024 - 2^970] on the result is [Infinity]. *)
Definition toDouble (n : N) : Number :=
  if (n <? 2 ^ 53)%N then Finite n
  else
    let shift := (N.log2 n - 52)%N in
    let q := N.shiftr n shift in
    let r := (n - N.shiftl q shift)%N in
    let half := (2 ^ (shift - 1))%N in
    let q' := if (half <? r)%N || ((r =? half)%N && N.odd q) then (q + 1)%N else q in
    let v := N.shiftl q' shift in
    if (2 ^ 1024 <=? v)%N then Infinity else Finite v.

(** [parseInt(s)] for the text of a capture of [\d+]: the decimal digits
    at the start of [s], rounded to a double; [NaN] when [s] does not start
    with a digit. *)
Definition parseInt (s : string) : Number :=
  match s with
  | EmptyString => NaN
  | String c _ => if isDigitChar c then toDouble (parseDigits 0 s) else NaN
  end.

(** The decimal with the fewest significant digits that reads back as the
    double [v], the one nearest to [v] when there are two, the even one on a
    tie ([k] significant digits are tried at each step). *)
Fixpoint shortestDecimal (fuel : nat) (k : N) (v : N) : N :=
  match fuel with
  | O => v
  | S fuel' =>
      let p := (10 ^ (N.of_nat (String.length (showN v)) - k))%N in
      let lo := (v / p * p)%N in
      let hi := (lo + p)%N in
      let readsBack c := match toDouble c with Finite w => (w =? v)%N | _ => false end in
      if readsBack lo && readsBack hi then
        if (v - lo <? hi - v)%N then lo
        else if (hi - v <? v - lo)%N then hi
        else if N.even (lo / p) then lo else hi
      else if readsBack lo then lo
      else if readsBack hi then hi
      else shortestDecimal fuel' (k + 1)%N v
  end.

Fixpoint dropTrailingZeros (s : string) : string :=
  match s with
  | EmptyString => EmptyString
  | String c s' =>
      let t := dropTrailingZeros s' in
      if Ascii.eqb c "0" && isEmpty t then EmptyString else String c t
  end.

(** A Number inside a template literal ([Number::toString]): an integer
    below [2^53] prints in full; above, the shortest decimal that reads back
    prints with its zeros up to 21 digits, and in exponent form beyond. *)
Definition showNumber (x : Number) : string :=
  match x with
  | NaN => "NaN"
  | Infinity => "Infinity"
  | Finite v =>
      if (v <? 2 ^ 53)%N then showN v
      else
        let text := showN (shortestDecimal 17 1 v) in
        if Nat.leb (String.length text) 21 then text
        else
          let exponent := "e+" ++ showN (N.of_nat (String.length text - 1)) in
          match dropTrailingZeros text with
          | EmptyString => text
          | String d EmptyString => String d exponent
          | String d rest => String d ("." ++ rest ++ exponent)
          end
  end.

(** Values that may be [undefined] (an array read past the end). *)
Definition truthyValue (v : option string) : bool :=
  match v with Some s => truthy s | None => false end.

(** [a || b] where both may be [undefined]. *)
Definition orValue (a b : option string) : option string :=
  if truthyValue a then a else b.

(** [a || "text"]. *)
Definition orDefault (a : option string) (d : string) : string :=
  match orValue a (Some d) with Some s => s | None => d end.

(** A value inside a template literal; [undef] is the text printed for
    [undefined]. *)
Definition interp (undef : string) (v : option string) : string :=
  match v with Some s => s | None => undef end.

Definition undefinedText : string := "undefined".

End Js.

(** ** Regular expressions *)
Module RegExp.
Import Js.

Inductive citem : Type :=
| CChar (c : ascii)
| CRange (lo hi : ascii)
| CSpace
| CDigit.

Inductive regex : Type :=
| Empty
| Char (c : ascii)
| Dot
| Class (negated : bool) (items : list citem)
| Seq (r1 r2 : regex)
| Alt (r1 r2 : regex)
| Repeat (min : nat) (max : option nat) (greedy : bool) (r : regex)
| Group (n : nat) (r : regex)
| InputStart
| InputEnd
| WordBoundary.

(** The matcher's position in the input: characters consumed so far, the
    character just before the position, the rest of the input, and the
    captures recorded on the way. *)
Record mstate : Type := {
  st_pos : nat;
  st_prev : option ascii;
  st_rest : string;
  st_caps : list (nat * string)
}.

Definition cont : Type := mstate -> option mstate.

Definition advance (c : ascii) (rest : string) (st : mstate) : mstate :=
  {| st_pos := S (st_pos st); st_prev := Some c; st_rest := rest;
     st_caps := st_caps st |}.

Definition charEq (ic : bool) (a b : ascii) : bool :=
  if ic then Ascii.eqb (toUpperChar a) (toUpperChar b) else Ascii.eqb a b.

Definition itemHas (d : ascii) (i : citem) : bool :=
  match i with
  | CChar c => Ascii.eqb c d
  | CRange lo hi => (N_of_ascii lo <=? N_of_ascii d)%N && (N_of_ascii d <=? N_of_ascii hi)%N
  | CSpace => isSpace d
  | CDigit => isDigitChar d
  end.

Definition classHas (ic : bool) (items : list citem) (d : ascii) : bool :=
  existsb (itemHas d) items ||
  (ic && (existsb (itemHas (toLowerChar d)) items || existsb (itemHas (toUpperChar d)) items)).

Fixpoint groupsOf (r : regex) : list nat :=
  match r with
  | Seq a b | Alt a b => (groupsOf a ++ groupsOf b)%list
  | Repeat _ _ _ a => groupsOf a
  | Group n a => n :: groupsOf a
  | _ => []
  end.

Definition clearCaps (gs : list nat) (st : mstate) : mstate :=
  {| st_pos := st_pos st; st_prev := st_prev st; st_rest := st_rest st;
     st_caps := filter (fun p => negb (existsb (Nat.eqb (fst p)) gs)) (st_caps st) |}.

Definition setCap (n : nat) (v : string) (st : mstate) : mstate :=
  {| st_pos := st_pos st; st_prev := st_prev st; st_rest := st_rest st;
     st_caps := (n, v) :: filter (fun p => negb (Nat.eqb (fst p) n)) (st_caps st) |}.

Definition step (ok : ascii -> bool) (k : cont) (st : mstate) : option mstate :=
  match st_rest st with
  | EmptyString => None
  | String d rest => if ok d then k (advance d rest st) else None
  end.

Definition atWordBoundary (st : mstate) : bool :=
  let a := match st_prev st with Some c => isWordChar c | None => false end in
  let b := match st_rest st with String c _ => isWordChar c | EmptyString => false end in
  xorb a b.

(** A matcher takes the continuation for what follows and a position. *)
Definition matcher : Type := cont -> mstate -> option mstate.

(** The ECMAScript RepeatMatcher for a quantified atom [body], with [mn]
    iterations still required and at most [mx] allowed: once the minimum is
    met, an iteration that consumes nothing is refused; a greedy quantifier
    tries one more iteration before the continuation, a lazy one the
    continuation first.  [fuel] bounds the number of iterations. *)
Fixpoint iterate (body : matcher) (k : cont) (greedy : bool) (fuel mn : nat) (mx : option nat)
  (st : mstate) {struct fuel} : option mstate :=
  match fuel with
  | O => k st
  | S fuel' =>
      match mx with
      | Some O => k st
      | _ =>
          let d : cont := fun st' =>
            if Nat.eqb mn 0 && Nat.eqb (st_pos st') (st_pos st) then None
            else iterate body k greedy fuel' (Nat.pred mn) (option_map Nat.pred mx) st' in
          if Nat.ltb 0 mn then body d st
          else if greedy then
            match body d st with
            | Some z => Some z
            | None => k st
            end
          else
            match k st with
            | Some z => Some z
            | None => body d st
            end
      end
  end.

(** [run ic r k st]: match [r] at [st] and hand the position reached to the
    continuation [k]; [None] when every way of matching fails.  Captures
    inside a quantified atom are cleared before each iteration.  The
    iteration budget [min + |rest| + 1] of a quantifier cannot run out:
    every iteration either counts towards the minimum or consumes a
    character ([run_budget_spare] below). *)
Fixpoint run (ic : bool) (r : regex) (k : cont) (st : mstate) {struct r} : option mstate :=
  match r with
  | Empty => k st
  | Char c => step (charEq ic c) k st
  | Dot => step (fun d => negb (isLineTerminator d)) k st
  | Class neg items => step (fun d => xorb neg (classHas ic items d)) k st
  | Seq r1 r2 => run ic r1 (run ic r2 k) st
  | Alt r1 r2 =>
      match run ic r1 k st with
      | Some st' => Some st'
      | None => run ic r2 k st
      end
  | Group n r' =>
      run ic r' (fun st' => k (setCap n (take (st_pos st' - st_pos st) (st_rest st)) st')) st
  | Repeat mn mx greedy r' =>
      iterate (fun d st0 => run ic r' d (clearCaps (groupsOf r') st0)) k greedy
              (mn + String.length (st_rest st) + 1) mn mx st
  | InputStart => if Nat.eqb (st_pos st) 0 then k st else None
  | InputEnd => if isEmpty (st_rest st) then k st else None
  | WordBoundary => if atWordBoundary st then k st else None
  end.

(** [st'] is a position the matcher can reach from [st]: further on in the
    same input. *)
Definition follows (st st' : mstate) : Prop :=
  st_pos st <= st_pos st' /\
  st_pos st' + String.length (st_rest st')
  = st_pos st + String.length (st_rest st).

(** A matcher that calls its continuation on reachable positions only. *)
Definition progressive (body : matcher) : Prop :=
  forall (d d' : cont) (st : mstate),
    (forall st', follows st st' -> d st' = d' st') -> body d st = body d' st.

(** A successful attempt ends at a reachable position that the
    continuation accepted. *)
Definition lands (body : matcher) : Prop :=
  forall (k : cont) (st z : mstate),
    body k st = Some z -> exists st', follows st st' /\ k st' = Some z.

(** A successful match: where it starts, the matched text [m[0]], the
    captures [m[1]], [m[2]], ..., and the position just after it. *)
Record MatchResult : Type := {
  m_index : nat;
  m_text : string;
  m_caps : list (nat * string);
  m_after : mstate
}.

Definition matchAt (ic : bool) (r : regex) (st : mstate) : option MatchResult :=
  match run ic r Some (clearCaps (groupsOf r) st) with
  | Some st' =>
      Some {| m_index := st_pos st;
              m_text := take (st_pos st' - st_pos st) (st_rest st);
              m_caps := st_caps st';
              m_after := st' |}
  | None => None
  end.

(** Leftmost match at or after the position [st]. *)
Fixpoint searchFrom (ic : bool) (r : regex) (pos : nat) (prev : option ascii) (s : string)
  : option MatchResult :=
  match matchAt ic r {| st_pos := pos; st_prev := prev; st_rest := s; st_caps := [] |} with
  | Some m => Some m
  | None =>
      match s with
      | EmptyString => None
      | String c s' => searchFrom ic r (S pos) (Some c) s'
      end
  end.

(** [re.exec(s)] / [s.match(re)] without the [g] flag. *)
Definition exec (ic : bool) (r : regex) (s : string) : option MatchResult :=
  searchFrom ic r 0 None s.

(** [re.test(s)]. *)
Definition test (ic : bool) (r : regex) (s : string) : bool :=
  match exec ic r s with Some _ => true | None => false end.

(** [m[n]] for a capture: [None] when the group took no part in the match. *)
Definition group (n : nat) (m : MatchResult) : option string :=
  match find (fun p => Nat.eqb (fst p) n) (m_caps m) with
  | Some p => Some (snd p)
  | None => None
  end.

(** [m && m[n]] followed by a use of [m[n]]: the capture when it is truthy. *)
Definition truthyGroup (n : nat) (m : option MatchResult) : option string :=
  match m with
  | Some r =>
      match group n r with
      | Some g => if truthy g then Some g else None
      | None => None
      end
  | None => None
  end.

(** [s.match(re)] with the [g] flag: the texts of all successive matches
    ([[]] stands for [null]).  After an empty match the scan moves on by one
    character, so every turn moves on in the input and [|s| + 1] turns
    are enough. *)
Fixpoint matchAllFrom (fuel : nat) (ic : bool) (r : regex) (pos : nat) (prev : option ascii)
  (s : string) : list string :=
  match fuel with
  | O => []
  | S fuel' =>
      match searchFrom ic r pos prev s with
      | None => []
      | Some m =>
          let a := m_after m in
          if Nat.eqb (st_pos a) (m_index m) then
            match st_rest a with
            | EmptyString => [m_text m]
            | String c rest => m_text m :: matchAllFrom fuel' ic r (S (st_pos a)) (Some c) rest
            end
          else m_text m :: matchAllFrom fuel' ic r (st_pos a) (st_prev a) (st_rest a)
      end
  end.

Definition matchAll (ic : bool) (r : regex) (s : string) : list string :=
  matchAllFrom (S (String.length s)) ic r 0 None s.

(** [s.split(re)] for a pattern without captures (ECMAScript's split loop):
    [p] is where the current piece starts, [acc] the piece read so far, and
    the match is tried at every position [q]; a match that ends at [p] is
    skipped.  A turn either moves [q] on or moves [p] up to [q], so
    [2 |s| + 2] turns are enough. *)
Fixpoint splitLoop (fuel : nat) (ic : bool) (r : regex) (p : nat) (acc : string) (q : mstate)
  : list string :=
  match fuel with
  | O => [acc]
  | S fuel' =>
      match st_rest q with
      | EmptyString => [acc]
      | String c rest =>
          match matchAt ic r q with
          | None => splitLoop fuel' ic r p (acc ++ String c EmptyString) (advance c rest q)
          | Some m =>
              let a := m_after m in
              if Nat.eqb (st_pos a) p
              then splitLoop fuel' ic r p (acc ++ String c EmptyString) (advance c rest q)
              else acc :: splitLoop fuel' ic r (st_pos a) EmptyString
                            {| st_pos := st_pos a; st_prev := st_prev a;
                               st_rest := st_rest a; st_caps := [] |}
          end
      end
  end.

Definition start (s : string) : mstate :=
  {| st_pos := 0; st_prev := None; st_rest := s; st_caps := [] |}.

Definition split (ic : bool) (r : regex) (s : string) : list string :=
  match s with
  | EmptyString =>
      match matchAt ic r (start s) with
      | Some _ => []
      | None => [s]
      end
  | _ => splitLoop (2 * String.length s + 2) ic r 0 EmptyString (start s)
  end.

(** [s.replace(re, rep)] with the [g] flag and a replacement text free of
    [$] patterns; every turn moves on in the input. *)
Fixpoint replaceLoop (fuel : nat) (ic : bool) (r : regex) (rep : string) (q : mstate) : string :=
  match fuel with
  | O => st_rest q
  | S fuel' =>
      match matchAt ic r q with
      | Some m =>
          let a := m_after m in
          if Nat.eqb (st_pos a) (st_pos q) then
            match st_rest q with
            | EmptyString => rep
            | String c rest => rep ++ String c (replaceLoop fuel' ic r rep (advance c rest q))
            end
          else rep ++ replaceLoop fuel' ic r rep
                        {| st_pos := st_pos a; st_prev := st_prev a;
                           st_rest := st_rest a; st_caps := [] |}
      | None =>
          match st_rest q with
          | EmptyString => EmptyString
          | String c rest => String c (replaceLoop fuel' ic r rep (advance c rest q))
          end
      end
  end.

Definition replaceAll (ic : bool) (r : regex) (rep : string) (s : string) : string :=
  replaceLoop (S (String.length s)) ic r rep (start s).

(** *** Pattern syntax *)

Fixpoint seqs (rs : list regex) : regex :=
  match rs with
  | [] => Empty
  | [r] => r
  | r :: rs' => Seq r (seqs rs')
  end.

Fixpoint alts (rs : list regex) : regex :=
  match rs with
  | [] => Empty
  | [r] => r
  | r :: rs' => Alt r (alts rs')
  end.

(** A run of literal characters. *)
Fixpoint lit (s : string) : regex :=
  match s with
  | EmptyString => Empty
  | String c EmptyString => Char c
  | String c s' => Seq (Char c) (lit s')
  end.

(** Pattern source made of plain characters and [.], as the keyword lists
    joined into [new RegExp(...)] are: an unescaped [.] is the wildcard. *)
Fixpoint src (s : string) : regex :=
  match s with
  | EmptyString => Empty
  | String c s' =>
      let a := if Ascii.eqb c "."%char then Dot else Char c in
      match s' with
      | EmptyString => a
      | _ => Seq a (src s')
      end
  end.

Definition star (r : regex) : regex := Repeat 0 None true r.
Definition lazyStar (r : regex) : regex := Repeat 0 None false r.
Definition plus (r : regex) : regex := Repeat 1 None true r.
Definition opt (r : regex) : regex := Repeat 0 (Some 1) true r.
Definition times (n : nat) (r : regex) : regex := Repeat n (Some n) true r.
Definition digit : regex := Class false [CDigit].
Definition space : regex := Class false [CSpace].
Definition oneOf (s : string) : regex :=
  Class false (map CChar (list_ascii_of_string s)).

End RegExp.

Import Js RegExp.

(** ** Data model *)

Record ResumeInfo : Type := {
  name : string;
  email : string;
  phone : string;
  address : string;
  skills : list string;
  experience : string;
  education : string;
  workHistory : list string;
  bio : string
}.

Record JobAnalysis : Type := {
  requirements : list string;
  matchedSkills : list string;
  keyResponsibilities : list string;
  companyInsights : string
}.

Record JobInfo : Type := {
  companyName : string;
  jobTitle : string;
  jobDescription : string
}.

(** The caller's profile record ([userProfile: any]); a field that is not
    set is [None]. *)
Record UserProfile : Type := {
  profile_name : option string;
  profile_email : option string;
  profile_phone : option string;
  profile_address : option string;
  profile_bio : option string
}.

(** [userProfile?.field] or else the empty string. *)
Definition profileField (f : UserProfile -> option string) (p : option UserProfile) : string :=
  match p with
  | Some u => match f u with Some v => v | None => EmptyString end
  | None => EmptyString
  end.

(** ** Resume extraction *)

Definition upperCls : regex := Class false [CRange "A" "Z"].
Definition lowerCls : regex := Class false [CRange "a" "z"].

(** [/([A-Z][a-z]+ [A-Z][a-z]+)/] *)
Definition nameRegex : regex :=
  Group 1 (seqs [upperCls; plus lowerCls; Char " "; upperCls; plus lowerCls]).

(** [/([a-zA-Z0-9._-]+@[a-zA-Z0-9._-]+\.[a-zA-Z0-9_-]+)/gi] *)
Definition emailRegex : regex :=
  let local := Class false [CRange "a" "z"; CRange "A" "Z"; CRange "0" "9";
                            CChar "."; CChar "_"; CChar "-"] in
  let tld := Class false [CRange "a" "z"; CRange "A" "Z"; CRange "0" "9";
                          CChar "_"; CChar "-"] in
  Group 1 (seqs [plus local; Char "@"; plus local; Char "."; plus tld]).

(** [[-.\s]] *)
Definition phoneSep : regex := Class false [CChar "-"; CChar "."; CSpace].

Definition phoneRegexes : list regex := [
  (* /(\+\d{1,3}[-.\s]?)?(\(?\d{3}\)?[-.\s]?)?\d{3}[-.\s]?\d{4}/g *)
  seqs [opt (Group 1 (seqs [Char "+"; Repeat 1 (Some 3) true digit; opt phoneSep]));
        opt (Group 2 (seqs [opt (Char "("); times 3 digit; opt (Char ")"); opt phoneSep]));
        times 3 digit; opt phoneSep; times 4 digit];
  (* /\d{10}/g *)
  times 10 digit;
  (* /\d{3}[-.\s]?\d{3}[-.\s]?\d{4}/g *)
  seqs [times 3 digit; opt phoneSep; times 3 digit; opt phoneSep; times 4 digit];
  (* /\(\d{3}\)\s*\d{3}[-.\s]?\d{4}/g *)
  seqs [Char "("; times 3 digit; Char ")"; star space; times 3 digit; opt phoneSep;
        times 4 digit]
].

(** [/\b[A-Z]{2}\s+\d{5}\b/] *)
Definition zipRegex : regex :=
  seqs [WordBoundary; times 2 upperCls; plus space; times 5 digit; WordBoundary].

Definition isAddressLine (line : string) : bool :=
  includes line "Street" ||
  includes line "Avenue" ||
  includes line "Road" ||
  includes line "Lane" ||
  includes line "Drive" ||
  includes line "Blvd" ||
  includes line "NY" ||
  includes line "New York" ||
  test false zipRegex line.

Definition skillsKeywords : list string := [
  (* Technical Skills *)
  "Python"; "R"; "SQL"; "Java"; "JavaScript"; "TypeScript"; "C++"; "C#"; "PHP"; "Ruby";
  "HTML"; "CSS"; "React"; "Angular"; "Vue.js"; "Node.js"; "Express"; "Django"; "Flask";
  "Spring Boot"; "ASP.NET"; "Ruby on Rails"; "jQuery"; "Bootstrap"; "Tailwind CSS";
  (* Data Skills *)
  "Data Analysis"; "Data Science"; "Machine Learning"; "Deep Learning"; "NLP";
  "Computer Vision"; "Statistics"; "Statistical Analysis"; "Hypothesis Testing";
  "A/B Testing"; "Data Mining"; "Data Visualization"; "Data Modeling"; "ETL";
  "Data Warehousing"; "Big Data"; "Data Engineering"; "Data Pipelines";
  (* Data Tools *)
  "Tableau"; "Power BI"; "Excel"; "Google Sheets"; "Looker"; "Qlik"; "D3.js";
  "SPSS"; "SAS"; "MATLAB"; "Pandas"; "NumPy"; "SciPy"; "Scikit-learn"; "TensorFlow";
  "PyTorch"; "Keras"; "Hadoop"; "Spark"; "Hive"; "Pig"; "Kafka"; "Airflow";
  (* Cloud & DevOps *)
  "AWS"; "Azure"; "Google Cloud"; "Docker"; "Kubernetes"; "Jenkins"; "CI/CD";
  "Git"; "GitHub"; "GitLab"; "Bitbucket"; "Terraform"; "Ansible"; "Puppet"; "Chef";
  (* Databases *)
  "MySQL"; "PostgreSQL"; "MongoDB"; "Oracle"; "SQL Server"; "SQLite"; "Redis";
  "Cassandra"; "DynamoDB"; "Elasticsearch"; "Neo4j"; "GraphQL"; "NoSQL";
  (* Soft Skills *)
  "Communication"; "Teamwork"; "Leadership"; "Problem Solving"; "Critical Thinking";
  "Time Management"; "Project Management"; "Agile"; "Scrum"; "Kanban"; "JIRA";
  "Presentation"; "Research"; "Analysis"; "Attention to Detail"; "Creativity"
].

Definition defaultSkills : list string :=
  ["Data Analysis"; "Python"; "SQL"; "Machine Learning"; "Data Visualization"].

(** [(?:years?|yrs?)] *)
Definition yearsWord : regex :=
  Alt (Seq (lit "year") (opt (Char "s"))) (Seq (lit "yr") (opt (Char "s"))).

Definition expRegexes : list regex := [
  (* /(\d+)\s*(?:years?|yrs?)(?:\s*of)?\s*experience/i *)
  seqs [Group 1 (plus digit); star space; yearsWord; opt (Seq (star space) (lit "of"));
        star space; lit "experience"];
  (* /experience\s*(?:of|:)?\s*(\d+)\s*(?:years?|yrs?)/i *)
  seqs [lit "experience"; star space; opt (Alt (lit "of") (Char ":")); star space;
        Group 1 (plus digit); star space; yearsWord];
  (* /(\d+)\+\s*(?:years?|yrs?)/i *)
  seqs [Group 1 (plus digit); Char "+"; star space; yearsWord]
].

Definition educationKeywords : list string := [
  "Master"; "Masters"; "MS"; "M.S."; "MBA"; "Bachelor"; "Bachelors"; "BS"; "B.S.";
  "PhD"; "Ph.D."; "Doctorate"; "Degree"; "University"; "College"; "School";
  "Stony Brook"; "Computer Science"; "Data Science"; "Statistics"; "Mathematics"
].

(** Capture 1 of [new RegExp(..., 'i')]: the keywords joined by [|], then
    any run of characters other than [.]. *)
Definition educationRegex : regex :=
  Group 1 (Seq (alts (map src educationKeywords)) (star (Class true [CChar "."]))).

Definition workHistoryKeywords : list string :=
  ["Experience"; "Employment"; "Work History"; "Professional Experience"].

(** [new RegExp(`(${workHistoryKeywords.join('|')})`, 'i')] *)
Definition workHistoryRegex : regex := Group 1 (alts (map src workHistoryKeywords)).

(** [/^(Education|Skills|Projects|References)/i] *)
Definition workSectionEnd : regex :=
  Seq InputStart (Group 1 (alts (map lit ["Education"; "Skills"; "Projects"; "References"]))).

Definition summaryKeywords : list string := ["Summary"; "Profile"; "Objective"; "About Me"].

(** [new RegExp(`(${summaryKeywords.join('|')})`, 'i')] *)
Definition summaryRegex : regex := Group 1 (alts (map src summaryKeywords)).

(** [/^(Experience|Education|Skills|Projects|References)/i] *)
Definition summarySectionEnd : regex :=
  Seq InputStart
      (Group 1 (alts (map lit ["Experience"; "Education"; "Skills"; "Projects"; "References"]))).

(** The phone loop: the first pattern with a match gives the phone number. *)
Fixpoint phoneLoop (regexes : list regex) (resumeText : string) (phone : string) : string :=
  match regexes with
  | [] => phone
  | regex :: rest =>
      match matchAll false regex resumeText with
      | m :: _ => m
      | [] => phoneLoop rest resumeText phone
      end
  end.

(** The experience loop: the first pattern whose capture is truthy wins. *)
Fixpoint expLoop (regexes : list regex) (resumeText : string) (experience : string) : string :=
  match regexes with
  | [] => experience
  | regex :: rest =>
      match truthyGroup 1 (exec true regex resumeText) with
      | Some g => showNumber (parseInt g) ++ " years of experience"
      | None => expLoop rest resumeText experience
      end
  end.

(** The state of the work-history scan. *)
Record WorkScan : Type := {
  inWorkSection : bool;
  currentPosition : string;
  positions : list string
}.

(** One turn of the work-history loop on the line [raw]. *)
Definition workStep (s : WorkScan) (raw : string) : WorkScan :=
  let line := trim raw in
  if test true workHistoryRegex line then
    {| inWorkSection := true; currentPosition := currentPosition s; positions := positions s |}
  else if inWorkSection s then
    let s1 :=
      if isEmpty line && truthy (currentPosition s) then
        {| inWorkSection := true; currentPosition := EmptyString;
           positions := (positions s ++ [currentPosition s])%list |}
      else if truthy line then
        {| inWorkSection := true;
           currentPosition := if isEmpty (currentPosition s) then line
                              else currentPosition s ++ " " ++ line;
           positions := positions s |}
      else s in
    if test true workSectionEnd line then
      {| inWorkSection := false; currentPosition := currentPosition s1;
         positions := positions s1 |}
    else s1
  else s.

Definition workPlaceholder : string :=
  "Professional experience in data analysis and visualization".

Definition extractWorkHistory (lines : list string) : list string :=
  let s := fold_left workStep lines
             {| inWorkSection := false; currentPosition := EmptyString; positions := [] |} in
  let all : list string :=
    if truthy (currentPosition s) then (positions s ++ [currentPosition s])%list
    else positions s in
  let workHistory := slice0 3 all in
  match workHistory with
  | [] => [workPlaceholder]
  | _ => workHistory
  end.

(** The summary loop; it stops ([break]) at the first blank line inside the
    section. *)
Fixpoint summaryLoop (lines : list string) (inSummarySection : bool) (summary : string)
  : string :=
  match lines with
  | [] => summary
  | raw :: rest =>
      let line := trim raw in
      if test true summaryRegex line then summaryLoop rest true summary
      else if inSummarySection then
        if isEmpty line then summary
        else summaryLoop rest (negb (test true summarySectionEnd line)) (summary ++ line ++ " ")
      else summaryLoop rest false summary
  end.

Definition extractEducation (resumeText : string) : string :=
  match truthyGroup 1 (exec true educationRegex resumeText) with
  | Some g => trim g
  | None =>
      let educationLines :=
        filter (fun line =>
                  existsb (fun keyword => includes (toLowerCase line) (toLowerCase keyword))
                          educationKeywords)
               (splitChar (ascii_of_nat 10) resumeText) in
      match educationLines with
      | l :: _ => trim l
      | [] => EmptyString
      end
  end.

(** Skills found in the resume, vocabulary entry by vocabulary entry. *)
Definition matchSkills (resumeText : string) : list string :=
  let resumeTextLower := toLowerCase resumeText in
  filter (fun skill => includes resumeTextLower (toLowerCase skill)) skillsKeywords.

Definition extractResumeInfo (resumeText : string) (userProfile : option UserProfile)
  : ResumeInfo :=
  let name := profileField profile_name userProfile in
  let email := profileField profile_email userProfile in
  let phone := profileField profile_phone userProfile in
  let address := profileField profile_address userProfile in
  let bio := profileField profile_bio userProfile in
  let name :=
    if isEmpty name then
      match truthyGroup 1 (exec false nameRegex resumeText) with
      | Some g => g
      | None => name
      end
    else name in
  let email :=
    if isEmpty email then
      match matchAll true emailRegex resumeText with
      | m :: _ => m
      | [] => email
      end
    else email in
  let phone := if isEmpty phone then phoneLoop phoneRegexes resumeText phone else phone in
  let address :=
    if isEmpty address then
      match filter isAddressLine (splitChar (ascii_of_nat 10) resumeText) with
      | l :: _ => trim l
      | [] => address
      end
    else address in
  let skills := matchSkills resumeText in
  let skills := match skills with [] => (skills ++ defaultSkills)%list | _ => skills end in
  let experience := expLoop expRegexes resumeText EmptyString in
  let experience := if isEmpty experience then "experienced professional" else experience in
  let education := extractEducation resumeText in
  let lines := splitChar (ascii_of_nat 10) resumeText in
  let workHistory := extractWorkHistory lines in
  let bio := if isEmpty bio then trim (summaryLoop lines false EmptyString) else bio in
  {| name := name; email := email; phone := phone; address := address;
     skills := skills; experience := experience; education := education;
     workHistory := workHistory; bio := bio |}.

(** ** Job analysis *)

Definition requirementsKeywords : list string := [
  (* Technical Skills *)
  "python"; "r"; "sql"; "java"; "javascript"; "typescript"; "c++"; "c#"; "php"; "ruby";
  "html"; "css"; "react"; "angular"; "vue.js"; "node.js"; "express"; "django"; "flask";
  (* Data Skills *)
  "data analysis"; "data science"; "machine learning"; "deep learning"; "nlp";
  "computer vision"; "statistics"; "statistical analysis"; "hypothesis testing";
  "a/b testing"; "data mining"; "data visualization"; "data modeling"; "etl";
  (* Data Tools *)
  "tableau"; "power bi"; "excel"; "google sheets"; "looker"; "qlik"; "d3.js";
  "spss"; "sas"; "matlab"; "pandas"; "numpy"; "scipy"; "scikit-learn"; "tensorflow";
  (* Cloud & DevOps *)
  "aws"; "azure"; "google cloud"; "docker"; "kubernetes"; "jenkins"; "ci/cd";
  "git"; "github"; "gitlab"; "bitbucket";
  (* Databases *)
  "mysql"; "postgresql"; "mongodb"; "oracle"; "sql server"; "sqlite"; "redis";
  (* Soft Skills *)
  "communication"; "teamwork"; "leadership"; "problem solving"; "critical thinking";
  "time management"; "project management"; "agile"; "scrum"; "kanban"; "jira"
].

(** [/<trigger>(.*?)(?:\.|$)/i] *)
Definition triggerPattern (trigger : string) : regex :=
  seqs [lit trigger; Group 1 (lazyStar Dot); Alt (Char ".") InputEnd].

Definition responsibilityPatterns : list regex := [
  triggerPattern "responsibilities include";
  triggerPattern "you will";
  triggerPattern "duties include";
  triggerPattern "responsibilities:";
  triggerPattern "what you'll do:"
].

Definition companyPatterns : list regex := [
  triggerPattern "about us:";
  triggerPattern "about the company:";
  triggerPattern "our company:";
  triggerPattern "we are";
  triggerPattern "company overview:"
].

Definition actionVerbs : list string :=
  ["analyze"; "develop"; "create"; "design"; "implement"; "manage"; "build";
   "collaborate"; "communicate"; "report"].

(** The fragments one trigger pattern contributes: its first capture split
    on [,] and [;], each piece trimmed, pieces longer than 10 characters
    kept. *)
Definition fragmentsOf (jobDescription : string) (pattern : regex) : list string :=
  match truthyGroup 1 (exec true pattern jobDescription) with
  | Some g =>
      let responsibilities := map trim (split false (oneOf ",;") g) in
      filter (fun r => Nat.ltb 10 (String.length r)) responsibilities
  | None => []
  end.

(** One turn of the trigger loop: [keyResponsibilities.push(...)]. *)
Definition responsibilityStep (jobDescription : string) (keyResponsibilities : list string)
  (pattern : regex) : list string :=
  (keyResponsibilities ++ fragmentsOf jobDescription pattern)%list.

(** The action-verb loop over the sentences; it stops once three are kept. *)
Fixpoint sentenceLoop (sentences : list string) (keyResponsibilities : list string)
  : list string :=
  match sentences with
  | [] => keyResponsibilities
  | sentence :: rest =>
      let kept :=
        if existsb (fun verb => includes (toLowerCase sentence) verb) actionVerbs
        then (keyResponsibilities ++ [trim sentence])%list
        else keyResponsibilities in
      if Nat.leb 3 (List.length kept) then kept else sentenceLoop rest kept
  end.

Definition extractResponsibilities (jobDescription : string) : list string :=
  let keyResponsibilities :=
    fold_left (responsibilityStep jobDescription) responsibilityPatterns [] in
  let keyResponsibilities :=
    match keyResponsibilities with
    | [] => sentenceLoop (split false (plus (oneOf ".!?")) jobDescription) keyResponsibilities
    | _ => keyResponsibilities
    end in
  slice0 3 keyResponsibilities.

(** The company loop: the first pattern whose capture is truthy wins. *)
Fixpoint companyLoop (patterns : list regex) (jobDescription : string)
  (companyInsights : string) : string :=
  match patterns with
  | [] => companyInsights
  | pattern :: rest =>
      match truthyGroup 1 (exec true pattern jobDescription) with
      | Some g => trim g
      | None => companyLoop rest jobDescription companyInsights
      end
  end.

Definition analyzeJob (jobDescription : string) (resumeInfo : ResumeInfo) : JobAnalysis :=
  let jobDescLower := toLowerCase jobDescription in
  let requirements := filter (fun req => includes jobDescLower req) requirementsKeywords in
  let matchedSkills :=
    filter (fun skill =>
              existsb (fun req => String.eqb (toLowerCase req) (toLowerCase skill)) requirements)
           (skills resumeInfo) in
  let matchedSkills :=
    match matchedSkills with
    | [] => (matchedSkills ++ slice0 3 (skills resumeInfo))%list
    | _ => matchedSkills
    end in
  let keyResponsibilities := extractResponsibilities jobDescription in
  let companyInsights := companyLoop companyPatterns jobDescription EmptyString in
  let companyInsights :=
    if isEmpty companyInsights then
      interp undefinedText (nth_error (splitChar " " jobDescription) 0)
        ++ "'s commitment to excellence and innovation in the industry"
    else companyInsights in
  {| requirements := requirements; matchedSkills := matchedSkills;
     keyResponsibilities := keyResponsibilities; companyInsights := companyInsights |}.

(** ** Letter templates *)

(** What the templates read from [new Date()], in local time; [getMonth]
    counts from 0. *)
Record Date : Type := {
  getFullYear : N;
  getMonth : N;
  getDate : N;
  getHours : N;
  getMinutes : N;
  getSeconds : N;
  getMilliseconds : N
}.

(** [`${today.getMonth() + 1}/${today.getDate()}/${today.getFullYear()}`] *)
Definition formatDate (today : Date) : string :=
  showN (getMonth today + 1) ++ "/" ++ showN (getDate today) ++ "/" ++ showN (getFullYear today).

(** The test every template makes on the instructions: truthy, not "none"
    once in lower case, and not blank once trimmed. *)
Definition hasSpecialInstructions (specialInstructions : option string) : bool :=
  match specialInstructions with
  | None => false
  | Some si =>
      truthy si && negb (String.eqb (toLowerCase si) "none") && negb (String.eqb (trim si) EmptyString)
  end.

(** A field is present: truthy and not blank once trimmed. *)
Definition present (field : string) : bool :=
  truthy field && negb (String.eqb (trim field) EmptyString).

Section Templates.

(** The text a template literal prints for [undefined]. *)
Variable undef : string.

Definition generateProfessionalTemplate (today : Date) (resumeInfo : ResumeInfo)
  (jobInfo : JobInfo) (jobAnalysis : JobAnalysis) (specialInstructions : option string)
  : string :=
  let '{| name := name; email := email; phone := phone; address := address;
          skills := skills; experience := experience; education := education;
          workHistory := workHistory; bio := bio |} := resumeInfo in
  let companyName := companyName jobInfo in
  let jobTitle := jobTitle jobInfo in
  let matchedSkills := matchedSkills jobAnalysis in
  let keyResponsibilities := keyResponsibilities jobAnalysis in
  let companyInsights := companyInsights jobAnalysis in
  let formattedDate := formatDate today in
  let skillsHighlight :=
    match matchedSkills with
    | _ :: _ => join ", " matchedSkills
    | [] => join ", " (slice0 3 skills)
    end in
  let relevantExperience :=
    if present bio then bio
    else match workHistory with
         | first :: _ => "Throughout my career, I have " ++ toLowerCase first
         | [] => "Throughout my career, I have developed strong analytical skills and the ability to translate complex data into actionable insights"
         end in
  let educationText :=
    if present education
    then nl ++ nl ++ "With my " ++ education ++ ", I have developed a strong foundation in theoretical concepts and practical applications that are directly relevant to this role."
    else EmptyString in
  let specialInstructionsText :=
    match specialInstructions with
    | Some si => if hasSpecialInstructions specialInstructions then nl ++ nl ++ si else EmptyString
    | None => EmptyString
    end in
  let responsibilitiesText :=
    match keyResponsibilities with
    | _ :: _ => nl ++ nl ++ "In this role, I understand that you are looking for someone who can " ++ join ", and " keyResponsibilities ++ ". My background has prepared me well for these responsibilities, and I am eager to apply my skills to contribute to your team's success."
    | [] => EmptyString
    end in
  trim (nl ++
        name ++ nl ++
        address ++ nl ++
        email ++ nl ++
        phone ++ nl ++
        formattedDate ++ nl ++
        nl ++
        "Hiring Manager" ++ nl ++
        companyName ++ nl ++
        "[Company Address]" ++ nl ++
        nl ++
        "Dear Hiring Manager," ++ nl ++
        nl ++
        "I am excited to apply for the " ++ jobTitle ++ " position at " ++ companyName ++ ". With my background in " ++ skillsHighlight ++ " and " ++ experience ++ ", I am confident in my ability to make valuable contributions to your team." ++ educationText ++ nl ++
        nl ++
        relevantExperience ++ "." ++ responsibilitiesText ++ nl ++
        nl ++
        "I am particularly impressed by " ++ companyInsights ++ ". My experience with " ++ interp undef (nth_error skills 0) ++ " positions me uniquely to contribute to your projects, and I am eager to bring my expertise to your esteemed organization." ++ specialInstructionsText ++ nl ++
        nl ++
        "I would welcome the opportunity to discuss how my qualifications align with your needs for the " ++ jobTitle ++ " position. I am available at your convenience and can be reached at " ++ phone ++ " or " ++ email ++ "." ++ nl ++
        nl ++
        "Thank you for considering my application. I look forward to the possibility of contributing to " ++ companyName ++ "'s continued success." ++ nl ++
        nl ++
        "Sincerely," ++ nl ++
        nl ++
        name ++ nl ++
        "  ").

Definition generateModernTemplate (today : Date) (resumeInfo : ResumeInfo)
  (jobInfo : JobInfo) (jobAnalysis : JobAnalysis) (specialInstructions : option string)
  : string :=
  let '{| name := name; email := email; phone := phone; address := _;
          skills := skills; experience := experience; education := education;
          workHistory := workHistory; bio := bio |} := resumeInfo in
  let companyName := companyName jobInfo in
  let jobTitle := jobTitle jobInfo in
  let matchedSkills := matchedSkills jobAnalysis in
  let keyResponsibilities := keyResponsibilities jobAnalysis in
  let companyInsights := companyInsights jobAnalysis in
  let formattedDate := formatDate today in
  let skillsHighlight :=
    match matchedSkills with
    | _ :: _ => join ", " matchedSkills
    | [] => join ", " (slice0 3 skills)
    end in
  let personalStatement :=
    if present bio then bio
    else match workHistory with
         | first :: _ => first
         | [] => "I am a data professional passionate about turning complex information into actionable insights"
         end in
  let educationText :=
    if present education
    then "• My " ++ education ++ " has equipped me with the knowledge and skills necessary to excel in this role."
    else EmptyString in
  let specialInstructionsText :=
    match specialInstructions with
    | Some si => if hasSpecialInstructions specialInstructions then nl ++ si else EmptyString
    | None => EmptyString
    end in
  let skillBullets := join nl (map (fun skill => "• " ++ skill) (slice0 3 skills)) in
  trim (nl ++
        name ++ nl ++
        email ++ " | " ++ phone ++ " | LinkedIn: linkedin.com/in/" ++ replaceAll false (plus space) "-" (toLowerCase name) ++ nl ++
        nl ++
        formattedDate ++ nl ++
        nl ++
        "Dear " ++ companyName ++ " Hiring Team," ++ nl ++
        nl ++
        "RE: Application for " ++ jobTitle ++ " Position" ++ nl ++
        nl ++
        "I'm excited to apply for the " ++ jobTitle ++ " role at " ++ companyName ++ ". Having researched your company's innovative work in the industry, I'm eager to bring my expertise in " ++ skillsHighlight ++ " to your team." ++ nl ++
        nl ++
        "KEY QUALIFICATIONS:" ++ nl ++
        "• " ++ personalStatement ++ nl ++
        educationText ++ nl ++
        "• " ++ experience ++ " with a focus on " ++ interp undef (nth_error skills 0) ++ " and " ++ orDefault (nth_error skills 1) "data analysis" ++ nl ++
        nl ++
        "RELEVANT SKILLS:" ++ nl ++
        skillBullets ++ specialInstructionsText ++ nl ++
        nl ++
        "What draws me to " ++ companyName ++ " is " ++ companyInsights ++ ". I believe my experience aligns perfectly with your needs for this role, and I'm particularly interested in contributing to " ++ orDefault (nth_error keyResponsibilities 0) "your data-driven initiatives" ++ "." ++ nl ++
        nl ++
        "I welcome the opportunity to discuss how my background matches your requirements. Please feel free to contact me at " ++ email ++ " or " ++ phone ++ " to arrange a conversation." ++ nl ++
        nl ++
        "Thank you for your consideration." ++ nl ++
        nl ++
        "Best regards," ++ nl ++
        nl ++
        name ++ nl ++
        "  ").

Definition generateCreativeTemplate (today : Date) (resumeInfo : ResumeInfo)
  (jobInfo : JobInfo) (jobAnalysis : JobAnalysis) (specialInstructions : option string)
  : string :=
  let '{| name := name; email := email; phone := phone; address := _;
          skills := skills; experience := experience; education := education;
          workHistory := workHistory; bio := _ |} := resumeInfo in
  let companyName := companyName jobInfo in
  let jobTitle := jobTitle jobInfo in
  let matchedSkills := matchedSkills jobAnalysis in
  let keyResponsibilities := keyResponsibilities jobAnalysis in
  let formattedDate := formatDate today in
  let uniqueSkills0 :=
    "Ability to transform complex data into actionable insights using " ++ interp undef (nth_error skills 0) in
  let uniqueSkills1 :=
    "Experience with " ++ orDefault (orValue (nth_error matchedSkills 0) (nth_error skills 1)) "advanced analytics" ++ " to drive business decisions" in
  let uniqueSkills2 :=
    "Strong problem-solving skills with a focus on " ++ orDefault (orValue (nth_error matchedSkills 1) (nth_error skills 2)) "data-driven solutions" in
  let specialInstructionsText :=
    match specialInstructions with
    | Some si =>
        if hasSpecialInstructions specialInstructions then nl ++ "SPECIAL NOTE: " ++ si ++ nl
        else EmptyString
    | None => EmptyString
    end in
  let educationText :=
    if present education
    then nl ++ "My " ++ education ++ " has given me a solid foundation in " ++ interp undef (orValue (nth_error matchedSkills 0) (nth_error skills 0)) ++ "."
    else EmptyString in
  let workHistoryText :=
    match workHistory with
    | first :: _ => nl ++ "My experience includes: " ++ first
    | [] => EmptyString
    end in
  trim (nl ++
        toUpperCase name ++ nl ++
        email ++ " • " ++ phone ++ " • Portfolio: " ++ replaceAll false (plus space) EmptyString (toLowerCase name) ++ ".com" ++ nl ++
        nl ++
        formattedDate ++ nl ++
        nl ++
        "Hello " ++ companyName ++ " Team!" ++ nl ++
        nl ++
        "When I discovered the " ++ jobTitle ++ " opportunity at " ++ companyName ++ ", I knew it was the perfect chance to combine my passion for " ++ interp undef (orValue (nth_error matchedSkills 0) (nth_error skills 0)) ++ " with my skills in " ++ join " and " (slice0 2 skills) ++ "." ++ educationText ++ workHistoryText ++ nl ++
        nl ++
        "WHY I'M EXCITED ABOUT " ++ toUpperCase companyName ++ ":" ++ nl ++
        "I've been following your work and am impressed by your approach to innovation and excellence. The prospect of contributing to such forward-thinking projects is thrilling." ++ nl ++
        nl ++
        "WHAT I BRING TO THE TABLE:" ++ nl ++
        "• " ++ uniqueSkills0 ++ nl ++
        "• " ++ uniqueSkills1 ++ nl ++
        "• " ++ uniqueSkills2 ++ nl ++
        "• " ++ experience ++ " ready to make an immediate impact" ++ specialInstructionsText ++ nl ++
        nl ++
        "I'd love to show you how my creative approach and technical abilities can help " ++ companyName ++ " continue to excel in " ++ orDefault (nth_error keyResponsibilities 0) "data analysis and insights" ++ ". Let's schedule a time to talk about how we might work together!" ++ nl ++
        nl ++
        "Creatively yours," ++ nl ++
        nl ++
        name ++ nl ++
        "  ").

Definition generateTraditionalTemplate (today : Date) (resumeInfo : ResumeInfo)
  (jobInfo : JobInfo) (jobAnalysis : JobAnalysis) (specialInstructions : option string)
  : string :=
  let '{| name := name; email := email; phone := phone; address := address;
          skills := skills; experience := experience; education := education;
          workHistory := workHistory; bio := _ |} := resumeInfo in
  let companyName := companyName jobInfo in
  let jobTitle := jobTitle jobInfo in
  let matchedSkills := matchedSkills jobAnalysis in
  let formattedDate := formatDate today in
  let relevantSkills :=
    match matchedSkills with
    | _ :: _ => matchedSkills
    | [] => slice0 3 skills
    end in
  let specialInstructionsText :=
    match specialInstructions with
    | Some si =>
        if hasSpecialInstructions specialInstructions
        then nl ++ "I would like to note that " ++ si ++ nl
        else EmptyString
    | None => EmptyString
    end in
  let educationText :=
    if present education
    then nl ++ nl ++ "My educational background includes " ++ education ++ ", which has provided me with a strong foundation in " ++ interp undef (nth_error relevantSkills 0) ++ "."
    else EmptyString in
  let workHistoryText :=
    match workHistory with
    | first :: _ => nl ++ nl ++ "My professional experience includes " ++ first ++ "."
    | [] => EmptyString
    end in
  trim (nl ++
        name ++ nl ++
        address ++ nl ++
        email ++ nl ++
        phone ++ nl ++
        nl ++
        formattedDate ++ nl ++
        nl ++
        "Hiring Manager" ++ nl ++
        companyName ++ nl ++
        "[Company Address]" ++ nl ++
        nl ++
        "Dear Hiring Manager:" ++ nl ++
        nl ++
        "Please accept my application for the position of " ++ jobTitle ++ " at " ++ companyName ++ ", as advertised. With " ++ experience ++ ", I believe my qualifications make me an excellent candidate for this role." ++ nl ++
        nl ++
        "Throughout my professional career, I have developed strong skills in " ++ join ", " relevantSkills ++ ", and " ++ interp undef (nth_error skills 0) ++ ". In my current position, I have consistently demonstrated the ability to deliver results and contribute to team success." ++ workHistoryText ++ educationText ++ specialInstructionsText ++ nl ++
        nl ++
        "I am particularly interested in joining " ++ companyName ++ " because of your reputation for excellence in the industry. I am confident that my experience in " ++ join " and " (slice0 2 skills) ++ " would allow me to make a valuable contribution to your team." ++ nl ++
        nl ++
        "Thank you for your time and consideration. I look forward to the opportunity to further discuss my qualifications in an interview. I can be reached at " ++ phone ++ " or " ++ email ++ "." ++ nl ++
        nl ++
        "Sincerely," ++ nl ++
        nl ++
        name ++ nl ++
        "  ").

(** The [switch] on the style; an absent style is the parameter default
    ["professional"]. *)
Definition generateCoverLetterWith (today : Date) (resumeInfo : ResumeInfo)
  (jobInfo : JobInfo) (jobAnalysis : JobAnalysis) (specialInstructions : option string)
  (templateStyle : option string) : string :=
  let templateStyle := match templateStyle with Some s => s | None => "professional" end in
  if String.eqb templateStyle "modern" then
    generateModernTemplate today resumeInfo jobInfo jobAnalysis specialInstructions
  else if String.eqb templateStyle "creative" then
    generateCreativeTemplate today resumeInfo jobInfo jobAnalysis specialInstructions
  else if String.eqb templateStyle "traditional" then
    generateTraditionalTemplate today resumeInfo jobInfo jobAnalysis specialInstructions
  else
    generateProfessionalTemplate today resumeInfo jobInfo jobAnalysis specialInstructions.

End Templates.

(** The letter as the JavaScript runtime prints it. *)
Definition generateCoverLetter : Date -> ResumeInfo -> JobInfo -> JobAnalysis ->
  option string -> option string -> string :=
  generateCoverLetterWith undefinedText.

(** ** Effects: the clock and the console *)

(** What the entry points can observe and change outside their arguments:
    the wall clock that [new Date()] reads, and the lines written with
    [console.log]. *)
Record World : Type := {
  clock : Date;
  console : list string
}.

Definition IO (A : Type) : Type := World -> A * World.

Definition ret {A : Type} (a : A) : IO A := fun w => (a, w).

Definition bind {A B : Type} (m : IO A) (k : A -> IO B) : IO B :=
  fun w => let (a, w') := m w in k a w'.

Notation "x <- m ;; k" := (bind m (fun x => k))
  (at level 61, m at next level, right associativity).
Notation "m ;;; k" := (bind m (fun _ => k))
  (at level 61, right associativity).

Definition consoleLog (line : string) : IO unit :=
  fun w => (tt, {| clock := clock w; console := (console w ++ [line])%list |}).

Definition newDate : IO Date := fun w => (clock w, w).

(** The three exported functions with their effects: each logs a line, and
    the composer reads the clock for the date stamp. *)
Definition extractResumeInfoIO (resumeText : string) (userProfile : option UserProfile)
  : IO ResumeInfo :=
  consoleLog "Extracting resume info with enhanced pattern matching" ;;;
  let info := extractResumeInfo resumeText userProfile in
  consoleLog "Extracted user info:" ;;;
  ret info.

Definition analyzeJobIO (jobDescription : string) (resumeInfo : ResumeInfo) : IO JobAnalysis :=
  consoleLog "Analyzing job description with enhanced pattern matching" ;;;
  ret (analyzeJob jobDescription resumeInfo).

Definition generateCoverLetterIO (resumeInfo : ResumeInfo) (jobInfo : JobInfo)
  (jobAnalysis : JobAnalysis) (specialInstructions : option string)
  (templateStyle : option string) : IO string :=
  consoleLog "Generating cover letter with enhanced template system" ;;;
  today <- newDate ;;
  ret (generateCoverLetter today resumeInfo jobInfo jobAnalysis specialInstructions templateStyle).

(** ** Readings of the specification, for comparison with the code *)

(** [l] lists its entries in the order of the skill vocabulary: it is a
    subsequence of [skillsKeywords]. *)
Fixpoint subsequence (l v : list string) : bool :=
  match l, v with
  | [], _ => true
  | _ :: _, [] => false
  | a :: l', b :: v' => if String.eqb a b then subsequence l' v' else subsequence l v'
  end.

Definition inVocabularyOrder (l : list string) : bool := subsequence l skillsKeywords.

(** A sentence names an action verb. *)
Definition hasActionVerb (sentence : string) : bool :=
  existsb (fun verb => includes (toLowerCase sentence) verb) actionVerbs.

(** The sentence path in the specification's words: the first three
    sentences that name an action verb. *)
Definition verbSentences (jobDescription : string) : list string :=
  firstn 3 (map trim (filter hasActionVerb (split false (plus (oneOf ".!?")) jobDescription))).

(** The pieces kept from a capture: split on [,] and [;], trimmed, longer
    than 10 characters. *)
Definition keptFragments (capture : string) : list string :=
  filter (fun r => Nat.ltb 10 (String.length r)) (map trim (split false (oneOf ",;") capture)).

(** "First match wins": the first trigger pattern, in order, that matches
    the job description, with its first capture. *)
Fixpoint firstTrigger (patterns : list regex) (jobDescription : string) : option MatchResult :=
  match patterns with
  | [] => None
  | pattern :: rest =>
      match exec true pattern jobDescription with
      | Some m => Some m
      | None => firstTrigger rest jobDescription
      end
  end.

(** The responsibilities as the specification words them: the winning
    pattern alone contributes; the sentence path is taken when no trigger
    matches; at most three entries. *)
Definition firstMatchResponsibilities (jobDescription : string) : list string :=
  match firstTrigger responsibilityPatterns jobDescription with
  | Some m =>
      firstn 3 (match group 1 m with Some g => keptFragments g | None => [] end)
  | None => firstn 3 (verbSentences jobDescription)
  end.




(** The entry [s] occurs in the text when case is ignored. *)
Definition occursIgnoringCase (s text : string) : Prop :=
  exists pre mid post, text = pre ++ mid ++ post /\ toLowerCase mid = toLowerCase s.

(** The caller supplies no override: the profile is absent, or each of its
    five fields is unset or empty. *)
Definition noOverride (userProfile : option UserProfile) : Prop :=
  profileField profile_name userProfile = EmptyString /\
  profileField profile_email userProfile = EmptyString /\
  profileField profile_phone userProfile = EmptyString /\
  profileField profile_address userProfile = EmptyString /\
  profileField profile_bio userProfile = EmptyString.

(** ** Sample data: the end-to-end scenario of the specification *)

Definition sampleDate : Date :=
  {| getFullYear := 2024; getMonth := 0; getDate := 15; getHours := 9;
     getMinutes := 30; getSeconds := 0; getMilliseconds := 0 |}.

Definition sampleResume : string :=
  "Jane Roe" ++ nl ++ "jane.roe@example.com" ++ nl ++ "(555) 111-2222" ++ nl ++ nl ++
  "SKILLS" ++ nl ++ "Python, SQL, Data Visualization" ++ nl ++ nl ++
  "EXPERIENCE" ++ nl ++ "Data Analyst at Acme Corp" ++ nl ++ "Built dashboards" ++ nl ++ nl ++
  "EDUCATION" ++ nl ++ "BS Computer Science, State University".

Definition sampleJobDescription : string :=
  "Data Analyst" ++ nl ++ "Acme Labs" ++ nl ++
  "Responsibilities: analyze data, build dashboards, present findings." ++ nl ++
  "Requirements: Python, SQL.".

Definition sampleJob : JobInfo :=
  {| companyName := "Acme Labs"; jobTitle := "Data Analyst";
     jobDescription := sampleJobDescription |}.

Definition sampleInfo : ResumeInfo := extractResumeInfo sampleResume None.

Definition sampleAnalysis : JobAnalysis := analyzeJob sampleJobDescription sampleInfo.

(** The zero-data path: the empty resume and the empty job description. *)
Definition emptyInfo : ResumeInfo := extractResumeInfo EmptyString None.

Definition emptyAnalysis : JobAnalysis := analyzeJob EmptyString emptyInfo.

(** A record with no skill at all: the extractor of this file never
    returns one, the extractor of the backend does when it finds no skill. *)
Definition noSkillsInfo : ResumeInfo :=
  {| name := "Jane Roe"; email := "jane.roe@example.com"; phone := "(555) 111-2222";
     address := EmptyString; skills := []; experience := "experienced professional";
     education := EmptyString; workHistory := []; bio := EmptyString |}.

(** Two clock readings fall on the same calendar day. *)
Definition sameDay (d1 d2 : Date) : Prop :=
  getFullYear d1 = getFullYear d2 /\ getMonth d1 = getMonth d2 /\ getDate d1 = getDate d2.

(** Two worlds that differ in the time of day and in what the console
    already holds. *)
Definition morningWorld : World := {| clock := sampleDate; console := [] |}.

Definition eveningWorld : World :=
  {| clock := {| getFullYear := 2024; getMonth := 0; getDate := 15; getHours := 21;
                 getMinutes := 5; getSeconds := 42; getMilliseconds := 7 |};
     console := ["earlier output"] |}.

(** A job description in which two trigger phrases occur. *)
Definition twoTriggers : string :=
  "Responsibilities include writing code daily. You will manage the whole team.".

(** ** Text that survives [trim] *)

(** The string holds a character that is not white space. *)
Fixpoint hasInk (s : string) : bool :=
  match s with
  | EmptyString => false
  | String c s' => negb (isSpace c) || hasInk s'
  end.

(** [x] sits in [s] with visible text after it. *)
Definition InkAfter (x s : string) : Prop :=
  exists a b, s = a ++ x ++ b /\ hasInk b = true.

(** [x] sits in [s] between two visible texts, out of reach of [trim]. *)
Definition Spliced (x s : string) : Prop :=
  exists a b, s = a ++ x ++ b /\ hasInk a = true /\ hasInk b = true.




(** ** Text found in the input *)

(** [v] occurs in [s] as a run of consecutive characters. *)
Definition occursIn (v s : string) : Prop := exists a b, s = a ++ v ++ b.

(** A matcher position inside the input [s]: what is left to read is the
    end of [s], and every capture recorded so far is text of [s]. *)
Definition insideInput (s : string) (st : mstate) : Prop :=
  (exists pre, s = pre ++ st_rest st) /\
  forall n v, In (n, v) (st_caps st) -> occursIn v s.

(** A matcher that keeps its positions inside the input. *)
Definition staysInside (s : string) (body : matcher) : Prop :=
  forall (k : cont) (st z : mstate),
    insideInput s st -> body k st = Some z ->
    exists st', insideInput s st' /\ k st' = Some z.

(** ** Captures made of digits *)






(** ** Text at the end of a letter *)

(** [x] sits in [s] with only white space after it. *)
Definition BlankAfter (x s : string) : Prop :=
  exists a w, s = a ++ x ++ w /\ hasInk w = false.

(** [x] closes [s]: visible text comes before it, only white space after. *)
Definition SignedOff (x s : string) : Prop :=
  exists a w, s = a ++ x ++ w /\ hasInk a = true /\ hasInk w = false.

(** ** The request handler and the backend client *)

(** What the handler of [POST /api/cover-letter/generate] and the client of
    the ML backend do, with everything they reach outside their own code
    given explicitly: the session, the request body, the database and the
    backend answer as the [Services] say, and each of these calls may throw.
    Request bodies and backend answers are objects whose fields, when
    present, have the declared types.  [console.error] and [console.warn]
    write to the error stream, which [World] does not hold; of a
    [console.log] with an object argument the label is kept, as in
    [extractResumeInfoIO]. *)

(** A thrown value: an [Error] with its message, or any other value with the
    text that [String(error)] gives. *)
Inductive Thrown : Type :=
| ErrorObject (message : string)
| OtherValue (text : string).

(** [error instanceof Error ? error.message : String(error)] *)
Definition errorText (error : Thrown) : string :=
  match error with
  | ErrorObject message => message
  | OtherValue text => text
  end.

(** [error instanceof Error ? error.message : 'Unknown error occurred'] *)
Definition errorMessage (error : Thrown) : string :=
  match error with
  | ErrorObject message => message
  | OtherValue _ => "Unknown error occurred"
  end.

Inductive Outcome (A : Type) : Type :=
| Returns (a : A)
| Throws (error : Thrown).

Arguments Returns {A} a.
Arguments Throws {A} error.

(** [session.user]: the id and the profile fields. *)
Record Session : Type := {
  session_user_id : string;
  session_user : UserProfile
}.

(** The fields read from the parsed request body. *)
Record RequestData : Type := {
  request_companyName : option string;
  request_jobTitle : option string;
  request_jobDescription : option string;
  request_specialInstructions : option string;
  request_resumeUrl : option string;
  request_templateStyle : option string
}.

(** The fields read from a document of the [users] collection. *)
Record UserDocument : Type := {
  user_resumeUrl : option string;
  user_resumeText : option string;
  user_resumeFilename : option string
}.

(** A document handed to [insertOne] on the [coverLetters] collection. *)
Record CoverLetterDocument : Type := {
  letter_userId : string;
  letter_companyName : string;
  letter_jobTitle : string;
  letter_jobDescription : string;
  letter_specialInstructions : option string;
  letter_templateStyle : string;
  letter_content : string;
  letter_createdAt : Date;
  letter_updatedAt : Date;
  letter_generatedWithML : bool
}.

(** The fields read from a JSON answer of the backend. *)
Record BackendData : Type := {
  data_status : option string;
  data_message : option string;
  data_coverLetter : option string;
  data_resumeInfo : option ResumeInfo;
  data_jobAnalysis : option JobAnalysis
}.

(** A [fetch] response: [response.ok] and what [response.json()] gives. *)
Record FetchResponse : Type := {
  fetched_ok : bool;
  fetched_json : Outcome BackendData
}.

(** The object that [JSON.stringify] sends as the body of a request. *)
Inductive Payload : Type :=
| GeneratePayload (resumeText : string) (jobInfo : JobInfo)
                  (specialInstructions : option string) (templateStyle : string)
| ExtractPayload (resumeText : string)
| AnalyzePayload (jobDescription : string) (resumeInfo : ResumeInfo).

(** The outside of the handler.  [findOne] takes the session's user id (it
    throws where [new ObjectId(id)] does); [insertOne] answers with the text
    of the inserted id; [fetch] takes the URL, the method and the body. *)
Record Services : Type := {
  getServerSession : Outcome (option Session);
  request_json : Outcome RequestData;
  connectToDatabase : Outcome unit;
  findOne : string -> Outcome (option UserDocument);
  insertOne : CoverLetterDocument -> Outcome string;
  fetch : string -> string -> option Payload -> Outcome FetchResponse
}.

(** The JSON body and the status given to [NextResponse.json]. *)
Record Response : Type := {
  response_status : N;
  response_message : string;
  response_error : option string;
  response_coverLetter : option string;
  response_id : option string;
  response_usedMLBackend : option bool
}.

(** What a request changes: the world of the pipeline, and the documents
    handed to [insertOne], in the order of the calls. *)
Record Server : Type := {
  world : World;
  inserted : list CoverLetterDocument
}.

(** An asynchronous computation: it changes the server and returns or
    throws. *)
Definition Async (A : Type) : Type := Server -> Outcome A * Server.

Definition resolve {A : Type} (a : A) : Async A := fun s => (Returns a, s).

Definition await {A : Type} (o : Outcome A) : Async A := fun s => (o, s).

Definition andThen {A B : Type} (m : Async A) (k : A -> Async B) : Async B :=
  fun s =>
    match m s with
    | (Returns a, s') => k a s'
    | (Throws error, s') => (Throws error, s')
    end.

(** [try { m } catch (error) { handler }] *)
Definition tryCatch {A : Type} (m : Async A) (handler : Thrown -> Async A) : Async A :=
  fun s =>
    match m s with
    | (Returns a, s') => (Returns a, s')
    | (Throws error, s') => handler error s'
    end.

(** The outcome of [m], for a [try] that the code goes on after. *)
Definition attempt {A : Type} (m : Async A) : Async (Outcome A) :=
  fun s => let (o, s') := m s in (Returns o, s').

(** A step of the pipeline, on the world of the server. *)
Definition io {A : Type} (m : IO A) : Async A :=
  fun s => let (a, w) := m (world s) in (Returns a, {| world := w; inserted := inserted s |}).

(** [m] hands nothing to [insertOne], and what it returns satisfies [Q]. *)
Definition keeps {A : Type} (Q : A -> Prop) (m : Async A) : Prop :=
  forall s, inserted (snd (m s)) = inserted s /\
            match fst (m s) with Returns a => Q a | Throws _ => True end.

(** [m] moreover never throws. *)
Definition settles {A : Type} (Q : A -> Prop) (m : Async A) : Prop :=
  forall s, exists a s', m s = (Returns a, s') /\ inserted s' = inserted s /\ Q a.

(** [m] returns and leaves the server as it is. *)
Definition answers {A : Type} (Q : A -> Prop) (m : Async A) : Prop :=
  forall s, exists a, m s = (Returns a, s) /\ Q a.

Declare Scope async_scope.
Delimit Scope async_scope with async.
Notation "x <- m ;; k" := (andThen m (fun x => k))
  (at level 61, m at next level, right associativity) : async_scope.
Notation "m ;;; k" := (andThen m (fun _ => k))
  (at level 61, right associativity) : async_scope.

(** What the client returns: [{ coverLetter, error? }], [{ resumeInfo,
    error? }] and [{ jobAnalysis, error? }]. *)
Record GenerateResult : Type := {
  result_coverLetter : option string;
  generate_error : option string
}.

Record ExtractResult : Type := {
  result_resumeInfo : option ResumeInfo;
  extract_error : option string
}.

Record AnalyzeResult : Type := {
  result_jobAnalysis : option JobAnalysis;
  analyze_error : option string
}.

(** The text of a request field that was checked to be set. *)
Definition textOf (v : option string) : string :=
  match v with Some s => s | None => EmptyString end.

(** [status] and [{ message }]. *)
Definition reply (status : N) (message : string) : Response :=
  {| response_status := status; response_message := message; response_error := None;
     response_coverLetter := None; response_id := None; response_usedMLBackend := None |}.

(** [status] and [{ message, error }]. *)
Definition replyError (status : N) (message : string) (error : Thrown) : Response :=
  {| response_status := status; response_message := message;
     response_error := Some (errorText error);
     response_coverLetter := None; response_id := None; response_usedMLBackend := None |}.

Section Handler.

(** The environment variables and the services of one request. *)
Variables NEXT_PUBLIC_API_URL NEXT_PUBLIC_USE_ML_BACKEND : option string.
Variable services : Services.

(** [process.env.NEXT_PUBLIC_API_URL || 'http://localhost:5000'] *)
Definition API_URL : string := orDefault NEXT_PUBLIC_API_URL "http://localhost:5000".

(** [process.env.NEXT_PUBLIC_USE_ML_BACKEND === 'true'] *)
Definition USE_ML_BACKEND : bool :=
  match NEXT_PUBLIC_USE_ML_BACKEND with
  | Some value => String.eqb value "true"
  | None => false
  end.

Definition checkApiHealth : Async bool :=
  if negb USE_ML_BACKEND then resolve false
  else
    tryCatch
      (response <- await (fetch services (API_URL ++ "/api/health") "GET" None) ;;
       data <- await (fetched_json response) ;;
       resolve match data_status data with
               | Some status => String.eqb status "ok"
               | None => false
               end)%async
      (fun error => resolve false).

Definition generateCoverLetterML (resumeText : string) (jobInfo : JobInfo)
  (specialInstructions : option string) (templateStyle : string) : Async GenerateResult :=
  if negb USE_ML_BACKEND then
    resolve {| generate_error := Some "ML backend is not enabled";
               result_coverLetter := Some EmptyString |}
  else
    tryCatch
      (response <- await (fetch services (API_URL ++ "/api/generate-cover-letter") "POST"
                            (Some (GeneratePayload resumeText jobInfo specialInstructions
                                                   templateStyle))) ;;
       if negb (fetched_ok response) then
         errorData <- await (fetched_json response) ;;
         resolve {| generate_error :=
                      Some (orDefault (data_message errorData) "Failed to generate cover letter");
                    result_coverLetter := Some EmptyString |}
       else
         data <- await (fetched_json response) ;;
         resolve {| result_coverLetter := data_coverLetter data; generate_error := None |})%async
      (fun error =>
         resolve {| generate_error := Some (errorMessage error);
                    result_coverLetter := Some EmptyString |}).

Definition extractResumeInfoML (resumeText : string) : Async ExtractResult :=
  if negb USE_ML_BACKEND then
    resolve {| extract_error := Some "ML backend is not enabled"; result_resumeInfo := None |}
  else
    tryCatch
      (response <- await (fetch services (API_URL ++ "/api/extract-resume-info") "POST"
                            (Some (ExtractPayload resumeText))) ;;
       if negb (fetched_ok response) then
         errorData <- await (fetched_json response) ;;
         resolve {| extract_error :=
                      Some (orDefault (data_message errorData)
                                      "Failed to extract resume information");
                    result_resumeInfo := None |}
       else
         data <- await (fetched_json response) ;;
         resolve {| result_resumeInfo := data_resumeInfo data; extract_error := None |})%async
      (fun error =>
         resolve {| extract_error := Some (errorMessage error); result_resumeInfo := None |}).

Definition analyzeJobML (jobDescription : string) (resumeInfo : ResumeInfo)
  : Async AnalyzeResult :=
  if negb USE_ML_BACKEND then
    resolve {| analyze_error := Some "ML backend is not enabled"; result_jobAnalysis := None |}
  else
    tryCatch
      (response <- await (fetch services (API_URL ++ "/api/analyze-job") "POST"
                            (Some (AnalyzePayload jobDescription resumeInfo))) ;;
       if negb (fetched_ok response) then
         errorData <- await (fetched_json response) ;;
         resolve {| analyze_error :=
                      Some (orDefault (data_message errorData)
                                      "Failed to analyze job description");
                    result_jobAnalysis := None |}
       else
         data <- await (fetched_json response) ;;
         resolve {| result_jobAnalysis := data_jobAnalysis data; analyze_error := None |})%async
      (fun error =>
         resolve {| analyze_error := Some (errorMessage error); result_jobAnalysis := None |}).

(** [db.collection("coverLetters").insertOne(document)]: the call is
    recorded, then it answers or throws. *)
Definition insertCoverLetter (document : CoverLetterDocument) : Async string :=
  fun s =>
    (insertOne services document,
     {| world := world s; inserted := (inserted s ++ [document])%list |}).

(** The ML attempt of the handler: the letter of the backend, or the empty
    text when the backend is not used or fails. *)
Definition generateWithBackend (isMLBackendAvailable : bool) (resumeText : string)
  (jobInfo : JobInfo) (specialInstructions templateStyle : option string)
  : Async (option string) :=
  if isMLBackendAvailable then
    (io (consoleLog "Using ML backend for cover letter generation") ;;;
     tryCatch
       (result <- generateCoverLetterML resumeText jobInfo specialInstructions
                    (orDefault templateStyle "professional") ;;
        if truthyValue (generate_error result) then
          io (consoleLog "Falling back to local generation") ;;;
          resolve (Some EmptyString)
        else resolve (result_coverLetter result))
       (fun error =>
          io (consoleLog "Falling back to local generation") ;;;
          resolve (Some EmptyString)))%async
  else resolve (Some EmptyString).

(** The local generation of the handler, with the backend's extraction and
    analysis where it is available and answers. *)
Definition generateLocally (isMLBackendAvailable : bool) (session : Session)
  (resumeText : string) (jobInfo : JobInfo) (specialInstructions templateStyle : option string)
  : Async string :=
  (io (consoleLog "Using local generation for cover letter") ;;;
   resumeInfo <-
     (if isMLBackendAvailable then
        extractResult <- extractResumeInfoML resumeText ;;
        match result_resumeInfo extractResult with
        | Some resumeInfo =>
            if negb (truthyValue (extract_error extractResult)) then resolve resumeInfo
            else io (extractResumeInfoIO resumeText (Some (session_user session)))
        | None => io (extractResumeInfoIO resumeText (Some (session_user session)))
        end
      else io (extractResumeInfoIO resumeText (Some (session_user session)))) ;;
   io (consoleLog "Extracted resume info:") ;;;
   jobAnalysis <-
     (if isMLBackendAvailable then
        analysisResult <- analyzeJobML (jobDescription jobInfo) resumeInfo ;;
        match result_jobAnalysis analysisResult with
        | Some jobAnalysis =>
            if negb (truthyValue (analyze_error analysisResult)) then resolve jobAnalysis
            else io (analyzeJobIO (jobDescription jobInfo) resumeInfo)
        | None => io (analyzeJobIO (jobDescription jobInfo) resumeInfo)
        end
      else io (analyzeJobIO (jobDescription jobInfo) resumeInfo)) ;;
   io (consoleLog "Job analysis:") ;;;
   io (generateCoverLetterIO resumeInfo jobInfo jobAnalysis specialInstructions
         (Some (orDefault templateStyle "professional"))))%async.

(** The handler after the session check, the parsing and the validation of
    the body, and the lookup of the user. *)
Definition generateAndStore (session : Session) (requestData : RequestData)
  (user : UserDocument) : Async Response :=
  let companyName := textOf (request_companyName requestData) in
  let jobTitle := textOf (request_jobTitle requestData) in
  let jobDescription := textOf (request_jobDescription requestData) in
  let resumeUrl := textOf (request_resumeUrl requestData) in
  let specialInstructions := request_specialInstructions requestData in
  let templateStyle := request_templateStyle requestData in
  let jobInfo := {| companyName := companyName; jobTitle := jobTitle;
                    jobDescription := jobDescription |} in
  let resumeText :=
    orDefault (user_resumeText user)
              ("Content of " ++ orDefault (user_resumeFilename user) "resume") in
  (io (consoleLog "Generating cover letter with the following data:") ;;;
   io (consoleLog ("- User ID: " ++ session_user_id session)) ;;;
   io (consoleLog ("- Resume URL: " ++ resumeUrl)) ;;;
   io (consoleLog ("- Company: " ++ companyName)) ;;;
   io (consoleLog ("- Job Title: " ++ jobTitle)) ;;;
   io (consoleLog ("- Template Style: " ++ interp undefinedText templateStyle)) ;;;
   io (consoleLog ("- Special Instructions: " ++ orDefault specialInstructions "None")) ;;;
   io (consoleLog ("- Using ML Backend: " ++ if USE_ML_BACKEND then "true" else "false")) ;;;
   isMLBackendAvailable <- (if USE_ML_BACKEND then checkApiHealth else resolve false) ;;
   coverLetter <- generateWithBackend isMLBackendAvailable resumeText jobInfo
                    specialInstructions templateStyle ;;
   coverLetter <-
     (if negb (truthyValue coverLetter) then
        generateLocally isMLBackendAvailable session resumeText jobInfo specialInstructions
                        templateStyle
      else resolve (textOf coverLetter)) ;;
   createdAt <- io newDate ;;
   updatedAt <- io newDate ;;
   id <- insertCoverLetter
           {| letter_userId := session_user_id session;
              letter_companyName := companyName;
              letter_jobTitle := jobTitle;
              letter_jobDescription := jobDescription;
              letter_specialInstructions := specialInstructions;
              letter_templateStyle := orDefault templateStyle "professional";
              letter_content := coverLetter;
              letter_createdAt := createdAt;
              letter_updatedAt := updatedAt;
              letter_generatedWithML := isMLBackendAvailable |} ;;
   resolve {| response_status := 200;
              response_message := "Cover letter generated successfully";
              response_error := None;
              response_coverLetter := Some coverLetter;
              response_id := Some id;
              response_usedMLBackend := Some isMLBackendAvailable |})%async.

Definition POST : Async Response :=
  tryCatch
    (session <- await (getServerSession services) ;;
     match session with
     | None => resolve (reply 401 "Unauthorized")
     | Some session =>
         parsed <- attempt (await (request_json services)) ;;
         match parsed with
         | Throws error => resolve (replyError 400 "Invalid JSON in request body" error)
         | Returns requestData =>
             if negb (truthyValue (request_companyName requestData))
                || negb (truthyValue (request_jobTitle requestData))
                || negb (truthyValue (request_jobDescription requestData))
                || negb (truthyValue (request_resumeUrl requestData))
             then resolve (reply 400 "Missing required fields")
             else
               await (connectToDatabase services) ;;;
               user <- await (findOne services (session_user_id session)) ;;
               match user with
               | None => resolve (reply 400 "No resume found for this user")
               | Some user =>
                   if negb (truthyValue (user_resumeUrl user))
                   then resolve (reply 400 "No resume found for this user")
                   else generateAndStore session requestData user
               end
         end
     end)%async
    (fun error => resolve (replyError 500 "Something went wrong" error)).

End Handler.

(** *** The local pipeline of a request, for comparison with the handler *)

Definition requestedJob (requestData : RequestData) : JobInfo :=
  {| companyName := textOf (request_companyName requestData);
     jobTitle := textOf (request_jobTitle requestData);
     jobDescription := textOf (request_jobDescription requestData) |}.

(** [user.resumeText || `Content of ${user.resumeFilename || "resume"}`] *)
Definition storedResumeText (user : UserDocument) : string :=
  orDefault (user_resumeText user)
            ("Content of " ++ orDefault (user_resumeFilename user) "resume").

(** The three functions of the generator, composed on the stored resume, the
    profile of the session and the fields of the request. *)
Definition localLetter (today : Date) (session : Session) (requestData : RequestData)
  (user : UserDocument) : string :=
  let resumeInfo := extractResumeInfo (storedResumeText user) (Some (session_user session)) in
  let jobInfo := requestedJob requestData in
  generateCoverLetter today resumeInfo jobInfo
    (analyzeJob (jobDescription jobInfo) resumeInfo)
    (request_specialInstructions requestData)
    (Some (orDefault (request_templateStyle requestData) "professional")).

(** The same services with another backend. *)
Definition withFetch (services : Services)
  (backend : string -> string -> option Payload -> Outcome FetchResponse) : Services :=
  {| getServerSession := getServerSession services;
     request_json := request_json services;
     connectToDatabase := connectToDatabase services;
     findOne := findOne services;
     insertOne := insertOne services;
     fetch := backend |}.

(** *** A request, for the examples *)

Definition sampleSession : Session :=
  {| session_user_id := "65a4f0c2e1b2a3c4d5e6f708";
     session_user := {| profile_name := None; profile_email := None; profile_phone := None;
                        profile_address := None; profile_bio := None |} |}.

Definition sampleRequest : RequestData :=
  {| request_companyName := Some (companyName sampleJob);
     request_jobTitle := Some (jobTitle sampleJob);
     request_jobDescription := Some (jobDescription sampleJob);
     request_specialInstructions := None;
     request_resumeUrl := Some "/uploads/resume.pdf";
     request_templateStyle := None |}.

Definition sampleUser : UserDocument :=
  {| user_resumeUrl := Some "/uploads/resume.pdf";
     user_resumeText := Some sampleResume;
     user_resumeFilename := Some "resume.pdf" |}.

(** A signed-in user with a stored resume, a database that answers, and a
    backend that cannot be reached. *)
Definition sampleServices : Services :=
  {| getServerSession := Returns (Some sampleSession);
     request_json := Returns sampleRequest;
     connectToDatabase := Returns tt;
     findOne := fun _ => Returns (Some sampleUser);
     insertOne := fun _ => Returns "65a4f0c2e1b2a3c4d5e6f709";
     fetch := fun _ _ _ => Throws (ErrorObject "fetch failed") |}.

Definition sampleServer : Server := {| world := morningWorld; inserted := [] |}.

Definition sampleResponse : Response :=
  {| response_status := 200;
     response_message := "Cover letter generated successfully";
     response_error := None;
     response_coverLetter := Some (localLetter sampleDate sampleSession sampleRequest sampleUser);
     response_id := Some "65a4f0c2e1b2a3c4d5e6f709";
     response_usedMLBackend := Some false |}.

(** *** Where a letter comes from *)

(** The letter is the [coverLetter] field of the JSON body of an OK answer
    of the backend to the generation request. *)
Definition backendLetter (url use : option string) (services : Services)
  (resumeText : string) (jobInfo : JobInfo) (specialInstructions : option string)
  (templateStyle letter : string) : Prop :=
  USE_ML_BACKEND use = true /\
  exists response data,
    fetch services (API_URL url ++ "/api/generate-cover-letter") "POST"
          (Some (GeneratePayload resumeText jobInfo specialInstructions templateStyle))
    = Returns response /\
    fetched_ok response = true /\
    fetched_json response = Returns data /\
    data_coverLetter data = Some letter.

(** The letter is written by the composer, from some resume data and some
    analysis, for this job, these instructions and this style. *)
Definition composedLetter (jobInfo : JobInfo) (specialInstructions : option string)
  (templateStyle letter : string) : Prop :=
  exists today resumeInfo jobAnalysis,
    letter = generateCoverLetter today resumeInfo jobInfo jobAnalysis specialInstructions
                                 (Some templateStyle).

(** A backend that is up and answers every request with the same body. *)
Definition answeringBackend (target method : string) (body : option Payload)
  : Outcome FetchResponse :=
  Returns {| fetched_ok := true;
             fetched_json :=
               Returns {| data_status := Some "ok";
                          data_message := None;
                          data_coverLetter := Some "Dear Acme Labs team, I would like to apply.";
                          data_resumeInfo := None;
                          data_jobAnalysis := None |} |}.

Definition backendResponse : Response :=
  {| response_status := 200;
     response_message := "Cover letter generated successfully";
     response_error := None;
     response_coverLetter := Some "Dear Acme Labs team, I would like to apply.";
     response_id := Some "65a4f0c2e1b2a3c4d5e6f709";
     response_usedMLBackend := Some true |}.

(** A backend that is up but cannot write the letter, and whose extractor
    finds no skill in the resume. *)
Definition noSkillsBackend (target method : string) (body : option Payload)
  : Outcome FetchResponse :=
  match body with
  | None =>
      Returns {| fetched_ok := true;
                 fetched_json :=
                   Returns {| data_status := Some "ok"; data_message := None;
                              data_coverLetter := None; data_resumeInfo := None;
                              data_jobAnalysis := None |} |}
  | Some (ExtractPayload _) =>
      Returns {| fetched_ok := true;
                 fetched_json :=
                   Returns {| data_status := None; data_message := None;
                              data_coverLetter := None;
                              data_resumeInfo := Some noSkillsInfo;
                              data_jobAnalysis := None |} |}
  | Some _ =>
      Returns {| fetched_ok := false;
                 fetched_json :=
                   Returns {| data_status := None; data_message := Some "model not loaded";
                              data_coverLetter := None; data_resumeInfo := None;
                              data_jobAnalysis := None |} |}
  end.

(** * Properties *)

(** ** The matcher's iteration budget *)

Lemma follows_refl (st : mstate) : follows st st.
Proof. split; [apply Nat.le_refl | reflexivity]. Qed.

Lemma follows_trans (a b c : mstate) : follows a b -> follows b c -> follows a c.
Proof. intros [H1 H2] [H3 H4]. split; [lia | congruence]. Qed.

Lemma follows_advance (st : mstate) (d : ascii) (rest : string) :
  st_rest st = String d rest -> follows st (advance d rest st).
Proof. intros E. unfold follows, advance. rewrite E. simpl. lia. Qed.

Lemma step_ext (ok : ascii -> bool) (k k' : cont) (st : mstate) :
  (forall st', follows st st' -> k st' = k' st') -> step ok k st = step ok k' st.
Proof.
  intros H. unfold step. destruct (st_rest st) as [|d rest] eqn:E; [reflexivity|].
  destruct (ok d); [|reflexivity]. apply H. now apply follows_advance.
Qed.

(** The quantifier loop of a progressive atom treats alike two
    continuations that agree on the reachable positions. *)
Lemma iterate_ext (body : matcher) (greedy : bool) :
  progressive body ->
  forall (fuel mn : nat) (mx : option nat) (st : mstate) (k k' : cont),
    (forall st', follows st st' -> k st' = k' st') ->
    iterate body k greedy fuel mn mx st = iterate body k' greedy fuel mn mx st.
Proof.
  intros Hb. induction fuel as [|fuel IH]; intros mn mx st k k' H; cbn [iterate].
  - apply H, follows_refl.
  - assert (Hk : k st = k' st) by apply H, follows_refl.
    assert (Hd : body (fun st' => if Nat.eqb mn 0 && Nat.eqb (st_pos st') (st_pos st) then None
                                  else iterate body k greedy fuel (Nat.pred mn)
                                               (option_map Nat.pred mx) st') st
                 = body (fun st' => if Nat.eqb mn 0 && Nat.eqb (st_pos st') (st_pos st) then None
                                    else iterate body k' greedy fuel (Nat.pred mn)
                                                 (option_map Nat.pred mx) st') st).
    { apply Hb. intros st' F. destruct (_ && _); [reflexivity|].
      apply IH. intros st'' F'. apply H. now apply follows_trans with st'. }
    destruct mx as [[|m]|]; try exact Hk; rewrite Hd, Hk; reflexivity.
Qed.

(** Every pattern is progressive. *)
Lemma run_ext (ic : bool) (r : regex) : progressive (run ic r).
Proof.
  induction r as [|c| |neg items|r1 IH1 r2 IH2|r1 IH1 r2 IH2|mn mx greedy r IH|n r IH| | |];
    intros k k' st H; cbn [run];
    try (apply step_ext; exact H);
    try (now rewrite (H st (follows_refl st))).
  - apply IH1. intros st' F. apply IH2. intros st'' F'. apply H.
    now apply follows_trans with st'.
  - rewrite (IH1 k k' st H), (IH2 k k' st H). reflexivity.
  - apply iterate_ext; [|exact H].
    intros d d' st0 Hd. apply IH. intros st' F. apply Hd. exact F.
  - apply IH. intros st' F. apply H. exact F.
Qed.

(** A budget beyond [min + |rest|] is never used up: any two such budgets
    give the same result. *)
Lemma iterate_fuel (body : matcher) (k : cont) (greedy : bool) :
  progressive body ->
  forall (fuel1 fuel2 mn : nat) (mx : option nat) (st : mstate),
    mn + String.length (st_rest st) < fuel1 ->
    mn + String.length (st_rest st) < fuel2 ->
    iterate body k greedy fuel1 mn mx st = iterate body k greedy fuel2 mn mx st.
Proof.
  intros Hb. induction fuel1 as [|fuel1 IH]; intros fuel2 mn mx st H1 H2; [lia|].
  destruct fuel2 as [|fuel2]; [lia|]. cbn [iterate].
  assert (Hd : body (fun st' => if Nat.eqb mn 0 && Nat.eqb (st_pos st') (st_pos st) then None
                                else iterate body k greedy fuel1 (Nat.pred mn)
                                             (option_map Nat.pred mx) st') st
               = body (fun st' => if Nat.eqb mn 0 && Nat.eqb (st_pos st') (st_pos st) then None
                                  else iterate body k greedy fuel2 (Nat.pred mn)
                                               (option_map Nat.pred mx) st') st).
  { apply Hb. intros st' [F1 F2].
    destruct (Nat.eqb mn 0 && Nat.eqb (st_pos st') (st_pos st)) eqn:E; [reflexivity|].
    apply andb_false_iff in E.
    assert (Nat.pred mn + String.length (st_rest st') < fuel1 /\
            Nat.pred mn + String.length (st_rest st') < fuel2) as [G1 G2].
    { destruct E as [E|E]; [apply Nat.eqb_neq in E | apply Nat.eqb_neq in E]; lia. }
    now apply IH. }
  rewrite Hd. reflexivity.
Qed.

(** The budget of a quantifier is enough: a larger one changes nothing. *)
Theorem run_budget_spare :
  forall (ic : bool) (mn : nat) (mx : option nat) (greedy : bool) (r : regex) (k : cont)
         (st : mstate) (extra : nat),
    iterate (fun d st0 => run ic r d (clearCaps (groupsOf r) st0)) k greedy
            (extra + (mn + String.length (st_rest st) + 1)) mn mx st
    = run ic (Repeat mn mx greedy r) k st.
Proof.
  intros. cbn [run]. apply iterate_fuel; [|lia|lia].
  intros d d' st0 Hd. apply run_ext. intros st' F. apply Hd. exact F.
Qed.

Lemma iterate_lands (body : matcher) (k : cont) (greedy : bool) :
  lands body ->
  forall (fuel mn : nat) (mx : option nat) (st z : mstate),
    iterate body k greedy fuel mn mx st = Some z ->
    exists st', follows st st' /\ k st' = Some z.
Proof.
  intros Hb. induction fuel as [|fuel IH]; intros mn mx st z H; cbn [iterate] in H.
  - exists st. split; [apply follows_refl | exact H].
  - assert (Hk : k st = Some z -> exists st', follows st st' /\ k st' = Some z).
    { intros E. exists st. split; [apply follows_refl | exact E]. }
    assert (Hd : forall d, d = (fun st' =>
                     if Nat.eqb mn 0 && Nat.eqb (st_pos st') (st_pos st) then None
                     else iterate body k greedy fuel (Nat.pred mn) (option_map Nat.pred mx) st') ->
                   body d st = Some z -> exists st', follows st st' /\ k st' = Some z).
    { intros d -> E. apply Hb in E as (st1 & F1 & E1).
      destruct (_ && _); [discriminate|].
      apply IH in E1 as (st2 & F2 & E2). exists st2. split; [|exact E2].
      now apply follows_trans with st1. }
    destruct mx as [[|m]|]; [now apply Hk | |];
      (destruct (Nat.ltb 0 mn); [now apply (Hd _ eq_refl)|];
       destruct greedy;
       [ destruct (body _ st) eqn:B; [injection H as ->; now apply (Hd _ eq_refl) | now apply Hk]
       | destruct (k st) eqn:K; [injection H as ->; now apply Hk | now apply (Hd _ eq_refl)] ]).
Qed.

Lemma run_lands (ic : bool) (r : regex) : lands (run ic r).
Proof.
  assert (Hstep : forall ok, lands (step ok)).
  { intros ok k st z H. unfold step in H.
    destruct (st_rest st) as [|d rest] eqn:E; [discriminate|].
    destruct (ok d); [|discriminate].
    exists (advance d rest st). split; [now apply follows_advance | exact H]. }
  assert (Hhere : forall (c : bool) (k : cont) (st z : mstate),
             (if c then k st else None) = Some z ->
             exists st', follows st st' /\ k st' = Some z).
  { intros c k st z H. destruct c; [|discriminate].
    exists st. split; [apply follows_refl | exact H]. }
  induction r as [|c| |neg items|r1 IH1 r2 IH2|r1 IH1 r2 IH2|mn mx greedy r IH|n r IH| | |];
    intros k st z H; cbn [run] in H;
    try (now apply Hstep in H); try (now apply Hhere in H).
  - exists st. split; [apply follows_refl | exact H].
  - apply IH1 in H as (st1 & F1 & H). apply IH2 in H as (st2 & F2 & H).
    exists st2. split; [now apply follows_trans with st1 | exact H].
  - destruct (run ic r1 k st) eqn:E; [injection H as ->; now apply IH1 in E | now apply IH2 in H].
  - apply iterate_lands in H; [exact H|].
    intros d st0 z0 H0. apply IH in H0 as (st' & F & H0). exists st'. split; [exact F | exact H0].
  - apply IH in H as (st' & F & H). exists (setCap n (take (st_pos st' - st_pos st) (st_rest st)) st').
    split; [exact F | exact H].
Qed.

Lemma matchAt_follows (ic : bool) (r : regex) (st : mstate) (m : MatchResult) :
  matchAt ic r st = Some m -> m_index m = st_pos st /\ follows st (m_after m).
Proof.
  unfold matchAt. intros H. destruct (run ic r Some _) as [z|] eqn:E; [|discriminate].
  injection H as <-. cbn [m_index m_after]. split; [reflexivity|].
  apply run_lands in E as (st' & F & E). injection E as ->. exact F.
Qed.

Lemma searchFrom_follows (ic : bool) (r : regex) (s : string) :
  forall (pos : nat) (prev : option ascii) (m : MatchResult),
    searchFrom ic r pos prev s = Some m ->
    pos <= m_index m /\ m_index m <= st_pos (m_after m) /\
    st_pos (m_after m) + String.length (st_rest (m_after m)) = pos + String.length s.
Proof.
  induction s as [|c s IH]; intros pos prev m H; cbn [searchFrom] in H;
    destruct (matchAt ic r _) as [m0|] eqn:E.
  - injection H as ->. apply matchAt_follows in E as [Ei [F1 F2]]. cbn in *. lia.
  - discriminate.
  - injection H as ->. apply matchAt_follows in E as [Ei [F1 F2]]. cbn in *. lia.
  - apply IH in H. cbn [String.length]. lia.
Qed.

(** The budget of the global match is enough. *)
Lemma matchAllFrom_fuel (ic : bool) (r : regex) :
  forall (fuel1 fuel2 pos : nat) (prev : option ascii) (s : string),
    String.length s < fuel1 -> String.length s < fuel2 ->
    matchAllFrom fuel1 ic r pos prev s = matchAllFrom fuel2 ic r pos prev s.
Proof.
  induction fuel1 as [|fuel1 IH]; intros fuel2 pos prev s H1 H2; [lia|].
  destruct fuel2 as [|fuel2]; [lia|]. cbn [matchAllFrom].
  destruct (searchFrom ic r pos prev s) as [m|] eqn:E; [|reflexivity].
  apply searchFrom_follows in E as (E1 & E2 & E3).
  destruct (Nat.eqb (st_pos (m_after m)) (m_index m)) eqn:Q.
  - destruct (st_rest (m_after m)) as [|c rest]; [reflexivity|].
    cbn [String.length] in E3. f_equal. apply IH; lia.
  - apply Nat.eqb_neq in Q. f_equal. apply IH; lia.
Qed.

Theorem matchAll_budget_spare :
  forall (ic : bool) (r : regex) (s : string) (extra : nat),
    matchAllFrom (extra + S (String.length s)) ic r 0 None s = matchAll ic r s.
Proof. intros. apply matchAllFrom_fuel; lia. Qed.

(** The budget of [replace] is enough. *)
Lemma replaceLoop_fuel (ic : bool) (r : regex) (rep : string) :
  forall (fuel1 fuel2 : nat) (q : mstate),
    String.length (st_rest q) < fuel1 -> String.length (st_rest q) < fuel2 ->
    replaceLoop fuel1 ic r rep q = replaceLoop fuel2 ic r rep q.
Proof.
  induction fuel1 as [|fuel1 IH]; intros fuel2 q H1 H2; [lia|].
  destruct fuel2 as [|fuel2]; [lia|]. cbn [replaceLoop].
  destruct (matchAt ic r q) as [m|] eqn:E.
  - apply matchAt_follows in E as [Ei [F1 F2]].
    destruct (Nat.eqb (st_pos (m_after m)) (st_pos q)) eqn:Q.
    + destruct (st_rest q) as [|c rest]; [reflexivity|].
      cbn [String.length] in *. do 2 f_equal. apply IH; cbn; lia.
    + apply Nat.eqb_neq in Q. f_equal. apply IH; cbn; lia.
  - destruct (st_rest q) as [|c rest]; [reflexivity|].
    cbn [String.length] in *. f_equal. apply IH; cbn; lia.
Qed.

Theorem replaceAll_budget_spare :
  forall (ic : bool) (r : regex) (rep s : string) (extra : nat),
    replaceLoop (extra + S (String.length s)) ic r rep (start s) = replaceAll ic r rep s.
Proof. intros. apply replaceLoop_fuel; cbn; lia. Qed.

(** The budget of [split] is enough: a turn shortens the rest, or moves the
    start of the piece up to the position tried. *)
Lemma splitLoop_fuel (ic : bool) (r : regex) :
  forall (fuel1 fuel2 p : nat) (acc : string) (q : mstate),
    let debt := 2 * String.length (st_rest q) + (if Nat.eqb p (st_pos q) then 0 else 1) in
    debt < fuel1 -> debt < fuel2 ->
    splitLoop fuel1 ic r p acc q = splitLoop fuel2 ic r p acc q.
Proof.
  induction fuel1 as [|fuel1 IH]; intros fuel2 p acc q debt H1 H2; [lia|].
  destruct fuel2 as [|fuel2]; [lia|]. cbn [splitLoop]. subst debt.
  destruct (st_rest q) as [|c rest] eqn:R; [reflexivity|].
  cbn [String.length] in H1, H2.
  assert (Hadv : splitLoop fuel1 ic r p (acc ++ String c EmptyString) (advance c rest q)
                 = splitLoop fuel2 ic r p (acc ++ String c EmptyString) (advance c rest q)).
  { apply IH; cbn [advance st_rest st_pos];
      destruct (Nat.eqb p (st_pos q)), (Nat.eqb p (S (st_pos q))); lia. }
  destruct (matchAt ic r q) as [m|] eqn:E; [|exact Hadv].
  apply matchAt_follows in E as [Ei [F1 F2]]. rewrite R in F2. cbn [String.length] in F2.
  destruct (Nat.eqb (st_pos (m_after m)) p) eqn:Q; [exact Hadv|].
  apply Nat.eqb_neq in Q. f_equal.
  apply IH; cbn [st_rest st_pos]; rewrite Nat.eqb_refl;
    destruct (Nat.eqb_spec p (st_pos q)); lia.
Qed.

Theorem split_budget_spare :
  forall (ic : bool) (r : regex) (c : ascii) (s : string) (extra : nat),
    splitLoop (extra + (2 * String.length (String c s) + 2)) ic r 0 EmptyString
              (start (String c s))
    = split ic r (String c s).
Proof. intros. apply splitLoop_fuel; cbn; lia. Qed.

(** ** Lists and strings *)

Lemma In_firstn {A : Type} (n : nat) (l : list A) (x : A) :
  In x (firstn n l) -> In x l.
Proof.
  revert l; induction n as [|n IH]; intros [|a l]; simpl; try tauto.
  intros [->|H]; [now left | right; now apply IH].
Qed.

Lemma filter_none {A : Type} (f : A -> bool) (l : list A) :
  (forall x, In x l -> f x = false) -> filter f l = [].
Proof.
  induction l as [|a l IH]; simpl; intros H; [reflexivity|].
  rewrite (H a (or_introl eq_refl)). apply IH. intros x Hx. apply H. now right.
Qed.

Lemma filter_some {A : Type} (f : A -> bool) (l : list A) (x : A) :
  In x l -> f x = true -> filter f l <> [].
Proof.
  intros Hin Hf He.
  assert (Hx : In x (filter f l)) by (apply filter_In; split; assumption).
  rewrite He in Hx. exact Hx.
Qed.

(** The value of [matchedSkills]: the case-insensitive intersection, or the
    first three skills when the intersection is empty. *)
Lemma matchedSkills_unfold (jobDescription : string) (resumeInfo : ResumeInfo) :
  matchedSkills (analyzeJob jobDescription resumeInfo) =
  match filter (fun skill =>
                  existsb (fun req => String.eqb (toLowerCase req) (toLowerCase skill))
                          (requirements (analyzeJob jobDescription resumeInfo)))
               (skills resumeInfo) with
  | [] => firstn 3 (skills resumeInfo)
  | m :: ms => m :: ms
  end.
Proof.
  unfold analyzeJob; cbn [matchedSkills requirements].
  destruct (filter _ (skills resumeInfo)); reflexivity.
Qed.

Lemma existsb_lower_eq (reqs : list string) (skill : string) :
  existsb (fun req => String.eqb (toLowerCase req) (toLowerCase skill)) reqs = true <->
  exists req, In req reqs /\ toLowerCase req = toLowerCase skill.
Proof.
  rewrite existsb_exists. split; intros [q [Hq He]]; exists q; split; auto;
    now apply String.eqb_eq.
Qed.

(** C1. For every job description and every ResumeInfo, the matched skills
    of [analyzeJob] are drawn from the resume's skills: they are exactly the
    skills that equal, ignoring case, one of the requirements found in the
    job description; in the fallback case, when that intersection is empty,
    they are the first 3 entries of the resume's skills (again a part of
    the resume's skills). *)
Theorem analyzeJob_matchedSkills_subset :
  forall (jobDescription : string) (resumeInfo : ResumeInfo),
    let analysis := analyzeJob jobDescription resumeInfo in
    let overlaps skill :=
      exists req, In req (requirements analysis) /\ toLowerCase req = toLowerCase skill in
    incl (matchedSkills analysis) (skills resumeInfo) /\
    ((exists skill, In skill (skills resumeInfo) /\ overlaps skill) ->
     forall skill, In skill (matchedSkills analysis) <->
                   In skill (skills resumeInfo) /\ overlaps skill) /\
    ((forall skill, In skill (skills resumeInfo) -> ~ overlaps skill) ->
     matchedSkills analysis = firstn 3 (skills resumeInfo)).
Proof.
  intros jd r analysis overlaps.
  pose proof (matchedSkills_unfold jd r) as E. fold analysis in E.
  set (f := fun skill => existsb (fun req => String.eqb (toLowerCase req) (toLowerCase skill))
                                 (requirements analysis)) in E.
  assert (Hf : forall s, f s = true <-> overlaps s) by (intro s; apply existsb_lower_eq).
  split; [|split].
  - intros s Hs. rewrite E in Hs. destruct (filter f (skills r)) eqn:F.
    + eapply In_firstn; eassumption.
    + rewrite <- F in Hs. apply filter_In in Hs. tauto.
  - intros [s0 [Hin Hov]] s.
    assert (Hne : filter f (skills r) <> []).
    { apply (filter_some f _ s0 Hin). now apply Hf. }
    rewrite E. destruct (filter f (skills r)) eqn:F; [congruence|].
    rewrite <- F, filter_In, Hf. tauto.
  - intros Hno. rewrite E. rewrite filter_none; [reflexivity|].
    intros s Hs. destruct (f s) eqn:Fs; [|reflexivity].
    exfalso. apply (Hno s Hs). now apply Hf.
Qed.

Lemma append_assoc (a b c : string) : (a ++ b) ++ c = a ++ b ++ c.
Proof. induction a as [|x a IH]; simpl; [reflexivity | now rewrite IH]. Qed.

Lemma mapChars_app (f : ascii -> ascii) (a b : string) :
  mapChars f (a ++ b) = mapChars f a ++ mapChars f b.
Proof. induction a as [|x a IH]; simpl; [reflexivity | now rewrite IH]. Qed.

Lemma mapChars_app_inv (f : ascii -> ascii) (t a b : string) :
  mapChars f t = a ++ b ->
  exists ta tb, t = ta ++ tb /\ mapChars f ta = a /\ mapChars f tb = b.
Proof.
  revert t; induction a as [|x a IH]; intros t H.
  - exists EmptyString, t. auto.
  - destruct t as [|y t]; simpl in H; [discriminate|].
    injection H as Hx Ht. destruct (IH t Ht) as [ta [tb [-> [Ha Hb]]]].
    exists (String y ta), tb. simpl. now rewrite Ha, Hx.
Qed.

Lemma startsWith_app (p s : string) : startsWith (p ++ s) p = true.
Proof.
  induction p as [|x p IH]; simpl; [now destruct s|].
  now rewrite Ascii.eqb_refl.
Qed.

Lemma startsWith_inv (s p : string) :
  startsWith s p = true -> exists post, s = p ++ post.
Proof.
  revert s; induction p as [|x p IH]; intros s H.
  - exists s. reflexivity.
  - destruct s as [|y s]; simpl in H; [discriminate|].
    apply andb_true_iff in H as [Hxy Hs]. apply Ascii.eqb_eq in Hxy. subst y.
    destruct (IH s Hs) as [post ->]. now exists post.
Qed.

Lemma includes_startsWith (s x : string) : startsWith s x = true -> includes s x = true.
Proof. intros H. destruct s; cbn [includes]; now rewrite H. Qed.

Lemma includes_app (pre x post : string) : includes (pre ++ x ++ post) x = true.
Proof.
  induction pre as [|c pre IH].
  - change (EmptyString ++ x ++ post) with (x ++ post).
    apply includes_startsWith, startsWith_app.
  - simpl. rewrite IH. apply orb_true_r.
Qed.

Lemma includes_inv (s x : string) :
  includes s x = true -> exists pre post, s = pre ++ x ++ post.
Proof.
  induction s as [|c s IH]; cbn [includes]; intros H.
  - rewrite orb_false_r in H. destruct (startsWith_inv _ _ H) as [post E].
    exists EmptyString, post. exact E.
  - apply orb_true_iff in H as [H|H].
    + destruct (startsWith_inv _ _ H) as [post E]. exists EmptyString, post. exact E.
    + destruct (IH H) as [pre [post ->]]. now exists (String c pre), post.
Qed.

Lemma includes_lower_iff (text s : string) :
  includes (toLowerCase text) (toLowerCase s) = true <-> occursIgnoringCase s text.
Proof.
  unfold occursIgnoringCase, toLowerCase. split.
  - intros H. apply includes_inv in H as [pre [post E]].
    apply mapChars_app_inv in E as [ta [tb [-> [Ha Hb]]]].
    apply mapChars_app_inv in Hb as [tm [tp [-> [Hm Hp]]]].
    now exists ta, tm, tp.
  - intros [pre [mid [post [-> E]]]].
    rewrite !mapChars_app, E. apply includes_app.
Qed.

Lemma subsequence_tail (a : string) (l v : list string) :
  subsequence (a :: l) v = true -> subsequence l v = true.
Proof.
  revert a l; induction v as [|b v IH]; intros a l H; simpl in H; [discriminate|].
  assert (Hl : subsequence l v = true).
  { destruct (String.eqb a b); [exact H | exact (IH a l H)]. }
  destruct l as [|c l]; [reflexivity|]. simpl.
  destruct (String.eqb c b); [exact (IH c l Hl) | exact Hl].
Qed.

Lemma subsequence_filter (f : string -> bool) (v : list string) :
  subsequence (filter f v) v = true.
Proof.
  induction v as [|b v IH]; [reflexivity|]. simpl.
  destruct (f b); simpl.
  - now rewrite String.eqb_refl.
  - destruct (filter f v) as [|a l] eqn:F; [reflexivity|].
    destruct (String.eqb a b); [exact (subsequence_tail a l v IH) | exact IH].
Qed.

Lemma skills_unfold (resumeText : string) (userProfile : option UserProfile) :
  skills (extractResumeInfo resumeText userProfile) =
  match matchSkills resumeText with
  | [] => defaultSkills
  | s :: l => s :: l
  end.
Proof.
  unfold extractResumeInfo. lazy beta zeta iota delta [skills].
  destruct (matchSkills resumeText); reflexivity.
Qed.

(** C2 (as the code has it).  Every vocabulary entry that occurs in the
    resume text, ignoring case, is among the extracted skills; whenever at
    least one entry occurs, the skills are the vocabulary filtered by
    occurrence, hence listed in vocabulary order whatever their order in the
    text; when no entry occurs the skills are the fixed default list. *)
Theorem extractResumeInfo_skills_vocabulary :
  forall (resumeText : string) (userProfile : option UserProfile),
    let found := skills (extractResumeInfo resumeText userProfile) in
    (forall s, In s skillsKeywords -> occursIgnoringCase s resumeText -> In s found) /\
    ((exists s, In s skillsKeywords /\ occursIgnoringCase s resumeText) ->
     found = matchSkills resumeText /\ inVocabularyOrder found = true) /\
    ((forall s, In s skillsKeywords -> ~ occursIgnoringCase s resumeText) ->
     found = defaultSkills).
Proof.
  intros text profile found.
  assert (E : found = match matchSkills text with [] => defaultSkills | s :: l => s :: l end)
    by apply skills_unfold.
  assert (Hne : forall s, In s skillsKeywords -> occursIgnoringCase s text ->
                          matchSkills text <> [] /\ In s (matchSkills text)).
  { intros s Hs Ho. apply includes_lower_iff in Ho.
    assert (In s (matchSkills text)) by (apply filter_In; split; assumption).
    split; [|assumption]. intros Hnil. rewrite Hnil in H. exact H. }
  split; [|split].
  - intros s Hs Ho. destruct (Hne s Hs Ho) as [Hn Hin].
    rewrite E. destruct (matchSkills text); [congruence | exact Hin].
  - intros [s [Hs Ho]]. destruct (Hne s Hs Ho) as [Hn _].
    assert (Ef : found = matchSkills text).
    { rewrite E. destruct (matchSkills text); [congruence | reflexivity]. }
    split; [exact Ef|]. rewrite Ef. exact (subsequence_filter _ skillsKeywords).
  - intros Hno. rewrite E. unfold matchSkills. rewrite filter_none; [reflexivity|].
    intros s Hs. destruct (includes _ _) eqn:I; [|reflexivity].
    exfalso. apply (Hno s Hs). now apply includes_lower_iff.
Qed.

(** C2, the claim as worded fails on the empty resume: no vocabulary entry
    occurs, the skills are the default list, and the default list puts
    "Data Analysis" before "Python", against the vocabulary order. *)
Lemma extractResumeInfo_default_skills_out_of_order :
  skills (extractResumeInfo EmptyString None) =
    ["Data Analysis"; "Python"; "SQL"; "Machine Learning"; "Data Visualization"] /\
  inVocabularyOrder (skills (extractResumeInfo EmptyString None)) = false.
Proof. split; vm_compute; reflexivity. Qed.

(** C2, a use of the theorem: "sql" in the text yields the entry "SQL", and
    the skills found in "Sql and python" come out as Python, SQL. *)
Lemma extractResumeInfo_skills_vocabulary_witness :
  In "SQL" (skills (extractResumeInfo "Sql and python" None)) /\
  inVocabularyOrder (skills (extractResumeInfo "Sql and python" None)) = true.
Proof.
  pose proof (extractResumeInfo_skills_vocabulary "Sql and python" None) as [H1 [H2 _]].
  assert (Ho : occursIgnoringCase "SQL" "Sql and python").
  { exists EmptyString, "Sql", " and python". split; reflexivity. }
  assert (Hv : In "SQL" skillsKeywords) by (do 2 right; left; reflexivity).
  split.
  - exact (H1 "SQL" Hv Ho).
  - exact (proj2 (H2 (ex_intro _ "SQL" (conj Hv Ho)))).
Defined.

(** ** The style switch *)

(** C3. A style that is none of "modern", "creative", "traditional",
    "professional" (and likewise an absent style) gives exactly the letter
    of the style "professional" on the same arguments; the composer is a
    total function, so no style makes it fail. *)
Theorem generateCoverLetter_unknown_style :
  forall (today : Date) (resumeInfo : ResumeInfo) (jobInfo : JobInfo)
         (jobAnalysis : JobAnalysis) (specialInstructions : option string)
         (templateStyle : string),
    templateStyle <> "modern" ->
    templateStyle <> "creative" ->
    templateStyle <> "traditional" ->
    templateStyle <> "professional" ->
    generateCoverLetter today resumeInfo jobInfo jobAnalysis specialInstructions
                        (Some templateStyle)
    = generateCoverLetter today resumeInfo jobInfo jobAnalysis specialInstructions
                          (Some "professional")
    /\ generateCoverLetter today resumeInfo jobInfo jobAnalysis specialInstructions None
       = generateCoverLetter today resumeInfo jobInfo jobAnalysis specialInstructions
                             (Some "professional").
Proof.
  intros today r j a si style Hm Hc Ht _.
  unfold generateCoverLetter, generateCoverLetterWith.
  apply String.eqb_neq in Hm, Hc, Ht. rewrite Hm, Hc, Ht.
  split; reflexivity.
Qed.

(** C3 at the style "nonsense" of the specification's example. *)
Lemma generateCoverLetter_unknown_style_witness :
  generateCoverLetter sampleDate sampleInfo sampleJob sampleAnalysis None (Some "nonsense")
  = generateCoverLetter sampleDate sampleInfo sampleJob sampleAnalysis None
                        (Some "professional").
Proof.
  apply (generateCoverLetter_unknown_style sampleDate sampleInfo sampleJob sampleAnalysis
           None "nonsense"); discriminate.
Defined.

(** ** The empty resume *)

(** C4. On the empty resume, with no profile override, extraction returns
    (it is a total function) the record whose string fields are all empty
    except [experience], which holds its documented default, and whose
    sequence fields hold their documented defaults. *)
Theorem extractResumeInfo_empty_text :
  forall userProfile : option UserProfile,
    noOverride userProfile ->
    extractResumeInfo EmptyString userProfile =
    {| name := EmptyString; email := EmptyString; phone := EmptyString;
       address := EmptyString;
       skills := ["Data Analysis"; "Python"; "SQL"; "Machine Learning"; "Data Visualization"];
       experience := "experienced professional";
       education := EmptyString;
       workHistory := ["Professional experience in data analysis and visualization"];
       bio := EmptyString |}.
Proof.
  intros p (Hn & He & Hp & Ha & Hb).
  unfold extractResumeInfo. rewrite Hn, He, Hp, Ha, Hb.
  vm_compute. reflexivity.
Qed.

(** C4 for the absent profile and for a profile whose fields are unset or
    empty. *)
Lemma extractResumeInfo_empty_text_witness :
  extractResumeInfo EmptyString None = extractResumeInfo EmptyString
    (Some {| profile_name := Some EmptyString; profile_email := None;
             profile_phone := None; profile_address := Some EmptyString;
             profile_bio := None |}).
Proof.
  rewrite (extractResumeInfo_empty_text None);
    [| repeat split; reflexivity].
  rewrite (extractResumeInfo_empty_text (Some _));
    [reflexivity | repeat split; reflexivity].
Defined.

(** ** The empty job description *)

(** C5 (as the code has it).  On the empty job description the analysis
    returns, for every ResumeInfo: no requirement, no responsibility, the
    first 3 resume skills as matched skills (the fallback of an empty
    intersection), and the generic sentence built on the empty first word. *)
Theorem analyzeJob_empty_description :
  forall resumeInfo : ResumeInfo,
    analyzeJob EmptyString resumeInfo =
    {| requirements := [];
       matchedSkills := firstn 3 (skills resumeInfo);
       keyResponsibilities := [];
       companyInsights := "'s commitment to excellence and innovation in the industry" |}.
Proof.
  intros r.
  assert (Hreq : filter (fun req => includes (toLowerCase EmptyString) req)
                        requirementsKeywords = [])
    by (vm_compute; reflexivity).
  unfold analyzeJob. lazy zeta. rewrite Hreq.
  rewrite (filter_none _ (skills r)) by reflexivity.
  f_equal; vm_compute; reflexivity.
Qed.

(** C5, the claim as worded fails: with a resume that has skills, the
    matched skills of the empty job description are not empty. *)
Lemma analyzeJob_empty_description_matched :
  matchedSkills (analyzeJob EmptyString emptyInfo) = ["Data Analysis"; "Python"; "SQL"].
Proof. vm_compute. reflexivity. Qed.

(** ** Fields that are never empty *)

Lemma append_not_empty (a b : string) : b <> EmptyString -> a ++ b <> EmptyString.
Proof. intros Hb. destruct a; simpl; [exact Hb | discriminate]. Qed.

Lemma expLoop_cases (regexes : list regex) (resumeText : string) :
  (expLoop regexes resumeText EmptyString = EmptyString /\
   forall regex, In regex regexes -> truthyGroup 1 (exec true regex resumeText) = None) \/
  exists years, expLoop regexes resumeText EmptyString
                = showNumber years ++ " years of experience".
Proof.
  induction regexes as [|regex rest IH]; simpl.
  - left. split; [reflexivity | intros ? []].
  - destruct (truthyGroup 1 (exec true regex resumeText)) as [g|] eqn:G.
    + right. now exists (parseInt g).
    + destruct IH as [[E H]|IH]; [left | right; exact IH].
      split; [exact E|]. intros x [<-|Hx]; [exact G | now apply H].
Qed.

Lemma experience_unfold (resumeText : string) (userProfile : option UserProfile) :
  experience (extractResumeInfo resumeText userProfile) =
  if isEmpty (expLoop expRegexes resumeText EmptyString) then "experienced professional"
  else expLoop expRegexes resumeText EmptyString.
Proof. reflexivity. Qed.

Lemma workHistory_unfold (resumeText : string) (userProfile : option UserProfile) :
  workHistory (extractResumeInfo resumeText userProfile) =
  extractWorkHistory (splitChar (ascii_of_nat 10) resumeText).
Proof. reflexivity. Qed.

Lemma extractWorkHistory_not_empty (lines : list string) : extractWorkHistory lines <> [].
Proof.
  unfold extractWorkHistory.
  destruct (slice0 3 _); discriminate.
Qed.

(** The scan stays outside the work section as long as no line holds a
    section keyword. *)
Lemma workScan_no_section (lines : list string) (s : WorkScan) :
  inWorkSection s = false ->
  (forall line, In line lines -> test true workHistoryRegex (trim line) = false) ->
  fold_left workStep lines s = s.
Proof.
  revert s; induction lines as [|line lines IH]; intros s Hs Hno; [reflexivity|].
  simpl. assert (E : workStep s line = s).
  { unfold workStep. rewrite (Hno line (or_introl eq_refl)), Hs. reflexivity. }
  rewrite E. apply IH; [exact Hs|]. intros l Hl. apply Hno. now right.
Qed.

(** C10. For every resume text and profile override the extracted record
    has at least one skill, at least one work-history entry and a non-empty
    experience text, so [skills[0]] and [workHistory[0]] are always defined;
    the defaults come in when nothing is found: the default skills when no
    vocabulary entry matches, the placeholder sentence when no line opens a
    work section, "experienced professional" when no years pattern matches. *)
Theorem extractResumeInfo_never_empty :
  forall (resumeText : string) (userProfile : option UserProfile),
    let info := extractResumeInfo resumeText userProfile in
    1 <= List.length (skills info) /\
    1 <= List.length (workHistory info) /\
    experience info <> EmptyString /\
    (exists first, nth_error (skills info) 0 = Some first) /\
    (exists first, nth_error (workHistory info) 0 = Some first) /\
    (matchSkills resumeText = [] -> skills info = defaultSkills) /\
    ((forall line, In line (splitChar (ascii_of_nat 10) resumeText) ->
                   test true workHistoryRegex (trim line) = false) ->
     workHistory info = [workPlaceholder]) /\
    ((forall regex, In regex expRegexes ->
                    truthyGroup 1 (exec true regex resumeText) = None) ->
     experience info = "experienced professional").
Proof.
  intros text profile info.
  assert (Hs : exists s l, skills info = s :: l).
  { unfold info. rewrite skills_unfold.
    destruct (matchSkills text) as [|s l]; [now exists "Data Analysis", (tl defaultSkills)
                                           | now exists s, l]. }
  assert (Hw : exists w l, workHistory info = w :: l).
  { unfold info. rewrite workHistory_unfold.
    pose proof (extractWorkHistory_not_empty (splitChar (ascii_of_nat 10) text)) as Hne.
    destruct (extractWorkHistory _) as [|w l]; [congruence | now exists w, l]. }
  destruct Hs as [s [ls Es]], Hw as [w [lw Ew]].
  repeat match goal with |- _ /\ _ => split end.
  - rewrite Es. simpl. lia.
  - rewrite Ew. simpl. lia.
  - unfold info. rewrite experience_unfold.
    destruct (expLoop_cases expRegexes text) as [[E _]|[years E]]; rewrite E.
    + discriminate.
    + destruct (isEmpty _); [discriminate|].
      apply append_not_empty. discriminate.
  - exists s. now rewrite Es.
  - exists w. now rewrite Ew.
  - intros Hm. unfold info. rewrite skills_unfold, Hm. reflexivity.
  - intros Hno. unfold info. rewrite workHistory_unfold.
    unfold extractWorkHistory. rewrite workScan_no_section by (reflexivity || exact Hno).
    reflexivity.
  - intros Hno. unfold info. rewrite experience_unfold.
    destruct (expLoop_cases expRegexes text) as [[E _]|[years E]].
    + rewrite E. reflexivity.
    + exfalso. clear - Hno E.
      assert (G : forall rs, (forall regex, In regex rs ->
                                truthyGroup 1 (exec true regex text) = None) ->
                             expLoop rs text EmptyString = EmptyString).
      { induction rs as [|r rs IH]; intros H; simpl; [reflexivity|].
        rewrite (H r (or_introl eq_refl)). apply IH. intros x Hx. apply H. now right. }
      rewrite (G _ Hno) in E. symmetry in E. revert E.
      apply append_not_empty. discriminate.
Qed.

(** ** Determinism *)

Lemma formatDate_sameDay (d1 d2 : Date) : sameDay d1 d2 -> formatDate d1 = formatDate d2.
Proof. intros (Hy & Hm & Hd). unfold formatDate. now rewrite Hy, Hm, Hd. Qed.

(** A letter depends on the clock through the date stamp only. *)
Lemma generateCoverLetterWith_date (undef : string) (d1 d2 : Date) (resumeInfo : ResumeInfo)
  (jobInfo : JobInfo) (jobAnalysis : JobAnalysis) (specialInstructions templateStyle : option string) :
  formatDate d1 = formatDate d2 ->
  generateCoverLetterWith undef d1 resumeInfo jobInfo jobAnalysis specialInstructions templateStyle
  = generateCoverLetterWith undef d2 resumeInfo jobInfo jobAnalysis specialInstructions templateStyle.
Proof.
  intros H. unfold generateCoverLetterWith, generateModernTemplate, generateCreativeTemplate,
    generateTraditionalTemplate, generateProfessionalTemplate.
  destruct resumeInfo. rewrite H. reflexivity.
Qed.

(** C9. The three entry points are deterministic: run in any two worlds,
    whatever the console holds and whatever the time of day, extraction
    and analysis return the same record for the same arguments, and so does
    the composer as soon as the two clocks show the same date. *)
Theorem pipeline_deterministic :
  forall (w1 w2 : World) (resumeText : string) (userProfile : option UserProfile)
         (jobDescription : string) (resumeInfo : ResumeInfo) (jobInfo : JobInfo)
         (jobAnalysis : JobAnalysis) (specialInstructions templateStyle : option string),
    sameDay (clock w1) (clock w2) ->
    fst (extractResumeInfoIO resumeText userProfile w1)
    = fst (extractResumeInfoIO resumeText userProfile w2) /\
    fst (analyzeJobIO jobDescription resumeInfo w1)
    = fst (analyzeJobIO jobDescription resumeInfo w2) /\
    fst (generateCoverLetterIO resumeInfo jobInfo jobAnalysis specialInstructions
                               templateStyle w1)
    = fst (generateCoverLetterIO resumeInfo jobInfo jobAnalysis specialInstructions
                                 templateStyle w2).
Proof.
  intros w1 w2 text profile jd r j a si style Hday.
  split; [reflexivity | split; [reflexivity|]].
  unfold generateCoverLetterIO, bind, consoleLog, newDate, ret. lazy beta iota zeta delta [fst clock].
  apply generateCoverLetterWith_date, formatDate_sameDay, Hday.
Qed.

(** C9 on two worlds of the same day that differ in the hour and in the
    console. *)
Lemma pipeline_deterministic_witness :
  fst (generateCoverLetterIO sampleInfo sampleJob sampleAnalysis None (Some "modern")
                             morningWorld)
  = fst (generateCoverLetterIO sampleInfo sampleJob sampleAnalysis None (Some "modern")
                               eveningWorld).
Proof.
  apply (pipeline_deterministic morningWorld eveningWorld EmptyString None EmptyString
           sampleInfo sampleJob sampleAnalysis None (Some "modern")).
  repeat split; reflexivity.
Defined.

(** ** Responsibilities *)

Lemma responsibility_fold (jobDescription : string) (patterns : list regex) (acc : list string) :
  fold_left (responsibilityStep jobDescription) patterns acc
  = (acc ++ flat_map (fragmentsOf jobDescription) patterns)%list.
Proof.
  revert acc; induction patterns as [|p ps IH]; intros acc; simpl.
  - now rewrite app_nil_r.
  - rewrite IH. unfold responsibilityStep. now rewrite <- app_assoc.
Qed.

(** The action-verb loop with its [break] keeps the first three matching
    sentences. *)
Lemma sentenceLoop_firstn (sentences acc : list string) :
  List.length acc < 3 ->
  sentenceLoop sentences acc
  = firstn 3 (acc ++ map trim (filter hasActionVerb sentences))%list.
Proof.
  revert acc; induction sentences as [|s ss IH]; intros acc Hacc.
  - cbn [sentenceLoop filter map]. rewrite app_nil_r. symmetry. apply firstn_all2. lia.
  - cbn [sentenceLoop filter].
    change (existsb (fun verb => includes (toLowerCase s) verb) actionVerbs)
      with (hasActionVerb s).
    destruct (hasActionVerb s).
    + cbn [map]. replace (acc ++ trim s :: map trim (filter hasActionVerb ss))%list
        with ((acc ++ [trim s]) ++ map trim (filter hasActionVerb ss))%list
        by (rewrite <- app_assoc; reflexivity).
      destruct (Nat.leb 3 (List.length (acc ++ [trim s]))) eqn:L.
      * apply Nat.leb_le in L. rewrite length_app in L. simpl in L.
        assert (E : List.length (acc ++ [trim s]) = 3)
          by (rewrite length_app; simpl; lia).
        rewrite firstn_app, E, Nat.sub_diag, firstn_O, app_nil_r.
        symmetry. apply firstn_all2. lia.
      * apply Nat.leb_gt in L. now apply IH.
    + assert (L : Nat.leb 3 (List.length acc) = false) by (apply Nat.leb_gt; lia).
      rewrite L. now apply IH.
Qed.

Lemma firstTrigger_none (patterns : list regex) (jobDescription : string) :
  (forall pattern, In pattern patterns -> exec true pattern jobDescription = None) ->
  firstTrigger patterns jobDescription = None /\
  flat_map (fragmentsOf jobDescription) patterns = [].
Proof.
  induction patterns as [|p ps IH]; intros H; cbn [firstTrigger flat_map];
    [split; reflexivity|].
  destruct IH as [IH1 IH2]; [intros x Hx; apply H; now right|].
  rewrite IH1, IH2. unfold fragmentsOf. rewrite (H p (or_introl eq_refl)).
  split; reflexivity.
Qed.

(** C7 (as the code has it).  The trigger patterns are tried in their fixed
    order and every one that matches contributes: each adds the kept
    fragments of its first capture (split on [,] and [;], trimmed, longer
    than 10 characters), in pattern order.  When no fragment at all was
    kept, the sentence path is taken: the first 3 sentences (split on runs
    of [.!?], trimmed) that name an action verb.  The result is capped to 3
    entries on both paths, and agrees with the first-match-wins reading when
    no trigger matches. *)
Theorem analyzeJob_keyResponsibilities :
  forall (jobDescription : string) (resumeInfo : ResumeInfo),
    let found := keyResponsibilities (analyzeJob jobDescription resumeInfo) in
    let triggered := flat_map (fragmentsOf jobDescription) responsibilityPatterns in
    found = firstn 3 (match triggered with
                      | [] => verbSentences jobDescription
                      | _ :: _ => triggered
                      end) /\
    List.length found <= 3 /\
    (forall pattern,
        fragmentsOf jobDescription pattern =
        match truthyGroup 1 (exec true pattern jobDescription) with
        | Some capture => keptFragments capture
        | None => []
        end) /\
    ((forall pattern, In pattern responsibilityPatterns ->
                      exec true pattern jobDescription = None) ->
     found = firstMatchResponsibilities jobDescription).
Proof.
  intros jd r found triggered.
  assert (E : found = firstn 3 (match triggered with
                                | [] => verbSentences jd
                                | _ :: _ => triggered
                                end)).
  { unfold found, analyzeJob. lazy beta iota zeta delta [keyResponsibilities].
    unfold extractResponsibilities, slice0. rewrite responsibility_fold.
    change ([] ++ flat_map (fragmentsOf jd) responsibilityPatterns)%list with triggered.
    destruct triggered; [|reflexivity].
    rewrite sentenceLoop_firstn by (simpl; lia).
    change ([] ++ ?x)%list with x. reflexivity. }
  split; [exact E|]. split; [rewrite E; apply firstn_le_length|].
  split; [reflexivity|].
  intros Hno. rewrite E. unfold firstMatchResponsibilities.
  destruct (firstTrigger_none _ _ Hno) as [-> Ht]. fold triggered in Ht. rewrite Ht.
  reflexivity.
Qed.

(** C7, the claim as worded fails: when two trigger phrases occur, both
    contribute, where first-match-wins keeps the first one's fragments only. *)
Lemma analyzeJob_keyResponsibilities_two_triggers :
  keyResponsibilities (analyzeJob twoTriggers emptyInfo)
    = ["writing code daily"; "manage the whole team"] /\
  firstMatchResponsibilities twoTriggers = ["writing code daily"].
Proof. split; vm_compute; reflexivity. Qed.

(** ** Special instructions *)

Lemma hasInk_app (a b : string) : hasInk (a ++ b) = hasInk a || hasInk b.
Proof.
  induction a as [|c a IH]; simpl; [reflexivity|]. rewrite IH. apply orb_assoc.
Qed.

Lemma ink_l (a b : string) : hasInk a = true -> hasInk (a ++ b) = true.
Proof. intros H. now rewrite hasInk_app, H. Qed.

Lemma ink_r (a b : string) : hasInk b = true -> hasInk (a ++ b) = true.
Proof. intros H. rewrite hasInk_app, H. apply orb_true_r. Qed.

Lemma trimStart_app (a b : string) :
  hasInk a = true -> trimStart (a ++ b) = trimStart a ++ b.
Proof.
  induction a as [|c a IH]; simpl; [discriminate|].
  destruct (isSpace c); simpl; [exact IH | reflexivity].
Qed.

Lemma trimEnd_empty (b : string) : isEmpty (trimEnd b) = negb (hasInk b).
Proof.
  induction b as [|c b IH]; simpl; [reflexivity|].
  rewrite IH. destruct (isSpace c), (hasInk b); reflexivity.
Qed.

Lemma trimEnd_app (a b : string) :
  hasInk b = true -> trimEnd (a ++ b) = a ++ trimEnd b.
Proof.
  intros Hb. induction a as [|c a IH]; simpl; [reflexivity|].
  rewrite IH. replace (isEmpty (a ++ trimEnd b)) with false; [now rewrite andb_false_r|].
  symmetry. destruct a; simpl; [|reflexivity].
  now rewrite trimEnd_empty, Hb.
Qed.

Lemma trimStart_hasInk (s : string) : hasInk (trimStart s) = hasInk s.
Proof.
  induction s as [|c s IH]; simpl; [reflexivity|].
  destruct (isSpace c) eqn:E; simpl; [exact IH | now rewrite E].
Qed.

Lemma trimEnd_hasInk (s : string) : hasInk (trimEnd s) = hasInk s.
Proof.
  induction s as [|c s IH]; cbn [trimEnd hasInk]; [reflexivity|].
  rewrite trimEnd_empty.
  destruct (isSpace c) eqn:C, (hasInk s) eqn:E; cbn [negb andb hasInk];
    rewrite ?C, ?IH; reflexivity.
Qed.

Lemma trim_hasInk (s : string) : hasInk (trim s) = hasInk s.
Proof. unfold trim. now rewrite trimEnd_hasInk, trimStart_hasInk. Qed.

Lemma hasInk_not_empty (s : string) : hasInk s = true -> s <> EmptyString.
Proof. now destruct s. Qed.

(** A text is blank exactly when trimming leaves nothing. *)
Lemma trim_blank (s : string) : trim s = EmptyString <-> hasInk s = false.
Proof.
  pose proof (trimEnd_empty (trimStart s)) as H. rewrite trimStart_hasInk in H.
  unfold trim. destruct (trimEnd (trimStart s)), (hasInk s); cbn [isEmpty negb] in H;
    split; congruence.
Qed.

(** Text spliced between visible texts is still there after [trim]. *)
Lemma spliced_trim (x s : string) : Spliced x s -> includes (trim s) x = true.
Proof.
  intros (a & b & -> & Ha & Hb). unfold trim.
  rewrite trimStart_app by exact Ha.
  rewrite trimEnd_app by (apply ink_r; exact Hb).
  rewrite trimEnd_app by exact Hb.
  apply includes_app.
Qed.

Lemma after_here (x b : string) : hasInk b = true -> InkAfter x (x ++ b).
Proof. intros H. exists EmptyString, b. now split. Qed.

Lemma after_cons (x p s : string) : InkAfter x s -> InkAfter x (p ++ s).
Proof.
  intros (a & b & -> & H). exists (p ++ a), b. split; [|exact H].
  now rewrite append_assoc.
Qed.

Lemma spliced_ink (x p s : string) : hasInk p = true -> InkAfter x s -> Spliced x (p ++ s).
Proof.
  intros Hp (a & b & -> & H). exists (p ++ a), b. repeat split; [|now apply ink_l|exact H].
  now rewrite append_assoc.
Qed.

Lemma spliced_cons (x p s : string) : Spliced x s -> Spliced x (p ++ s).
Proof.
  intros (a & b & -> & Ha & Hb). exists (p ++ a), b. repeat split; [|now apply ink_r|exact Hb].
  now rewrite append_assoc.
Qed.

Ltac ink := first [ reflexivity | apply ink_l; reflexivity | apply ink_r; ink ].
Ltac ink_after := first [ apply after_here; ink | apply after_cons; ink_after ].
Ltac spliced :=
  first [ apply spliced_ink; [reflexivity | ink_after] | apply spliced_cons; spliced ].




















(** ** Absent values in the letters *)

Lemma orValue_defined (a : option string) (s : string) :
  exists x, orValue a (Some s) = Some x.
Proof.
  unfold orValue. destruct (truthyValue a) eqn:E; [|now exists s].
  destruct a as [x|]; [now exists x | discriminate].
Qed.

(** Where the skills list is not empty, whichever of education, work
    history, bio, matched skills and key responsibilities is empty, the
    letter of every style prints no absent value: it is the same text
    whatever the runtime would print for [undefined]. *)
Lemma generateCoverLetter_no_undefined :
  forall (undef : string) (today : Date) (resumeInfo : ResumeInfo) (jobInfo : JobInfo)
         (jobAnalysis : JobAnalysis) (specialInstructions templateStyle : option string),
    skills resumeInfo <> [] ->
    generateCoverLetterWith undef today resumeInfo jobInfo jobAnalysis specialInstructions
                            templateStyle
    = generateCoverLetter today resumeInfo jobInfo jobAnalysis specialInstructions
                          templateStyle.
Proof.
  intros undef today resumeInfo jobInfo jobAnalysis specialInstructions templateStyle H.
  destruct resumeInfo as [n e p ad sk ex ed wh b]. cbn [skills] in H.
  destruct sk as [|s0 sk]; [contradiction|].
  unfold generateCoverLetter, generateCoverLetterWith, generateModernTemplate,
    generateCreativeTemplate, generateTraditionalTemplate, generateProfessionalTemplate.
  destruct (orValue_defined (nth_error (matchedSkills jobAnalysis) 0) s0) as [x Ex].
  lazy beta iota zeta.
  change (nth_error (s0 :: sk) 0) with (Some s0). rewrite Ex.
  destruct (matchedSkills jobAnalysis); reflexivity.
Qed.

(** So it is on the zero-data path: the record extracted from the empty
    resume. *)
Lemma generateCoverLetter_no_undefined_witness :
  generateCoverLetterWith "?" sampleDate emptyInfo sampleJob emptyAnalysis None
                          (Some "creative")
  = generateCoverLetter sampleDate emptyInfo sampleJob emptyAnalysis None (Some "creative").
Proof.
  apply (generateCoverLetter_no_undefined "?" sampleDate emptyInfo sampleJob emptyAnalysis
           None (Some "creative")).
  vm_compute. discriminate.
Defined.

(** C8 fails on the code.  With an empty skills list the letter of every
    style holds the text "undefined", whatever the other inputs are: each
    template prints [skills[0]] without the guard that it has for
    [skills[1]], [matchedSkills[0]], the work history and the education. *)
Theorem generateCoverLetter_undefined_skill :
  forall (today : Date) (resumeInfo : ResumeInfo) (jobInfo : JobInfo)
         (jobAnalysis : JobAnalysis) (specialInstructions templateStyle : option string),
    skills resumeInfo = [] ->
    includes (generateCoverLetter today resumeInfo jobInfo jobAnalysis specialInstructions
                                  templateStyle)
             "undefined" = true.
Proof.
  intros today r j a si style H. destruct r as [n e p ad sk ex ed wh b].
  cbn [skills] in H. subst sk.
  unfold generateCoverLetter, generateCoverLetterWith.
  lazy zeta.
  destruct (String.eqb _ "modern");
    [| destruct (String.eqb _ "creative"); [| destruct (String.eqb _ "traditional")]];
    [ unfold generateModernTemplate | unfold generateCreativeTemplate
    | unfold generateTraditionalTemplate | unfold generateProfessionalTemplate ];
    lazy beta iota zeta;
    change (interp undefinedText (nth_error (@nil string) 0)) with "undefined";
    rewrite ?append_assoc; apply spliced_trim; spliced.
Qed.

(** C8 at the failing input: a resume record without skills, as the
    extractor of the backend returns when it finds none, in the default
    style. *)
Lemma generateCoverLetter_undefined_skill_witness :
  includes (generateCoverLetter sampleDate noSkillsInfo sampleJob
              (analyzeJob sampleJobDescription noSkillsInfo) None None)
           "undefined" = true.
Proof.
  apply (generateCoverLetter_undefined_skill sampleDate noSkillsInfo sampleJob
           (analyzeJob sampleJobDescription noSkillsInfo) None None).
  reflexivity.
Defined.

(** The four letters at that input. *)
Lemma generateCoverLetter_prints_undefined :
  forallb (fun style =>
             includes (generateCoverLetter sampleDate noSkillsInfo sampleJob
                         (analyzeJob sampleJobDescription noSkillsInfo) None (Some style))
                      "undefined")
          ["professional"; "modern"; "creative"; "traditional"] = true.
Proof. vm_compute. reflexivity. Qed.

(** On the zero-data path of the pipeline (empty resume, empty job
    description) the four letters hold neither "undefined" nor "null" nor
    an unexpanded [${] marker. *)
Lemma zero_data_letters_clean :
  forallb (fun style =>
             let letter := generateCoverLetter sampleDate emptyInfo sampleJob emptyAnalysis
                                               None (Some style) in
             negb (includes letter "undefined") && negb (includes letter "null")
             && negb (includes letter "${"))
          ["professional"; "modern"; "creative"; "traditional"] = true.
Proof. vm_compute. reflexivity. Qed.

(** ** Profile override and the work-history cap *)

Lemma isEmpty_false (s : string) : s <> EmptyString -> isEmpty s = false.
Proof. destruct s; [congruence | reflexivity]. Qed.

(** A non-empty profile value for name, email, phone, address or bio is
    used verbatim: extraction of that field is skipped. *)
Theorem extractResumeInfo_profile_priority :
  forall (resumeText : string) (userProfile : option UserProfile),
    let info := extractResumeInfo resumeText userProfile in
    (profileField profile_name userProfile <> EmptyString ->
     name info = profileField profile_name userProfile) /\
    (profileField profile_email userProfile <> EmptyString ->
     email info = profileField profile_email userProfile) /\
    (profileField profile_phone userProfile <> EmptyString ->
     phone info = profileField profile_phone userProfile) /\
    (profileField profile_address userProfile <> EmptyString ->
     address info = profileField profile_address userProfile) /\
    (profileField profile_bio userProfile <> EmptyString ->
     bio info = profileField profile_bio userProfile).
Proof.
  intros text profile info. unfold info, extractResumeInfo.
  lazy beta zeta iota delta [name email phone address bio].
  repeat split; intros H; now rewrite (isEmpty_false _ H).
Qed.

(** The work history holds at most 3 entries. *)
Theorem extractResumeInfo_workHistory_cap :
  forall (resumeText : string) (userProfile : option UserProfile),
    List.length (workHistory (extractResumeInfo resumeText userProfile)) <= 3.
Proof.
  intros text profile. rewrite workHistory_unfold. unfold extractWorkHistory, slice0.
  match goal with |- context [firstn 3 ?l] =>
    pose proof (firstn_le_length 3 l) as H; destruct (firstn 3 l) end;
    [simpl; lia | exact H].
Qed.

(** ** The end-to-end scenario of the specification *)

Lemma end_to_end_scenario :
  name sampleInfo = "Jane Roe" /\
  email sampleInfo = "jane.roe@example.com" /\
  phone sampleInfo = "(555) 111-2222" /\
  skills sampleInfo = ["Python"; "R"; "SQL"; "Data Visualization"] /\
  matchedSkills sampleAnalysis = ["Python"; "R"; "SQL"] /\
  keyResponsibilities sampleAnalysis = ["analyze data"; "build dashboards"; "present findings"] /\
  let letter := generateCoverLetter sampleDate sampleInfo sampleJob sampleAnalysis None
                                    (Some "professional") in
  includes letter "Jane Roe" = true /\
  includes letter "Acme Labs" = true /\
  includes letter "Data Analyst" = true /\
  includes letter "undefined" = false.
Proof. repeat split; vm_compute; reflexivity. Qed.

(** * Further properties of the pipeline *)

(** ** What the matcher returns is text of the input *)

Lemma occursIn_refl (s : string) : occursIn s s.
Proof. exists EmptyString, EmptyString. simpl. induction s; simpl; congruence. Qed.

Lemma occursIn_trans (a b c : string) : occursIn a b -> occursIn b c -> occursIn a c.
Proof.
  intros (x & y & ->) (u & v & ->). exists (u ++ x), (y ++ v).
  now rewrite !append_assoc.
Qed.

Lemma occursIn_includes (v s : string) : occursIn v s <-> includes s v = true.
Proof.
  split; [intros (a & b & ->); apply includes_app | apply includes_inv].
Qed.

Lemma take_prefix (n : nat) (s : string) : exists b, s = take n s ++ b.
Proof.
  revert s; induction n as [|n IH]; intros s; [now exists s; destruct s|].
  destruct s as [|c s]; [now exists EmptyString|].
  destruct (IH s) as [b E]. exists b. simpl. now rewrite <- E.
Qed.

Lemma take_occurs (n : nat) (x s : string) :
  (exists pre, s = pre ++ x) -> occursIn (take n x) s.
Proof.
  intros [pre ->]. destruct (take_prefix n x) as [b E].
  exists pre, b. now rewrite <- E.
Qed.

Lemma insideInput_caps (s : string) (st st' : mstate) :
  st_rest st' = st_rest st ->
  (forall p, In p (st_caps st') -> In p (st_caps st)) ->
  insideInput s st -> insideInput s st'.
Proof.
  intros Er Hc [Hs Hv]. split; [now rewrite Er|].
  intros n v H. apply (Hv n v), Hc, H.
Qed.

Lemma insideInput_clearCaps (s : string) (gs : list nat) (st : mstate) :
  insideInput s st -> insideInput s (clearCaps gs st).
Proof.
  apply insideInput_caps; [reflexivity|]. intros p H. cbn [clearCaps st_caps] in H.
  now apply filter_In in H.
Qed.

Lemma iterate_inside (s : string) (body : matcher) (k : cont) (greedy : bool) :
  staysInside s body ->
  forall (fuel mn : nat) (mx : option nat) (st z : mstate),
    insideInput s st ->
    iterate body k greedy fuel mn mx st = Some z ->
    exists st', insideInput s st' /\ k st' = Some z.
Proof.
  intros Hb. induction fuel as [|fuel IH]; intros mn mx st z W H; cbn [iterate] in H.
  - now exists st.
  - assert (Hk : k st = Some z -> exists st', insideInput s st' /\ k st' = Some z)
      by (intros E; now exists st).
    assert (Hd : forall d, d = (fun st' =>
                     if Nat.eqb mn 0 && Nat.eqb (st_pos st') (st_pos st) then None
                     else iterate body k greedy fuel (Nat.pred mn) (option_map Nat.pred mx) st') ->
                   body d st = Some z -> exists st', insideInput s st' /\ k st' = Some z).
    { intros d -> E. apply (Hb _ _ _ W) in E as (st1 & W1 & E1).
      destruct (_ && _); [discriminate|]. now apply IH in E1. }
    destruct mx as [[|m]|]; [now apply Hk | |];
      (destruct (Nat.ltb 0 mn); [now apply (Hd _ eq_refl)|];
       destruct greedy;
       [ destruct (body _ st) eqn:B; [injection H as ->; now apply (Hd _ eq_refl) | now apply Hk]
       | destruct (k st) eqn:K; [injection H as ->; now apply Hk | now apply (Hd _ eq_refl)] ]).
Qed.

Lemma run_inside (s : string) (ic : bool) (r : regex) : staysInside s (run ic r).
Proof.
  assert (Hstep : forall ok, staysInside s (step ok)).
  { intros ok k st z [[pre E] Hv] H. unfold step in H.
    destruct (st_rest st) as [|d rest] eqn:R; [discriminate|].
    destruct (ok d); [|discriminate].
    exists (advance d rest st). split; [|exact H]. split; [|exact Hv].
    exists (pre ++ String d EmptyString). cbn [advance st_rest].
    now rewrite append_assoc. }
  assert (Hhere : forall (c : bool) (k : cont) (st z : mstate),
             insideInput s st -> (if c then k st else None) = Some z ->
             exists st', insideInput s st' /\ k st' = Some z).
  { intros c k st z W H. destruct c; [now exists st | discriminate]. }
  induction r as [|c| |neg items|r1 IH1 r2 IH2|r1 IH1 r2 IH2|mn mx greedy r IH|n r IH| | |];
    intros k st z W H; cbn [run] in H;
    try (now apply (Hstep _ _ _ _ W) in H); try (now apply (Hhere _ _ _ _ W) in H).
  - now exists st.
  - apply (IH1 _ _ _ W) in H as (st1 & W1 & H). now apply (IH2 _ _ _ W1) in H.
  - destruct (run ic r1 k st) eqn:E;
      [injection H as ->; now apply (IH1 _ _ _ W) in E | now apply (IH2 _ _ _ W) in H].
  - apply (iterate_inside s) in H; [exact H | | exact W].
    intros d st0 z0 W0 H0. apply IH in H0; [exact H0 | now apply insideInput_clearCaps].
  - apply (IH _ _ _ W) in H as (st' & [Hs Hv] & H).
    exists (setCap n (take (st_pos st' - st_pos st) (st_rest st)) st').
    split; [|exact H]. split; [exact Hs|].
    intros m v [E|Hin]; cbn [setCap st_caps] in *.
    + injection E as _ <-. apply take_occurs. apply W.
    + apply filter_In in Hin as [Hin _]. now apply (Hv m v).
Qed.

Lemma matchAt_inside (s : string) (ic : bool) (r : regex) (st : mstate) (m : MatchResult) :
  insideInput s st -> matchAt ic r st = Some m ->
  occursIn (m_text m) s /\ insideInput s (m_after m) /\
  forall n v, In (n, v) (m_caps m) -> occursIn v s.
Proof.
  intros W H. unfold matchAt in H. destruct (run ic r Some _) as [z|] eqn:E; [|discriminate].
  injection H as <-. cbn [m_text m_after m_caps].
  apply (run_inside s) in E as (st' & W' & E); [|now apply insideInput_clearCaps].
  injection E as ->. split; [apply take_occurs, W | split; [exact W' | apply W']].
Qed.

Lemma searchFrom_inside (s : string) (ic : bool) (r : regex) :
  forall (rest : string) (pos : nat) (prev : option ascii) (m : MatchResult),
    (exists pre, s = pre ++ rest) ->
    searchFrom ic r pos prev rest = Some m ->
    occursIn (m_text m) s /\ insideInput s (m_after m) /\
    forall n v, In (n, v) (m_caps m) -> occursIn v s.
Proof.
  induction rest as [|c rest IH]; intros pos prev m [pre E] H; cbn [searchFrom] in H;
    destruct (matchAt ic r _) as [m0|] eqn:M;
    try (injection H as ->; apply (matchAt_inside s) in M; [exact M|];
         split; [now exists pre | intros ? ? []]);
    try discriminate.
  apply IH in H; [exact H|]. exists (pre ++ String c EmptyString). now rewrite append_assoc.
Qed.

(** The text of a match, and every capture, is text of the input. *)
Lemma exec_occurs (ic : bool) (r : regex) (s : string) (m : MatchResult) :
  exec ic r s = Some m ->
  occursIn (m_text m) s /\ forall n g, group n m = Some g -> occursIn g s.
Proof.
  intros H. apply (searchFrom_inside s) in H as (Ht & _ & Hc); [|now exists EmptyString].
  split; [exact Ht|]. intros n g G. unfold group in G.
  destruct (find _ (m_caps m)) as [[n' v]|] eqn:F; [|discriminate].
  injection G as <-. apply find_some in F as [F _]. now apply (Hc n').
Qed.

Lemma truthyGroup_occurs (ic : bool) (r : regex) (s g : string) (n : nat) :
  truthyGroup n (exec ic r s) = Some g -> occursIn g s.
Proof.
  unfold truthyGroup. destruct (exec ic r s) as [m|] eqn:E; [|discriminate].
  destruct (group n m) as [v|] eqn:G; [|discriminate].
  destruct (truthy v); [|discriminate]. intros [= <-].
  now apply (proj2 (exec_occurs _ _ _ _ E) n).
Qed.

Lemma matchAllFrom_occurs (s : string) (ic : bool) (r : regex) :
  forall (fuel pos : nat) (prev : option ascii) (rest x : string),
    (exists pre, s = pre ++ rest) ->
    In x (matchAllFrom fuel ic r pos prev rest) -> occursIn x s.
Proof.
  induction fuel as [|fuel IH]; intros pos prev rest x Hr H; cbn [matchAllFrom] in H; [destruct H|].
  destruct (searchFrom ic r pos prev rest) as [m|] eqn:E; [|destruct H].
  apply (searchFrom_inside s) in E as (Ht & [Hs _] & _); [|exact Hr].
  destruct (Nat.eqb _ _).
  - destruct (st_rest (m_after m)) as [|c rest'] eqn:R.
    + destruct H as [<-|[]]. exact Ht.
    + destruct H as [<-|H]; [exact Ht|]. apply IH in H; [exact H|].
      destruct Hs as [pre ->]. exists (pre ++ String c EmptyString). now rewrite append_assoc.
  - destruct H as [<-|H]; [exact Ht|]. now apply IH in H.
Qed.

Lemma matchAll_occurs (ic : bool) (r : regex) (s x : string) :
  In x (matchAll ic r s) -> occursIn x s.
Proof. apply matchAllFrom_occurs. now exists EmptyString. Qed.

(** ** Extraction copies text of the resume *)

Lemma trimStart_suffix (s : string) : exists a, s = a ++ trimStart s.
Proof.
  induction s as [|c s [a IH]]; [now exists EmptyString|]. simpl.
  destruct (isSpace c); [exists (String c a); simpl; now rewrite <- IH | now exists EmptyString].
Qed.

Lemma trimEnd_prefix (s : string) : exists b, s = trimEnd s ++ b.
Proof.
  induction s as [|c s [b IH]]; [now exists EmptyString|]. simpl.
  destruct (isSpace c && isEmpty (trimEnd s)); [now exists (String c s)|].
  exists b. simpl. now rewrite <- IH.
Qed.

Lemma trim_occurs (s : string) : occursIn (trim s) s.
Proof.
  unfold trim. destruct (trimStart_suffix s) as [a Ea].
  destruct (trimEnd_prefix (trimStart s)) as [b Eb].
  exists a, b. now rewrite <- Eb.
Qed.

Lemma splitChar_head (sep : ascii) (s h : string) (t : list string) :
  splitChar sep s = h :: t -> exists b, s = h ++ b.
Proof.
  revert h t; induction s as [|c s IH]; intros h t H; cbn [splitChar] in H.
  - injection H as <- _. now exists EmptyString.
  - destruct (Ascii.eqb c sep); [injection H as <- _; now exists (String c s)|].
    destruct (splitChar sep s) as [|h' t'] eqn:E.
    + injection H as <- _. now exists s.
    + injection H as <- _. destruct (IH h' t' eq_refl) as [b ->]. now exists b.
Qed.

(** Every piece of [s.split(sep)] is text of [s]. *)
Lemma splitChar_occurs (sep : ascii) (s line : string) :
  In line (splitChar sep s) -> occursIn line s.
Proof.
  revert line; induction s as [|c s IH]; intros line H; cbn [splitChar] in H.
  - destruct H as [<-|[]]. apply occursIn_refl.
  - assert (Hs : In line (splitChar sep s) -> occursIn line (String c s)).
    { intros Hin. destruct (IH _ Hin) as (a & b & ->). now exists (String c a), b. }
    destruct (Ascii.eqb c sep).
    + destruct H as [<-|H]; [now exists EmptyString, (String c s) | now apply Hs].
    + destruct (splitChar sep s) as [|h t] eqn:E.
      * destruct H as [<-|[]]. now exists EmptyString, s.
      * destruct H as [<-|H]; [|apply Hs; now right].
        destruct (splitChar_head _ _ _ _ E) as [b ->]. now exists EmptyString, b.
Qed.

Lemma first_line_occurs (f : string -> bool) (s l : string) (t : list string) :
  filter f (splitChar (ascii_of_nat 10) s) = l :: t -> occursIn (trim l) s.
Proof.
  intros E. apply occursIn_trans with l; [apply trim_occurs|].
  apply (splitChar_occurs (ascii_of_nat 10)).
  assert (H : In l (filter f (splitChar (ascii_of_nat 10) s))) by (rewrite E; now left).
  now apply filter_In in H.
Qed.

Lemma phoneLoop_occurs (regexes : list regex) (resumeText : string) :
  occursIn (phoneLoop regexes resumeText EmptyString) resumeText.
Proof.
  induction regexes as [|r rs IH]; cbn [phoneLoop]; [now exists EmptyString, resumeText|].
  destruct (matchAll false r resumeText) as [|m ms] eqn:E; [exact IH|].
  apply (matchAll_occurs false r). rewrite E. now left.
Qed.

(** Contact data and education are never invented: unless the profile
    supplies the field, the name, email, phone and address returned are
    text of the resume (or empty), and so is the education in every case. *)
Theorem extractResumeInfo_verbatim :
  forall (resumeText : string) (userProfile : option UserProfile),
    let info := extractResumeInfo resumeText userProfile in
    (profileField profile_name userProfile = EmptyString ->
     includes resumeText (name info) = true) /\
    (profileField profile_email userProfile = EmptyString ->
     includes resumeText (email info) = true) /\
    (profileField profile_phone userProfile = EmptyString ->
     includes resumeText (phone info) = true) /\
    (profileField profile_address userProfile = EmptyString ->
     includes resumeText (address info) = true) /\
    includes resumeText (education info) = true.
Proof.
  intros text profile info. unfold info, extractResumeInfo.
  lazy beta zeta iota delta [name email phone address education].
  assert (Hempty : occursIn EmptyString text) by now exists EmptyString, text.
  repeat match goal with |- _ /\ _ => split end; try intros ->; cbn [isEmpty];
    apply occursIn_includes.
  - destruct (truthyGroup 1 (exec false nameRegex text)) as [g|] eqn:G;
      [now apply truthyGroup_occurs in G | exact Hempty].
  - destruct (matchAll true emailRegex text) as [|m ms] eqn:E; [exact Hempty|].
    apply (matchAll_occurs true emailRegex). rewrite E. now left.
  - apply phoneLoop_occurs.
  - destruct (filter isAddressLine _) as [|l t] eqn:E; [exact Hempty|].
    now apply first_line_occurs in E.
  - unfold extractEducation.
    destruct (truthyGroup 1 (exec true educationRegex text)) as [g|] eqn:G.
    + apply occursIn_trans with g; [apply trim_occurs | now apply truthyGroup_occurs in G].
    + destruct (filter _ _) as [|l t] eqn:E; [exact Hempty|].
      now apply first_line_occurs in E.
Qed.

(** ** Blank text and [trim] *)

Lemma trimEnd_idem (s : string) : trimEnd (trimEnd s) = trimEnd s.
Proof.
  induction s as [|c s IH]; simpl; [reflexivity|].
  destruct (isSpace c && isEmpty (trimEnd s)) eqn:E; [reflexivity|].
  simpl. now rewrite IH, E.
Qed.

Lemma trimStart_clean (s : string) :
  match s with EmptyString => True | String c _ => isSpace c = false end ->
  trimStart s = s.
Proof. destruct s as [|c s]; [reflexivity|]. simpl. now intros ->. Qed.

Lemma trimStart_starts (s : string) :
  match trimStart s with EmptyString => True | String c _ => isSpace c = false end.
Proof.
  induction s as [|c s IH]; simpl; [exact I|].
  destruct (isSpace c) eqn:E; [exact IH | exact E].
Qed.

(** Trimming twice is trimming once. *)
Lemma trim_idem (s : string) : trim (trim s) = trim s.
Proof.
  unfold trim. pose proof (trimStart_starts s) as H.
  destruct (trimStart s) as [|c t] eqn:E; [reflexivity|].
  assert (Hc : trimEnd (String c t) = String c (trimEnd t)) by (simpl; now rewrite H).
  rewrite Hc. rewrite trimStart_clean by exact H.
  rewrite <- Hc. apply trimEnd_idem.
Qed.

Lemma isSpace_toLowerChar (c : ascii) : isSpace (toLowerChar c) = isSpace c.
Proof. destruct c as [[] [] [] [] [] [] [] []]; reflexivity. Qed.

Lemma toLowerCase_hasInk (s : string) : hasInk (toLowerCase s) = hasInk s.
Proof.
  induction s as [|c s IH]; [reflexivity|]. unfold toLowerCase in *. simpl.
  now rewrite isSpace_toLowerChar, IH.
Qed.

Lemma includes_hasInk (s v : string) :
  includes s v = true -> hasInk v = true -> hasInk s = true.
Proof.
  intros H Hv. apply includes_inv in H as (a & b & ->).
  apply ink_r, ink_l, Hv.
Qed.

(** ** More on the extracted record *)

Lemma skillsKeywords_NoDup : NoDup skillsKeywords.
Proof.
  assert (E : nodup string_dec skillsKeywords = skillsKeywords) by (vm_compute; reflexivity).
  rewrite <- E. apply NoDup_nodup.
Qed.

(** The skills are vocabulary entries and none comes twice. *)
Theorem extractResumeInfo_skills_from_vocabulary :
  forall (resumeText : string) (userProfile : option UserProfile),
    let found := skills (extractResumeInfo resumeText userProfile) in
    incl found skillsKeywords /\ NoDup found.
Proof.
  intros text profile found. unfold found. rewrite skills_unfold.
  destruct (matchSkills text) as [|s l] eqn:E.
  - split.
    + intros x Hx. assert (B : existsb (String.eqb x) skillsKeywords = true).
      { repeat (destruct Hx as [<-|Hx]; [vm_compute; reflexivity|]). destruct Hx. }
      apply existsb_exists in B as (y & Hy & Exy). apply String.eqb_eq in Exy. now subst.
    + assert (D : nodup string_dec defaultSkills = defaultSkills) by (vm_compute; reflexivity).
      rewrite <- D. apply NoDup_nodup.
  - rewrite <- E. unfold matchSkills. split.
    + intros x Hx. now apply filter_In in Hx.
    + apply NoDup_filter, skillsKeywords_NoDup.
Qed.

(** ** A capture of [\d+] is a run of digits *)


Lemma length_app (a b : string) :
  String.length (a ++ b) = String.length a + String.length b.
Proof. induction a as [|c a IH]; [reflexivity|]. cbn. now rewrite IH. Qed.



















(** The work-history scan keeps only texts with something to read. *)
Lemma workStep_inky (s : WorkScan) (raw : string) :
  Forall (fun e => hasInk e = true) (positions s) ->
  (currentPosition s = EmptyString \/ hasInk (currentPosition s) = true) ->
  Forall (fun e => hasInk e = true) (positions (workStep s raw)) /\
  (currentPosition (workStep s raw) = EmptyString \/
   hasInk (currentPosition (workStep s raw)) = true).
Proof.
  intros Hp Hc. unfold workStep.
  destruct (test true workHistoryRegex (trim raw)); [now split|].
  destruct (inWorkSection s); [|now split].
  assert (Hline : truthy (trim raw) = true -> hasInk (trim raw) = true).
  { unfold truthy. intros H. destruct (hasInk (trim raw)) eqn:E; [reflexivity|].
    apply trim_blank in E. rewrite trim_idem in E. rewrite E in H. discriminate. }
  assert (H1 : forall s1,
             s1 = (if isEmpty (trim raw) && truthy (currentPosition s)
                   then {| inWorkSection := true; currentPosition := EmptyString;
                           positions := positions s ++ [currentPosition s] |}
                   else if truthy (trim raw)
                        then {| inWorkSection := true;
                                currentPosition :=
                                  if isEmpty (currentPosition s) then trim raw
                                  else currentPosition s ++ " " ++ trim raw;
                                positions := positions s |}
                        else s) ->
             Forall (fun e => hasInk e = true) (positions s1) /\
             (currentPosition s1 = EmptyString \/ hasInk (currentPosition s1) = true)).
  { intros s1 ->. destruct (isEmpty (trim raw) && truthy (currentPosition s)) eqn:A.
    - apply andb_true_iff in A as [_ A]. cbn [positions currentPosition]. split; [|now left].
      apply Forall_app. split; [exact Hp|]. constructor; [|constructor].
      destruct Hc as [E|E]; [rewrite E in A; discriminate | exact E].
    - destruct (truthy (trim raw)) eqn:T; [|now split].
      cbn [positions currentPosition]. split; [exact Hp|]. right.
      destruct (isEmpty (currentPosition s)); [now apply Hline|].
      apply ink_r, ink_r, Hline, eq_refl. }
  destruct (test true workSectionEnd (trim raw)); [|now apply H1].
  cbn [positions currentPosition]. now apply H1.
Qed.

Lemma workScan_inky (lines : list string) (s : WorkScan) :
  Forall (fun e => hasInk e = true) (positions s) ->
  (currentPosition s = EmptyString \/ hasInk (currentPosition s) = true) ->
  Forall (fun e => hasInk e = true) (positions (fold_left workStep lines s)) /\
  (currentPosition (fold_left workStep lines s) = EmptyString \/
   hasInk (currentPosition (fold_left workStep lines s)) = true).
Proof.
  revert s; induction lines as [|l ls IH]; intros s Hp Hc; [now split|].
  cbn [fold_left]. destruct (workStep_inky s l Hp Hc) as [Hp' Hc']. now apply IH.
Qed.

(** The work history has at most 3 entries and none of them is blank. *)
Theorem extractResumeInfo_workHistory_entries :
  forall (resumeText : string) (userProfile : option UserProfile),
    let history := workHistory (extractResumeInfo resumeText userProfile) in
    List.length history <= 3 /\
    forall entry, In entry history -> trim entry <> EmptyString.
Proof.
  intros text profile history. unfold history. rewrite workHistory_unfold.
  set (lines := splitChar (ascii_of_nat 10) text).
  assert (Hink : forall e, In e (extractWorkHistory lines) -> hasInk e = true).
  { unfold extractWorkHistory, slice0.
    destruct (workScan_inky lines
                {| inWorkSection := false; currentPosition := EmptyString; positions := [] |})
      as [Hp Hc]; [constructor | now left|].
    set (s := fold_left workStep lines _) in *.
    assert (Hall : Forall (fun e => hasInk e = true)
                     (if truthy (currentPosition s)
                      then (positions s ++ [currentPosition s])%list else positions s)).
    { destruct (truthy (currentPosition s)) eqn:T; [|exact Hp].
      apply Forall_app. split; [exact Hp|]. constructor; [|constructor].
      destruct Hc as [E|E]; [rewrite E in T; discriminate | exact E]. }
    intros e He. destruct (firstn 3 _) as [|w ws] eqn:F.
    - destruct He as [<-|[]]. reflexivity.
    - rewrite <- F in He. apply In_firstn in He.
      now apply (proj1 (Forall_forall _ _) Hall). }
  split.
  - unfold extractWorkHistory, slice0.
    match goal with |- context [firstn 3 ?l] =>
      pose proof (firstn_le_length 3 l) as H; destruct (firstn 3 l) end;
      [simpl; lia | exact H].
  - intros e He E. apply trim_blank in E. rewrite (Hink e He) in E. discriminate.
Qed.

(** ** More on the job analysis *)

Lemma requirements_unfold (jobDescription : string) (resumeInfo : ResumeInfo) :
  requirements (analyzeJob jobDescription resumeInfo) =
  filter (fun req => includes (toLowerCase jobDescription) req) requirementsKeywords.
Proof. reflexivity. Qed.

Lemma requirementsKeywords_lower (req : string) :
  In req requirementsKeywords -> toLowerCase req = req.
Proof.
  assert (B : forallb (fun r => String.eqb (toLowerCase r) r) requirementsKeywords = true)
    by (vm_compute; reflexivity).
  intros H. apply String.eqb_eq. exact (proj1 (forallb_forall _ _) B req H).
Qed.

(** A matched skill is a resume skill that the job description mentions
    (whatever the letter case), unless the list is the fallback made of the
    first 3 resume skills. *)
Theorem analyzeJob_matchedSkills_mentioned :
  forall (jobDescription : string) (resumeInfo : ResumeInfo),
    let matched := matchedSkills (analyzeJob jobDescription resumeInfo) in
    (forall skill, In skill matched ->
                   In skill (skills resumeInfo) /\ occursIgnoringCase skill jobDescription) \/
    matched = firstn 3 (skills resumeInfo).
Proof.
  intros jd r matched. unfold matched. rewrite matchedSkills_unfold.
  destruct (filter _ (skills r)) as [|m ms] eqn:F; [now right|]. left.
  intros skill H. rewrite <- F in H. apply filter_In in H as [Hin H]. split; [exact Hin|].
  apply existsb_lower_eq in H as (req & Hreq & E).
  rewrite requirements_unfold in Hreq. apply filter_In in Hreq as [Hv Hi].
  apply includes_lower_iff. rewrite <- E, (requirementsKeywords_lower req Hv). exact Hi.
Qed.

Lemma splitChar_first (sep : ascii) (s : string) :
  exists word, nth_error (splitChar sep s) 0 = Some word /\ occursIn word s.
Proof.
  destruct (splitChar sep s) as [|h t] eqn:E.
  - destruct s as [|c s]; cbn [splitChar] in E; [discriminate|].
    destruct (Ascii.eqb c sep); [discriminate|]. destruct (splitChar sep s); discriminate.
  - exists h. split; [reflexivity|]. destruct (splitChar_head _ _ _ _ E) as [b ->].
    now exists EmptyString, b.
Qed.

Lemma companyLoop_occurs (patterns : list regex) (jobDescription : string) :
  occursIn (companyLoop patterns jobDescription EmptyString) jobDescription.
Proof.
  induction patterns as [|p ps IH]; cbn [companyLoop]; [now exists EmptyString, jobDescription|].
  destruct (truthyGroup 1 (exec true p jobDescription)) as [g|] eqn:G; [|exact IH].
  apply occursIn_trans with g; [apply trim_occurs | now apply truthyGroup_occurs in G].
Qed.

(** The company insight is never empty: it is text of the job description
    (the trimmed capture of a company phrase), or the generic sentence
    built on the first word of the job description. *)
Theorem analyzeJob_companyInsights :
  forall (jobDescription : string) (resumeInfo : ResumeInfo),
    let insight := companyInsights (analyzeJob jobDescription resumeInfo) in
    insight <> EmptyString /\
    (includes jobDescription insight = true \/
     exists word, nth_error (splitChar " " jobDescription) 0 = Some word /\
                  includes jobDescription word = true /\
                  insight = word ++ "'s commitment to excellence and innovation in the industry").
Proof.
  intros jd r insight. unfold insight, analyzeJob.
  lazy beta zeta iota delta [companyInsights].
  pose proof (companyLoop_occurs companyPatterns jd) as Ho.
  destruct (companyLoop companyPatterns jd EmptyString) as [|c s] eqn:E; cbn [isEmpty].
  - destruct (splitChar_first " " jd) as (word & Ew & Hw). rewrite Ew. cbn [interp].
    split; [apply append_not_empty; discriminate|].
    right. exists word. repeat split. now apply occursIn_includes.
  - split; [discriminate|]. left. now apply occursIn_includes.
Qed.

Lemma keyResponsibilities_unfold (jobDescription : string) (resumeInfo : ResumeInfo) :
  keyResponsibilities (analyzeJob jobDescription resumeInfo) =
  firstn 3 (match flat_map (fragmentsOf jobDescription) responsibilityPatterns with
            | [] => verbSentences jobDescription
            | f :: fs => f :: fs
            end).
Proof.
  unfold analyzeJob. lazy beta iota zeta delta [keyResponsibilities].
  unfold extractResponsibilities, slice0. rewrite responsibility_fold.
  change ([] ++ flat_map (fragmentsOf jobDescription) responsibilityPatterns)%list
    with (flat_map (fragmentsOf jobDescription) responsibilityPatterns).
  destruct (flat_map _ _); [|reflexivity].
  rewrite sentenceLoop_firstn by (simpl; lia). reflexivity.
Qed.

Lemma actionVerbs_inky (verb : string) : In verb actionVerbs -> hasInk verb = true.
Proof.
  assert (B : forallb hasInk actionVerbs = true) by (vm_compute; reflexivity).
  exact (proj1 (forallb_forall _ _) B verb).
Qed.

(** There are at most 3 key responsibilities, and none is empty or padded
    with white space: each entry is already trimmed. *)
Theorem analyzeJob_keyResponsibilities_clean :
  forall (jobDescription : string) (resumeInfo : ResumeInfo),
    let entries := keyResponsibilities (analyzeJob jobDescription resumeInfo) in
    List.length entries <= 3 /\
    forall entry, In entry entries -> trim entry = entry /\ entry <> EmptyString.
Proof.
  intros jd r entries. unfold entries. clear entries.
  rewrite keyResponsibilities_unfold. split; [apply firstn_le_length|].
  intros e H. apply In_firstn in H.
  destruct (flat_map _ _) as [|f fs] eqn:F.
  - unfold verbSentences in H. apply In_firstn, in_map_iff in H as (s & <- & Hs).
    apply filter_In in Hs as [_ Hv]. split; [apply trim_idem|].
    apply existsb_exists in Hv as (verb & Hverb & Hi).
    apply hasInk_not_empty. rewrite trim_hasInk, <- toLowerCase_hasInk.
    apply (includes_hasInk _ verb Hi), actionVerbs_inky, Hverb.
  - rewrite <- F in H. apply in_flat_map in H as (p & _ & H). unfold fragmentsOf in H.
    destruct (truthyGroup 1 (exec true p jd)) as [g|]; [|destruct H].
    apply filter_In in H as [H L]. apply in_map_iff in H as (x & <- & _).
    split; [apply trim_idem|]. intros E. rewrite E in L. discriminate.
Qed.

Lemma matchedSkills_incl (jobDescription : string) (resumeInfo : ResumeInfo) :
  incl (matchedSkills (analyzeJob jobDescription resumeInfo)) (skills resumeInfo).
Proof.
  rewrite matchedSkills_unfold.
  destruct (filter _ (skills resumeInfo)) as [|m ms] eqn:F; intros s Hs.
  - exact (In_firstn 3 _ _ Hs).
  - rewrite <- F in Hs. exact (proj1 (proj1 (filter_In _ _ _) Hs)).
Qed.

Lemma matchedSkills_first (jobDescription : string) (resumeInfo : ResumeInfo) :
  skills resumeInfo <> [] ->
  exists first, nth_error (matchedSkills (analyzeJob jobDescription resumeInfo)) 0 = Some first.
Proof.
  intros H. rewrite matchedSkills_unfold.
  destruct (filter _ (skills resumeInfo)) as [|m ms]; [|now exists m].
  destruct (skills resumeInfo) as [|s l]; [congruence | now exists s].
Qed.

Lemma skills_not_empty (resumeText : string) (userProfile : option UserProfile) :
  skills (extractResumeInfo resumeText userProfile) <> [].
Proof.
  rewrite skills_unfold. destruct (matchSkills resumeText); discriminate.
Qed.

Lemma defaultSkills_incl : incl defaultSkills skillsKeywords.
Proof.
  intros x Hx. assert (B : existsb (String.eqb x) skillsKeywords = true).
  { repeat (destruct Hx as [<-|Hx]; [vm_compute; reflexivity|]). destruct Hx. }
  apply existsb_exists in B as (y & Hy & Exy). apply String.eqb_eq in Exy. now subst.
Qed.

Lemma matchSkills_incl (resumeText : string) : incl (matchSkills resumeText) skillsKeywords.
Proof.
  unfold matchSkills. intros x Hx. apply filter_In in Hx. exact (proj1 Hx).
Qed.

Lemma skills_incl (resumeText : string) (userProfile : option UserProfile) :
  incl (skills (extractResumeInfo resumeText userProfile)) skillsKeywords.
Proof.
  rewrite skills_unfold. pose proof (matchSkills_incl resumeText) as H.
  destruct (matchSkills resumeText) as [|s l]; [exact defaultSkills_incl | exact H].
Qed.

(** Run on a record of the extractor, the analysis always has a first
    matched skill, and every matched skill is a vocabulary entry. *)
Theorem pipeline_matchedSkills_defined :
  forall (resumeText : string) (userProfile : option UserProfile) (jobDescription : string),
    let info := extractResumeInfo resumeText userProfile in
    let matched := matchedSkills (analyzeJob jobDescription info) in
    (exists first, nth_error matched 0 = Some first) /\
    incl matched skillsKeywords.
Proof.
  intros text profile jd info matched. split.
  - apply matchedSkills_first, skills_not_empty.
  - intros s Hs. apply (skills_incl text profile), (matchedSkills_incl jd info), Hs.
Qed.

(** ** More on the letters *)

Ltac open_templates :=
  unfold generateCoverLetter, generateCoverLetterWith, generateModernTemplate,
    generateCreativeTemplate, generateTraditionalTemplate, generateProfessionalTemplate.

Ltac each_style :=
  destruct (String.eqb _ "modern");
  [| destruct (String.eqb _ "creative"); [| destruct (String.eqb _ "traditional")]].

Lemma trim_inky (s : string) : hasInk s = true -> trim (trim s) = trim s /\ trim s <> EmptyString.
Proof.
  intros H. split; [apply trim_idem|]. intros E. apply trim_blank in E. congruence.
Qed.

(** A letter is never blank, and it neither starts nor ends with white
    space: trimming it changes nothing. *)
Theorem generateCoverLetter_trimmed :
  forall (today : Date) (resumeInfo : ResumeInfo) (jobInfo : JobInfo)
         (jobAnalysis : JobAnalysis) (specialInstructions templateStyle : option string),
    let letter := generateCoverLetter today resumeInfo jobInfo jobAnalysis
                                      specialInstructions templateStyle in
    trim letter = letter /\ letter <> EmptyString.
Proof.
  intros today r j a si style letter. unfold letter. open_templates.
  destruct r as [n e p ad sk ex ed wh b]. lazy beta iota zeta.
  each_style; apply trim_inky; ink.
Qed.

Lemma trimStart_blank (a s : string) : hasInk a = false -> trimStart (a ++ s) = trimStart s.
Proof.
  induction a as [|c a IH]; [reflexivity|]. cbn [hasInk append trimStart].
  destruct (isSpace c); [exact IH | discriminate].
Qed.

Lemma trimEnd_blank (s w : string) : hasInk w = false -> trimEnd (s ++ w) = trimEnd s.
Proof.
  intros H. induction s as [|c s IH].
  - pose proof (trimEnd_empty w) as E. rewrite H in E.
    change (EmptyString ++ w) with w. destruct (trimEnd w); [reflexivity | discriminate].
  - cbn [append trimEnd]. rewrite IH. reflexivity.
Qed.

Lemma append_empty (s : string) : s ++ EmptyString = s.
Proof. induction s as [|c s IH]; [reflexivity|]. cbn [append]. now rewrite IH. Qed.

Lemma trimStart_formatDate (today : Date) (s : string) :
  trimStart (formatDate today ++ s) = formatDate today ++ s.
Proof.
  unfold formatDate, showN. destruct (N.to_uint (getMonth today + 1)); reflexivity.
Qed.

(** Text with visible text after it survives [trim] when white space before
    it cannot be taken for its own. *)
Lemma after_trim (x s : string) :
  (forall t, trimStart (x ++ t) = x ++ t) -> InkAfter x s -> includes (trim s) x = true.
Proof.
  intros Hx (a & b & -> & Hb). destruct (hasInk a) eqn:Ha.
  - apply spliced_trim. now exists a, b.
  - unfold trim. rewrite trimStart_blank, Hx by exact Ha.
    rewrite trimEnd_app by exact Hb. apply (includes_app EmptyString).
Qed.

(** Every letter prints the company, the job title, the phone number and
    the experience phrase as given, and the date; every style but the
    creative one prints the e-mail address as given. *)
Theorem generateCoverLetter_prints :
  forall (today : Date) (resumeInfo : ResumeInfo) (jobInfo : JobInfo)
         (jobAnalysis : JobAnalysis) (specialInstructions templateStyle : option string),
    let letter := generateCoverLetter today resumeInfo jobInfo jobAnalysis
                                      specialInstructions templateStyle in
    includes letter (companyName jobInfo) = true /\
    includes letter (jobTitle jobInfo) = true /\
    includes letter (phone resumeInfo) = true /\
    includes letter (experience resumeInfo) = true /\
    includes letter (formatDate today) = true /\
    (templateStyle <> Some "creative" -> includes letter (email resumeInfo) = true).
Proof.
  intros today r j a si style letter. unfold letter. open_templates.
  destruct r as [n e p ad sk ex ed wh b]. lazy beta iota zeta.
  destruct (String.eqb _ "modern");
    [| destruct (String.eqb_spec (match style with Some s => s | None => "professional" end)
                                 "creative") as [C|C];
       [| destruct (String.eqb _ "traditional")]];
    (split; [apply spliced_trim; spliced|]);
    (split; [apply spliced_trim; spliced|]);
    (split; [apply spliced_trim; spliced|]);
    (split; [apply spliced_trim; spliced|]);
    (split; [apply after_trim; [apply trimStart_formatDate | ink_after]|]);
    intros S; try (apply spliced_trim; spliced).
  destruct style as [s|]; [|discriminate]. now subst s.
Qed.

Lemma blank_here (x w : string) : hasInk w = false -> BlankAfter x (x ++ w).
Proof. intros H. exists EmptyString, w. now split. Qed.

Lemma blank_cons (x p s : string) : BlankAfter x s -> BlankAfter x (p ++ s).
Proof.
  intros (a & w & -> & H). exists (p ++ a), w. split; [|exact H].
  now rewrite append_assoc.
Qed.

Lemma signed_ink (x p s : string) : hasInk p = true -> BlankAfter x s -> SignedOff x (p ++ s).
Proof.
  intros Hp (a & w & -> & H). exists (p ++ a), w. repeat split; [|now apply ink_l|exact H].
  now rewrite append_assoc.
Qed.

Lemma signed_cons (x p s : string) : SignedOff x s -> SignedOff x (p ++ s).
Proof.
  intros (a & w & -> & Ha & Hw). exists (p ++ a), w. repeat split; [|now apply ink_r|exact Hw].
  now rewrite append_assoc.
Qed.

Lemma signed_trim (x s : string) : SignedOff x s -> exists body, trim s = body ++ trimEnd x.
Proof.
  intros (a & w & -> & Ha & Hw). unfold trim. rewrite trimStart_app by exact Ha.
  rewrite <- append_assoc, trimEnd_blank by exact Hw.
  destruct (hasInk x) eqn:Hx.
  - exists (trimStart a). now apply trimEnd_app.
  - exists (trimEnd (trimStart a)). rewrite trimEnd_blank by exact Hx.
    pose proof (trimEnd_empty x) as E. rewrite Hx in E.
    destruct (trimEnd x); [now rewrite append_empty | discriminate].
Qed.

Ltac blank_after := first [ apply blank_here; reflexivity | apply blank_cons; blank_after ].
Ltac signed :=
  first [ apply signed_ink; [reflexivity | blank_after] | apply signed_cons; signed ].

(** Every letter ends with the applicant's name (less the white space at
    the end of the name, which the final trim removes). *)
Theorem generateCoverLetter_signed :
  forall (today : Date) (resumeInfo : ResumeInfo) (jobInfo : JobInfo)
         (jobAnalysis : JobAnalysis) (specialInstructions templateStyle : option string),
    exists body,
      generateCoverLetter today resumeInfo jobInfo jobAnalysis specialInstructions
                          templateStyle
      = body ++ trimEnd (name resumeInfo).
Proof.
  intros today r j a si style. open_templates.
  destruct r as [n e p ad sk ex ed wh b]. lazy beta iota zeta.
  each_style; apply signed_trim; signed.
Qed.

(** What the templates never read.  No style reads the text of the posting
    or the list of found requirements: the letter is written from the
    company name, the job title and the rest of the analysis.  The modern
    letter does not print the address; the creative letter prints neither
    the address, the bio nor the company insight; the traditional letter
    prints neither the bio, the key responsibilities nor the company
    insight. *)
Theorem generateCoverLetter_unused_inputs :
  forall (today : Date) (specialInstructions : option string)
         (name email phone address experience education bio : string)
         (skills workHistory : list string)
         (companyName jobTitle jobDescription : string)
         (requirements matchedSkills keyResponsibilities : list string)
         (companyInsights : string)
         (address' bio' companyInsights' jobDescription' : string)
         (requirements' keyResponsibilities' : list string),
    let info (address bio : string) :=
      {| name := name; email := email; phone := phone; address := address;
         skills := skills; experience := experience; education := education;
         workHistory := workHistory; bio := bio |} in
    let job (jobDescription : string) :=
      {| companyName := companyName; jobTitle := jobTitle;
         jobDescription := jobDescription |} in
    let analysis (requirements keyResponsibilities : list string) (companyInsights : string) :=
      {| requirements := requirements; matchedSkills := matchedSkills;
         keyResponsibilities := keyResponsibilities;
         companyInsights := companyInsights |} in
    let letter (style : option string) (info : ResumeInfo) (job : JobInfo)
               (analysis : JobAnalysis) :=
      generateCoverLetter today info job analysis specialInstructions style in
    (forall style,
        letter style (info address bio) (job jobDescription')
               (analysis requirements' keyResponsibilities companyInsights)
        = letter style (info address bio) (job jobDescription)
                 (analysis requirements keyResponsibilities companyInsights)) /\
    letter (Some "modern") (info address' bio) (job jobDescription)
           (analysis requirements keyResponsibilities companyInsights)
    = letter (Some "modern") (info address bio) (job jobDescription)
             (analysis requirements keyResponsibilities companyInsights) /\
    letter (Some "creative") (info address' bio') (job jobDescription)
           (analysis requirements keyResponsibilities companyInsights')
    = letter (Some "creative") (info address bio) (job jobDescription)
             (analysis requirements keyResponsibilities companyInsights) /\
    letter (Some "traditional") (info address bio') (job jobDescription)
           (analysis requirements keyResponsibilities' companyInsights')
    = letter (Some "traditional") (info address bio) (job jobDescription)
             (analysis requirements keyResponsibilities companyInsights).
Proof.
  intros. unfold letter, info, job, analysis. open_templates.
  repeat split; reflexivity.
Qed.

Lemma letter_defined (undef : string) (today : Date) (resumeInfo : ResumeInfo)
      (jobInfo : JobInfo) (jobAnalysis : JobAnalysis)
      (specialInstructions templateStyle : option string) (first : string) :
  nth_error (skills resumeInfo) 0 = Some first ->
  generateCoverLetterWith undef today resumeInfo jobInfo jobAnalysis specialInstructions
                          templateStyle
  = generateCoverLetter today resumeInfo jobInfo jobAnalysis specialInstructions
                        templateStyle.
Proof.
  intros H. destruct resumeInfo as [n e p ad sk ex ed wh b]. cbn [skills] in H.
  destruct sk as [|s0 sk]; [discriminate|]. injection H as ->.
  open_templates.
  destruct (orValue_defined (nth_error (matchedSkills jobAnalysis) 0) first) as [x Ex].
  lazy beta iota zeta. change (nth_error (first :: sk) 0) with (Some first). rewrite Ex.
  destruct (matchedSkills jobAnalysis); reflexivity.
Qed.

(** The whole pipeline prints no absent value.  Whatever the resume text,
    the profile, the job description and the style, the letter written from
    the extractor's and the analyser's results is the same text whatever the
    runtime would print for [undefined]: the defaults of the extractor cover
    every value the templates read without a guard. *)
Theorem pipeline_no_undefined :
  forall (undef : string) (today : Date) (resumeText : string)
         (userProfile : option UserProfile) (jobInfo : JobInfo)
         (specialInstructions templateStyle : option string),
    let info := extractResumeInfo resumeText userProfile in
    let analysis := analyzeJob (jobDescription jobInfo) info in
    generateCoverLetterWith undef today info jobInfo analysis specialInstructions
                            templateStyle
    = generateCoverLetter today info jobInfo analysis specialInstructions templateStyle.
Proof.
  intros undef today text profile j si style info analysis.
  pose proof (skills_not_empty text profile) as H. fold info in H.
  destruct (skills info) as [|first rest] eqn:E; [contradiction|].
  apply (letter_defined _ _ _ _ _ _ _ first). rewrite E. reflexivity.
Qed.

(** ** The request handler *)

Lemma answers_settles {A : Type} (Q : A -> Prop) (m : Async A) : answers Q m -> settles Q m.
Proof. intros H s. destruct (H s) as (a & E & Ha). now exists a, s. Qed.

Lemma settles_resolve {A : Type} (Q : A -> Prop) (a : A) : Q a -> settles Q (resolve a).
Proof. intros H s. now exists a, s. Qed.

Lemma settles_io {A : Type} (Q : A -> Prop) (m : IO A) :
  (forall w, Q (fst (m w))) -> settles Q (io m).
Proof.
  intros H s. unfold io. specialize (H (world s)). destruct (m (world s)) as [a w].
  now eexists _, _.
Qed.

Lemma settles_log (line : string) : settles (fun _ => True) (io (consoleLog line)).
Proof. now apply settles_io. Qed.

Lemma settles_andThen {A B : Type} (P : A -> Prop) (Q : B -> Prop) (m : Async A)
      (k : A -> Async B) :
  settles P m -> (forall a, P a -> settles Q (k a)) -> settles Q (andThen m k).
Proof.
  intros Hm Hk s. destruct (Hm s) as (a & s1 & E & I & Ha).
  destruct (Hk a Ha s1) as (b & s2 & E2 & I2 & Hb).
  exists b, s2. unfold andThen. rewrite E, E2. repeat split; [congruence | exact Hb].
Qed.

Lemma settles_then {A B : Type} (Q : B -> Prop) (m : Async A) (k : Async B) :
  settles (fun _ => True) m -> settles Q k -> settles Q (andThen m (fun _ => k)).
Proof. intros Hm Hk. now apply (settles_andThen (fun _ => True)). Qed.

Lemma keeps_settled {A : Type} (Q : A -> Prop) (m : Async A) : settles Q m -> keeps Q m.
Proof. intros H s. destruct (H s) as (a & s' & E & I & Ha). rewrite E. now split. Qed.

Lemma settles_tryCatch {A : Type} (Q : A -> Prop) (m : Async A) (handler : Thrown -> Async A) :
  keeps Q m -> (forall error, settles Q (handler error)) -> settles Q (tryCatch m handler).
Proof.
  intros Hm Hh s. destruct (Hm s) as [I Ha]. unfold tryCatch.
  destruct (m s) as [[a|e] s1]; cbn [fst snd] in *; [now exists a, s1|].
  destruct (Hh e s1) as (b & s2 & E & I2 & Hb).
  exists b, s2. repeat split; [exact E | congruence | exact Hb].
Qed.

Lemma settles_weaken {A : Type} (P Q : A -> Prop) (m : Async A) :
  (forall a, P a -> Q a) -> settles P m -> settles Q m.
Proof.
  intros H Hm s. destruct (Hm s) as (a & s' & E & I & Ha). exists a, s'. auto.
Qed.

Lemma settles_run {A B : Type} (P : A -> Prop) (m : Async A) (k : A -> Async B) (s : Server) :
  settles P m ->
  exists a s1, P a /\ inserted s1 = inserted s /\ andThen m k s = k a s1.
Proof.
  intros H. destruct (H s) as (a & s1 & E & I & Ha). exists a, s1.
  unfold andThen. now rewrite E.
Qed.

Ltac fetch_cases :=
  repeat match goal with
         | |- context [fetch ?sv ?u ?m ?b] => destruct (fetch sv u m b) as [[[] []]|] eqn:?
         end.

Ltac client_cases :=
  intros s; destruct (negb (USE_ML_BACKEND _));
  try (now eexists); unfold tryCatch, andThen, await, resolve;
  fetch_cases; cbn [negb]; now eexists.

Lemma checkApiHealth_answers (url use : option string) (services : Services) :
  answers (fun _ => True) (checkApiHealth url use services).
Proof. unfold checkApiHealth. client_cases. Qed.

Lemma generateCoverLetterML_answers (url use : option string) (services : Services)
      (resumeText : string) (jobInfo : JobInfo)
      (specialInstructions : option string) (templateStyle : string) :
  answers (fun _ => True)
          (generateCoverLetterML url use services resumeText jobInfo specialInstructions
                                 templateStyle).
Proof. unfold generateCoverLetterML. client_cases. Qed.

Lemma extractResumeInfoML_answers (url use : option string) (services : Services)
      (resumeText : string) :
  answers (fun _ => True) (extractResumeInfoML url use services resumeText).
Proof. unfold extractResumeInfoML. client_cases. Qed.

Lemma analyzeJobML_answers (url use : option string) (services : Services)
      (jobDescription : string) (resumeInfo : ResumeInfo) :
  answers (fun _ => True) (analyzeJobML url use services jobDescription resumeInfo).
Proof. unfold analyzeJobML. client_cases. Qed.

(** The client of the backend never throws and changes nothing on the
    server, whatever [fetch] and [response.json()] do: a failure of the
    network, an answer that is not OK and a body that does not parse all end
    in a result. *)
Theorem client_never_throws :
  forall (url use : option string) (services : Services) (resumeText : string)
         (jobInfo : JobInfo) (specialInstructions : option string) (templateStyle : string)
         (resumeInfo : ResumeInfo),
    answers (fun _ => True) (checkApiHealth url use services) /\
    answers (fun _ => True)
            (generateCoverLetterML url use services resumeText jobInfo specialInstructions
                                   templateStyle) /\
    answers (fun _ => True) (extractResumeInfoML url use services resumeText) /\
    answers (fun _ => True)
            (analyzeJobML url use services (jobDescription jobInfo) resumeInfo).
Proof.
  intros. repeat split.
  - apply checkApiHealth_answers.
  - apply generateCoverLetterML_answers.
  - apply extractResumeInfoML_answers.
  - apply analyzeJobML_answers.
Qed.

Lemma generateCoverLetterML_cases (url use : option string) (services : Services)
      (resumeText : string) (jobInfo : JobInfo) (specialInstructions : option string)
      (templateStyle : string) :
  answers (fun result =>
             ((exists reason, generate_error result = Some reason) /\
              result_coverLetter result = Some EmptyString) \/
             (generate_error result = None /\ USE_ML_BACKEND use = true /\
              exists response data,
                fetch services (API_URL url ++ "/api/generate-cover-letter") "POST"
                      (Some (GeneratePayload resumeText jobInfo specialInstructions
                                             templateStyle))
                = Returns response /\
                fetched_ok response = true /\ fetched_json response = Returns data /\
                result_coverLetter result = data_coverLetter data))
          (generateCoverLetterML url use services resumeText jobInfo specialInstructions
                                 templateStyle).
Proof.
  intros s. unfold generateCoverLetterML.
  destruct (USE_ML_BACKEND use); cbn [negb].
  - unfold tryCatch, andThen, await, resolve.
    destruct (fetch _ _ _ _) as [[[] [data|e]]|e]; cbn [negb fetched_ok fetched_json];
      eexists; (split; [reflexivity|]); cbn [generate_error result_coverLetter];
      try (left; split; [eexists|]; reflexivity).
    right. split; [reflexivity|]. split; [reflexivity|].
    now exists {| fetched_ok := true; fetched_json := Returns data |}, data.
  - eexists. split; [reflexivity|]. left. split; [eexists|]; reflexivity.
Qed.

(** What the client makes of the backend's answer.  A result of
    [generateCoverLetterML] either carries an error text and the empty
    letter, or it carries no error and the [coverLetter] field of the JSON
    body of an OK answer to the POST on [/api/generate-cover-letter]; with
    the backend switched off it is always the former. *)
Theorem generateCoverLetterML_result :
  forall (url use : option string) (services : Services) (resumeText : string)
         (jobInfo : JobInfo) (specialInstructions : option string) (templateStyle : string)
         (s : Server),
  exists result,
    generateCoverLetterML url use services resumeText jobInfo specialInstructions
                          templateStyle s = (Returns result, s) /\
    (((exists reason, generate_error result = Some reason) /\
      result_coverLetter result = Some EmptyString) \/
     (generate_error result = None /\ USE_ML_BACKEND use = true /\
      exists response data,
        fetch services (API_URL url ++ "/api/generate-cover-letter") "POST"
              (Some (GeneratePayload resumeText jobInfo specialInstructions templateStyle))
        = Returns response /\
        fetched_ok response = true /\ fetched_json response = Returns data /\
        result_coverLetter result = data_coverLetter data)).
Proof. intros. apply generateCoverLetterML_cases. Qed.

Lemma generateWithBackend_settles (url use : option string) (services : Services)
      (isMLBackendAvailable : bool) (resumeText : string)
      (jobInfo : JobInfo) (specialInstructions templateStyle : option string) :
  settles (fun coverLetter =>
             truthyValue coverLetter = false \/
             exists letter,
               coverLetter = Some letter /\
               backendLetter url use services resumeText jobInfo specialInstructions
                             (orDefault templateStyle "professional") letter)
          (generateWithBackend url use services isMLBackendAvailable resumeText jobInfo
                               specialInstructions templateStyle).
Proof.
  unfold generateWithBackend.
  destruct isMLBackendAvailable; [|apply settles_resolve; now left].
  apply settles_then; [apply settles_log|].
  apply settles_tryCatch.
  - apply keeps_settled. eapply settles_andThen.
    + apply answers_settles, generateCoverLetterML_cases.
    + intros result [[[reason ->] R]|(-> & U & response & data & F & O & J & R)].
      * destruct (truthyValue (Some reason)).
        -- apply settles_then; [apply settles_log | apply settles_resolve; now left].
        -- apply settles_resolve. rewrite R. now left.
      * cbn [truthyValue]. apply settles_resolve. rewrite R.
        destruct (data_coverLetter data) as [letter|] eqn:D.
        -- right. exists letter. split; [reflexivity|]. split; [exact U|].
           now exists response, data.
        -- left. reflexivity.
  - intros error. apply settles_then; [apply settles_log | apply settles_resolve; now left].
Qed.

(** What the local generation returns: a letter of the composer. *)
Lemma generateLocally_settles (url use : option string) (services : Services)
      (isMLBackendAvailable : bool) (session : Session)
      (resumeText : string) (jobInfo : JobInfo) (specialInstructions templateStyle : option string) :
  settles (fun letter =>
             exists today resumeInfo jobAnalysis,
               letter = generateCoverLetter today resumeInfo jobInfo jobAnalysis
                          specialInstructions (Some (orDefault templateStyle "professional")))
          (generateLocally url use services isMLBackendAvailable session resumeText jobInfo
                           specialInstructions templateStyle).
Proof.
  unfold generateLocally. apply settles_then; [apply settles_log|].
  apply (settles_andThen (fun _ => True)).
  { destruct isMLBackendAvailable; [|now apply settles_io].
    apply (settles_andThen (fun _ => True)).
    - apply answers_settles, extractResumeInfoML_answers.
    - intros r _. destruct (result_resumeInfo r); [|now apply settles_io].
      destruct (negb _); [now apply settles_resolve | now apply settles_io]. }
  intros resumeInfo _. apply settles_then; [apply settles_log|].
  apply (settles_andThen (fun _ => True)).
  { destruct isMLBackendAvailable; [|now apply settles_io].
    apply (settles_andThen (fun _ => True)).
    - apply answers_settles, analyzeJobML_answers.
    - intros r _. destruct (result_jobAnalysis r); [|now apply settles_io].
      destruct (negb _); [now apply settles_resolve | now apply settles_io]. }
  intros jobAnalysis _. apply settles_then; [apply settles_log|].
  apply settles_io. intros w. now exists (clock w), resumeInfo, jobAnalysis.
Qed.


Lemma letter_not_empty (today : Date) (resumeInfo : ResumeInfo) (jobInfo : JobInfo)
      (jobAnalysis : JobAnalysis) (specialInstructions templateStyle : option string) :
  generateCoverLetter today resumeInfo jobInfo jobAnalysis specialInstructions templateStyle
  <> EmptyString.
Proof.
  open_templates. destruct resumeInfo as [n e p ad sk ex ed wh b]. lazy beta iota zeta.
  each_style; apply trim_inky; ink.
Qed.

Lemma orDefault_not_empty (v : option string) (d : string) :
  d <> EmptyString -> orDefault v d <> EmptyString.
Proof.
  intros H. unfold orDefault, orValue. destruct v as [[|c v]|]; cbn; [exact H | discriminate | exact H].
Qed.

Lemma textOf_truthy (v : option string) : truthyValue v = true -> textOf v <> EmptyString.
Proof. destruct v as [[|c v]|]; cbn; [discriminate | discriminate | discriminate]. Qed.

Ltac run tac :=
  match goal with
  | |- context [andThen ?m ?k ?s] =>
      let H := fresh "H" in
      let a := fresh "a" in
      let s1 := fresh "s" in
      let I := fresh "I" in
      let P := fresh "P" in
      eassert (H : settles _ m);
      [tac | destruct (settles_run _ m k s H) as (a & s1 & P & I & ->); clear H; cbv beta]
  end.

(** What the handler does once the request is accepted: it hands one
    document to [insertOne], and answers with the letter of that document. *)
Lemma generateAndStore_stores (url use : option string) (services : Services)
      (session : Session) (requestData : RequestData)
      (user : UserDocument) (s : Server) :
  exists document s',
    inserted s' = (inserted s ++ [document])%list /\
    letter_content document <> EmptyString /\
    letter_templateStyle document <> EmptyString /\
    letter_userId document = session_user_id session /\
    (backendLetter url use services (storedResumeText user) (requestedJob requestData)
                   (request_specialInstructions requestData)
                   (orDefault (request_templateStyle requestData) "professional")
                   (letter_content document) \/
     composedLetter (requestedJob requestData) (request_specialInstructions requestData)
                    (orDefault (request_templateStyle requestData) "professional")
                    (letter_content document)) /\
    generateAndStore url use services session requestData user s
    = (match insertOne services document with
       | Returns id =>
           Returns {| response_status := 200;
                      response_message := "Cover letter generated successfully";
                      response_error := None;
                      response_coverLetter := Some (letter_content document);
                      response_id := Some id;
                      response_usedMLBackend := Some (letter_generatedWithML document) |}
       | Throws error => Throws error
       end, s').
Proof.
  unfold generateAndStore. lazy zeta.
  do 8 run ltac:(apply settles_log).
  run ltac:(apply (settles_weaken (fun _ : bool => True) (fun _ => True));
            [trivial | destruct (USE_ML_BACKEND use);
                       [apply answers_settles, checkApiHealth_answers
                       | now apply settles_resolve]]).
  run ltac:(apply generateWithBackend_settles).
  run ltac:(apply (settles_weaken
                     (fun letter : string =>
                        letter <> EmptyString /\
                        (backendLetter url use services (storedResumeText user)
                           (requestedJob requestData) (request_specialInstructions requestData)
                           (orDefault (request_templateStyle requestData) "professional")
                           letter \/
                         composedLetter (requestedJob requestData)
                           (request_specialInstructions requestData)
                           (orDefault (request_templateStyle requestData) "professional")
                           letter)));
            [intros letter Hl; exact Hl|];
            match goal with
            | |- settles _ (if negb (truthyValue ?c) then _ else _) =>
                destruct (truthyValue c) eqn:T
            end; cbn [negb];
            [ apply settles_resolve; split; [apply textOf_truthy, T|];
              match goal with
              | O : _ \/ _ |- _ =>
                  destruct O as [O|(letter & -> & O)]; [congruence | left; exact O]
              end
            | eapply settles_weaken; [|apply generateLocally_settles];
              intros letter (today & info & analysis & ->);
              split; [apply letter_not_empty | right; now exists today, info, analysis] ]).
  do 2 run ltac:(apply (settles_io (fun _ => True)); trivial).
  match goal with |- context [insertCoverLetter services ?d] => exists d end.
  unfold andThen, insertCoverLetter, resolve.
  eexists. split; [|split; [|split; [|split; [|split]]]]; cycle 5.
  - destruct (insertOne services _); reflexivity.
  - cbn [inserted]. congruence.
  - cbn [letter_content]. tauto.
  - apply orDefault_not_empty. discriminate.
  - reflexivity.
  - cbn [letter_content]. tauto.
Qed.


(** Every request gets a response, and a letter is stored exactly when it
    is sent.  The handler never throws.  A 401 or 400 response leaves the
    server as it was.  A 200 response carries a letter that is not empty,
    and that letter is the content of the one document handed to
    [insertOne], filed under the session's user with a template style that
    is not empty.  Any other response is a 500 without a letter, after at
    most one call of [insertOne], which threw. *)
Theorem POST_stores_what_it_sends :
  forall (url use : option string) (services : Services) (s : Server),
  exists response s',
    POST url use services s = (Returns response, s') /\
    (((response_status response = 401%N \/ response_status response = 400%N) /\
      response_coverLetter response = None /\ s' = s) \/
     (response_status response = 200%N /\
      exists document id,
        inserted s' = (inserted s ++ [document])%list /\
        insertOne services document = Returns id /\
        response_id response = Some id /\
        response_coverLetter response = Some (letter_content document) /\
        letter_content document <> EmptyString /\
        letter_templateStyle document <> EmptyString /\
        (exists session, getServerSession services = Returns (Some session) /\
                         letter_userId document = session_user_id session)) \/
     (response_status response = 500%N /\
      response_coverLetter response = None /\
      (inserted s' = inserted s \/
       exists document error,
         inserted s' = (inserted s ++ [document])%list /\
         insertOne services document = Throws error))).
Proof.
  intros url use services s. unfold POST.
  cbv beta iota delta [tryCatch andThen await attempt resolve].
  destruct (getServerSession services) as [[session|]|e] eqn:S.
  2: { eexists _, _. split; [reflexivity|]. left. cbn. auto. }
  2: { eexists _, _. split; [reflexivity|]. right. right. cbn. auto. }
  destruct (request_json services) as [requestData|e].
  2: { eexists _, _. split; [reflexivity|]. left. cbn. auto. }
  destruct (_ || _).
  { eexists _, _. split; [reflexivity|]. left. cbn. auto. }
  destruct (connectToDatabase services) as [[]|e].
  2: { eexists _, _. split; [reflexivity|]. right. right. cbn. auto. }
  destruct (findOne services _) as [[user|]|e].
  2: { eexists _, _. split; [reflexivity|]. left. cbn. auto. }
  2: { eexists _, _. split; [reflexivity|]. right. right. cbn. auto. }
  destruct (negb _).
  { eexists _, _. split; [reflexivity|]. left. cbn. auto. }
  destruct (generateAndStore_stores url use services session requestData user s)
    as (document & s' & I & C & T & U & _ & ->).
  destruct (insertOne services document) as [id|error] eqn:D.
  - eexists _, _. split; [reflexivity|]. right. left. cbn. split; [reflexivity|].
    exists document, id. repeat split; try assumption. now exists session.
  - eexists _, _. split; [reflexivity|]. right. right. cbn. repeat split.
    right. now exists document, error.
Qed.

Ltac open_handler :=
  unfold generateAndStore, generateWithBackend, generateLocally, checkApiHealth,
    extractResumeInfoIO, analyzeJobIO, generateCoverLetterIO, insertCoverLetter.

Ltac run_handler :=
  lazy beta iota zeta
       delta [andThen tryCatch attempt await resolve io bind ret consoleLog newDate
              fst snd world inserted clock console negb truthyValue truthy isEmpty].

Lemma generateAndStore_local (url use : option string) (services : Services)
      (session : Session) (requestData : RequestData) (user : UserDocument) (s : Server) :
  USE_ML_BACKEND use = false ->
  exists document s',
    letter_content document = localLetter (clock (world s)) session requestData user /\
    letter_generatedWithML document = false /\
    generateAndStore url use services session requestData user s
    = (match insertOne services document with
       | Returns id =>
           Returns {| response_status := 200;
                      response_message := "Cover letter generated successfully";
                      response_error := None;
                      response_coverLetter := Some (letter_content document);
                      response_id := Some id;
                      response_usedMLBackend := Some false |}
       | Throws error => Throws error
       end, s').
Proof.
  intros H. open_handler. rewrite H. run_handler.
  match goal with |- context [insertOne services ?d] => exists d end.
  eexists. split; [reflexivity|]. split; [reflexivity|].
  destruct (insertOne services _); reflexivity.
Qed.

(** With the backend switched off, the handler is the local pipeline: the
    letter of a 200 response is what the three functions of the generator
    give, composed on the stored resume text (or the placeholder built on
    the file name), the profile of the session and the fields of the
    request, at the date of the clock and in the style of the request or
    else the professional one. *)
Theorem POST_without_backend :
  forall (url use : option string) (services : Services) (s : Server) (response : Response),
    USE_ML_BACKEND use = false ->
    fst (POST url use services s) = Returns response ->
    response_status response = 200%N ->
    exists session requestData user,
      getServerSession services = Returns (Some session) /\
      request_json services = Returns requestData /\
      findOne services (session_user_id session) = Returns (Some user) /\
      response_coverLetter response
      = Some (localLetter (clock (world s)) session requestData user) /\
      response_usedMLBackend response = Some false.
Proof.
  intros url use services s response H. unfold POST.
  cbv beta iota delta [tryCatch andThen await attempt resolve].
  destruct (getServerSession services) as [[session|]|e];
    [|cbn; intros [= <-]; discriminate ..].
  destruct (request_json services) as [requestData|e];
    [|cbn; intros [= <-]; discriminate].
  destruct (_ || _); [cbn; intros [= <-]; discriminate|].
  destruct (connectToDatabase services) as [[]|e];
    [|cbn; intros [= <-]; discriminate].
  destruct (findOne services _) as [[user|]|e] eqn:F;
    [|cbn; intros [= <-]; discriminate ..].
  destruct (negb _); [cbn; intros [= <-]; discriminate|].
  destruct (generateAndStore_local url use services session requestData user s H)
    as (document & s' & C & _ & ->).
  destruct (insertOne services document) as [id|error]; cbn [fst].
  - intros [= <-] _. exists session, requestData, user. cbn. rewrite C. auto.
  - intros [= <-]. discriminate.
Qed.

Lemma POST_without_backend_witness :
  exists session requestData user,
    getServerSession sampleServices = Returns (Some session) /\
    request_json sampleServices = Returns requestData /\
    findOne sampleServices (session_user_id session) = Returns (Some user) /\
    response_coverLetter sampleResponse
    = Some (localLetter (clock (world sampleServer)) session requestData user) /\
    response_usedMLBackend sampleResponse = Some false.
Proof.
  apply (POST_without_backend None None sampleServices sampleServer sampleResponse).
  - reflexivity.
  - vm_compute. reflexivity.
  - reflexivity.
Defined.

(** With the backend switched off, [fetch] is never called: the response
    and the server after the request are the same whatever the backend
    would answer. *)
Theorem POST_backend_off_never_fetches :
  forall (url use : option string) (services : Services)
         (backend : string -> string -> option Payload -> Outcome FetchResponse)
         (s : Server),
    USE_ML_BACKEND use = false ->
    POST url use (withFetch services backend) s = POST url use services s.
Proof.
  intros url use services backend s H. unfold POST. open_handler.
  unfold generateCoverLetterML, extractResumeInfoML, analyzeJobML.
  rewrite H. unfold withFetch.
  cbn [getServerSession request_json connectToDatabase findOne insertOne].
  lazy beta iota zeta delta [andThen tryCatch attempt await resolve].
  reflexivity.
Qed.

Lemma POST_backend_off_never_fetches_witness :
  POST None None
       (withFetch sampleServices
                  (fun _ _ _ => Returns {| fetched_ok := true;
                                           fetched_json := Throws (OtherValue "no JSON") |}))
       sampleServer
  = POST None None sampleServices sampleServer.
Proof.
  apply (POST_backend_off_never_fetches None None sampleServices). reflexivity.
Defined.

(** Where the letter of a 200 response comes from: it is the text the
    backend answered to the generation request for the stored resume and
    the fields of the request, or a letter of the composer for the job,
    the instructions and the style of the request. *)
Theorem POST_letter_origin :
  forall (url use : option string) (services : Services) (s : Server) (response : Response),
    fst (POST url use services s) = Returns response ->
    response_status response = 200%N ->
    exists letter session requestData user,
      getServerSession services = Returns (Some session) /\
      request_json services = Returns requestData /\
      findOne services (session_user_id session) = Returns (Some user) /\
      response_coverLetter response = Some letter /\
      (backendLetter url use services (storedResumeText user) (requestedJob requestData)
                     (request_specialInstructions requestData)
                     (orDefault (request_templateStyle requestData) "professional") letter \/
       composedLetter (requestedJob requestData) (request_specialInstructions requestData)
                      (orDefault (request_templateStyle requestData) "professional") letter).
Proof.
  intros url use services s response. unfold POST.
  cbv beta iota delta [tryCatch andThen await attempt resolve].
  destruct (getServerSession services) as [[session|]|e];
    [|cbn; intros [= <-]; discriminate ..].
  destruct (request_json services) as [requestData|e];
    [|cbn; intros [= <-]; discriminate].
  destruct (_ || _); [cbn; intros [= <-]; discriminate|].
  destruct (connectToDatabase services) as [[]|e];
    [|cbn; intros [= <-]; discriminate].
  destruct (findOne services _) as [[user|]|e] eqn:F;
    [|cbn; intros [= <-]; discriminate ..].
  destruct (negb _); [cbn; intros [= <-]; discriminate|].
  destruct (generateAndStore_stores url use services session requestData user s)
    as (document & s' & _ & _ & _ & _ & O & ->).
  destruct (insertOne services document) as [id|error]; cbn [fst].
  - intros [= <-] _. exists (letter_content document), session, requestData, user.
    cbn [response_coverLetter]. auto.
  - intros [= <-]. discriminate.
Qed.

Lemma POST_letter_origin_witness :
  exists letter session requestData user,
    getServerSession (withFetch sampleServices answeringBackend) = Returns (Some session) /\
    request_json (withFetch sampleServices answeringBackend) = Returns requestData /\
    findOne (withFetch sampleServices answeringBackend) (session_user_id session)
    = Returns (Some user) /\
    response_coverLetter backendResponse = Some letter /\
    (backendLetter None (Some "true") (withFetch sampleServices answeringBackend)
                   (storedResumeText user) (requestedJob requestData)
                   (request_specialInstructions requestData)
                   (orDefault (request_templateStyle requestData) "professional") letter \/
     composedLetter (requestedJob requestData) (request_specialInstructions requestData)
                    (orDefault (request_templateStyle requestData) "professional") letter).
Proof.
  apply (POST_letter_origin None (Some "true") (withFetch sampleServices answeringBackend)
                            sampleServer backendResponse).
  - vm_compute. reflexivity.
  - reflexivity.
Defined.

(** The handler hands a resume record without skills to the composer when
    the backend's extractor returns one: the letter of the 200 response
    then holds the text "undefined". *)
Lemma POST_prints_undefined :
  exists response letter s',
    POST None (Some "true") (withFetch sampleServices noSkillsBackend) sampleServer
    = (Returns response, s') /\
    response_status response = 200%N /\
    response_coverLetter response = Some letter /\
    includes letter "undefined" = true.
Proof.
  eexists _, _, _. split; [vm_compute; reflexivity|]. vm_compute. repeat split.
Qed.
